(** * Expense-tracker analytics: a shallow embedding of [analytics.py]

    The development follows the layout of the source file:
    - Python primitives the code relies on ([str] methods, [int], the
      proleptic Gregorian calendar of the [datetime] module);
    - the date helpers ([parse_yyyy_mm], [month_bounds_utc],
      [prev_month_str], [split_range_by_month]);
    - the budget prorator;
    - the analytics core ([normalize_category],
      [classify_food_unnecessary], [compute_insights]).

    Modelling conventions.
    - Python [str] is [string] (the ASCII fragment: [lower] and [strip]
      act on ASCII letters and ASCII white space only).
    - Python [float] is idealised as an exact rational [Q]; NaN and the
      infinities are outside the model, and [round(x, 2)] is
      round-half-to-even on the exact value.
    - An exception is an explicit outcome of the [result] type; a loop
      that would need more iterations than its fuel ends in [OutOfFuel],
      and the lemmas show that this outcome never occurs. *)

From Stdlib Require Import ZArith QArith Qround Qabs Lqa Lia List Bool Ascii String.
Import ListNotations.

Open Scope string_scope.
Open Scope list_scope.
Open Scope Z_scope.

(* ================================================================== *)
(** * Outcomes of fallible code *)
(* ================================================================== *)

Inductive exn : Type := ValueError | TypeError.

Inductive result (A : Type) : Type :=
| Ok (a : A)
| Raise (e : exn)
| OutOfFuel.

Arguments Ok {A} a.
Arguments Raise {A} e.
Arguments OutOfFuel {A}.

Definition bind {A B : Type} (r : result A) (k : A -> result B) : result B :=
  match r with
  | Ok a => k a
  | Raise e => Raise e
  | OutOfFuel => OutOfFuel
  end.

Notation "x <- r ;; k" := (bind r (fun x => k))
  (at level 61, r at next level, right associativity).
Notation "' p <- r ;; k" := (bind r (fun p => k))
  (at level 61, p pattern, r at next level, right associativity).

Definition is_ok {A : Type} (r : result A) : bool :=
  match r with Ok _ => true | _ => false end.

(* ================================================================== *)
(** * Python string primitives (ASCII fragment) *)
(* ================================================================== *)

Module PyStr.

(** [str.isspace] on ASCII: TAB, LF, VT, FF, CR, FS, GS, RS, US, SPACE. *)
Definition is_space (c : ascii) : bool :=
  let n := Z.of_nat (nat_of_ascii c) in
  ((9 <=? n) && (n <=? 13)) || ((28 <=? n) && (n <=? 32)).

Definition lower_char (c : ascii) : ascii :=
  let n := nat_of_ascii c in
  if (Nat.leb 65 n && Nat.leb n 90)%bool then ascii_of_nat (n + 32) else c.

(** [s.lower()] *)
Fixpoint lower (s : string) : string :=
  match s with
  | EmptyString => EmptyString
  | String c r => String (lower_char c) (lower r)
  end.

Fixpoint lstrip (s : string) : string :=
  match s with
  | EmptyString => EmptyString
  | String c r => if is_space c then lstrip r else s
  end.

Fixpoint rstrip (s : string) : string :=
  match s with
  | EmptyString => EmptyString
  | String c r =>
      match rstrip r with
      | EmptyString => if is_space c then EmptyString else String c EmptyString
      | r' => String c r'
      end
  end.

(** [s.strip()] *)
Definition strip (s : string) : string := rstrip (lstrip s).

(** [k in s] for strings: [k] occurs as a contiguous substring of [s]. *)
Fixpoint contains (k s : string) : bool :=
  if String.prefix k s then true
  else match s with
       | EmptyString => false
       | String _ r => contains k r
       end.

(** [s.split(sep)] for a one-character separator. *)
Fixpoint split (sep : ascii) (s : string) : list string :=
  match s with
  | EmptyString => [EmptyString]
  | String c r =>
      if Ascii.eqb c sep then EmptyString :: split sep r
      else match split sep r with
           | [] => [String c EmptyString]
           | h :: t => String c h :: t
           end
  end.

(** [sep.join(parts)] *)
Fixpoint join (sep : string) (parts : list string) : string :=
  match parts with
  | [] => EmptyString
  | [p] => p
  | p :: rest => p ++ sep ++ join sep rest
  end%string.

(** [s.replace(old, new)] for a one-character [old]. *)
Fixpoint replace_char (old : ascii) (new : string) (s : string) : string :=
  match s with
  | EmptyString => EmptyString
  | String c r =>
      if Ascii.eqb c old then (new ++ replace_char old new r)%string
      else String c (replace_char old new r)
  end.

(** Truthiness of a string: non-empty. *)
Definition truthy (s : string) : bool :=
  match s with EmptyString => false | _ => true end.

(** [x or ""] where [x] is a string or [None]. *)
Definition or_empty (x : option string) : string :=
  match x with
  | Some s => s
  | None => EmptyString
  end.

Definition digit_of (c : ascii) : option Z :=
  let n := Z.of_nat (nat_of_ascii c) in
  if (48 <=? n) && (n <=? 57) then Some (n - 48) else None.

Definition digit_char (d : Z) : ascii := ascii_of_nat (Z.to_nat (48 + d)).

(** The digit part of an [int] literal: decimal digits, a single
    underscore allowed between two digits.  [after_digit] records that
    the previous character was a digit. *)
Fixpoint int_digits (acc : Z) (after_digit : bool) (s : string) : result Z :=
  match s with
  | EmptyString => if after_digit then Ok acc else Raise ValueError
  | String c r =>
      match digit_of c with
      | Some d => int_digits (10 * acc + d) true r
      | None =>
          if Ascii.eqb c "_"%char && after_digit then int_digits acc false r
          else Raise ValueError
      end
  end.

(** [int(s)] for a string [s], base 10. *)
Definition int (s : string) : result Z :=
  match strip s with
  | String "+"%char r => int_digits 0 false r
  | String "-"%char r => n <- int_digits 0 false r ;; Ok (- n)
  | t => int_digits 0 false t
  end.

(** Decimal digits of a non-negative integer, most significant first,
    pushed in front of [acc]. *)
Fixpoint digits_fuel (fuel : nat) (n : Z) (acc : string) : string :=
  let acc' := String (digit_char (n mod 10)) acc in
  match fuel with
  | O => acc'
  | S f => if n <? 10 then acc' else digits_fuel f (n / 10) acc'
  end.

Definition digits (n : Z) : string :=
  digits_fuel (Z.to_nat (Z.log2 n)) n EmptyString.

(** [str(n)] for an integer, also the format [f"{n}"]. *)
Definition str_of_int (n : Z) : string :=
  if n <? 0 then String "-"%char (digits (- n)) else digits n.

(** The format [f"{n:02d}"]: zero padded to width two (the sign counts
    towards the width). *)
Definition fmt_02d (n : Z) : string :=
  let s := str_of_int n in
  if Nat.ltb (String.length s) 2 then String "0"%char s else s.

End PyStr.

(* ================================================================== *)
(** * The proleptic Gregorian calendar of Python's [datetime] module *)
(* ================================================================== *)

Module Calendar.

Record date : Type := mkdate { year : Z; month : Z; day : Z }.

Definition MINYEAR : Z := 1.
Definition MAXYEAR : Z := 9999.

Definition is_leap (y : Z) : bool :=
  (y mod 4 =? 0) && (negb (y mod 100 =? 0) || (y mod 400 =? 0)).

(** [_DAYS_IN_MONTH] *)
Definition DAYS_IN_MONTH (m : Z) : Z :=
  match m with
  | 1 => 31 | 2 => 28 | 3 => 31 | 4 => 30 | 5 => 31 | 6 => 30
  | 7 => 31 | 8 => 31 | 9 => 30 | 10 => 31 | 11 => 30 | 12 => 31
  | _ => -1
  end.

(** [_DAYS_BEFORE_MONTH] *)
Definition DAYS_BEFORE_MONTH (m : Z) : Z :=
  match m with
  | 1 => 0 | 2 => 31 | 3 => 59 | 4 => 90 | 5 => 120 | 6 => 151
  | 7 => 181 | 8 => 212 | 9 => 243 | 10 => 273 | 11 => 304 | 12 => 334
  | _ => -1
  end.

Definition days_in_month (y m : Z) : Z :=
  if (m =? 2) && is_leap y then 29 else DAYS_IN_MONTH m.

Definition days_before_year (y : Z) : Z :=
  let y' := y - 1 in
  y' * 365 + y' / 4 - y' / 100 + y' / 400.

Definition days_before_month (y m : Z) : Z :=
  DAYS_BEFORE_MONTH m + (if (m >? 2) && is_leap y then 1 else 0).

Definition ymd2ord (y m d : Z) : Z :=
  days_before_year y + days_before_month y m + d.

Definition valid_dateb (y m d : Z) : bool :=
  (MINYEAR <=? y) && (y <=? MAXYEAR) &&
  (1 <=? m) && (m <=? 12) &&
  (1 <=? d) && (d <=? days_in_month y m).

(** The constructor [date(y, m, d)]: the fields are range-checked. *)
Definition date_new (y m d : Z) : result date :=
  if valid_dateb y m d then Ok (mkdate y m d) else Raise ValueError.

Definition toordinal (d : date) : Z := ymd2ord (year d) (month d) (day d).

(** Dates compare as the tuples [(year, month, day)]. *)
Definition date_ltb (a b : date) : bool :=
  (year a <? year b) ||
  ((year a =? year b) &&
   ((month a <? month b) || ((month a =? month b) && (day a <? day b)))).

Definition date_leb (a b : date) : bool := negb (date_ltb b a).

(** [max(a, b)] and [min(a, b)]: the first argument wins a tie. *)
Definition date_max (a b : date) : date := if date_ltb a b then b else a.
Definition date_min (a b : date) : date := if date_ltb b a then b else a.

(** [(a - b).days] *)
Definition days_between (a b : date) : Z := toordinal a - toordinal b.

(** A [datetime] with [tzinfo=timezone.utc]. *)
Record datetime : Type :=
  mkdatetime { dt_date : date; hour : Z; minute : Z; second : Z }.

Definition datetime_new (y m d hh mm ss : Z) : result datetime :=
  dd <- date_new y m d ;;
  if (0 <=? hh) && (hh <=? 23) && (0 <=? mm) && (mm <=? 59) &&
     (0 <=? ss) && (ss <=? 59)
  then Ok (mkdatetime dd hh mm ss) else Raise ValueError.

Record timedelta : Type := mktimedelta { td_days : Z; td_seconds : Z }.

Definition seconds_of_day (t : datetime) : Z :=
  hour t * 3600 + minute t * 60 + second t.

(** [a - b] for two UTC datetimes, normalised as [timedelta] does. *)
Definition datetime_sub (a b : datetime) : timedelta :=
  let total :=
    (toordinal (dt_date a) - toordinal (dt_date b)) * 86400
    + (seconds_of_day a - seconds_of_day b) in
  mktimedelta (total / 86400) (total mod 86400).

End Calendar.

(* ================================================================== *)
(** * Date helpers of [analytics.py] *)
(* ================================================================== *)

Import Calendar.

Definition parse_yyyy_mm (s : string) : result (Z * Z) :=
  let s := PyStr.strip s in
  match PyStr.split "-" s with
  | [y; m] =>
      year <- PyStr.int y ;;
      mon <- PyStr.int m ;;
      if (mon <? 1) || (mon >? 12) then Raise ValueError else Ok (year, mon)
  | _ => Raise ValueError
  end.

Definition month_bounds_utc (month : string) : result (datetime * datetime) :=
  '(y, m) <- parse_yyyy_mm month ;;
  start <- datetime_new y m 1 0 0 0 ;;
  end_ <- (if m =? 12 then datetime_new (y + 1) 1 1 0 0 0
           else datetime_new y (m + 1) 1 0 0 0) ;;
  Ok (start, end_).

Definition range_bounds_utc (start_d end_d : date) : result (datetime * datetime) :=
  start <- datetime_new (year start_d) (Calendar.month start_d) (day start_d) 0 0 0 ;;
  end_ <- datetime_new (year end_d) (Calendar.month end_d) (day end_d) 0 0 0 ;;
  Ok (start, end_).

Definition prev_month_str (month : string) : result string :=
  '(y, m) <- parse_yyyy_mm month ;;
  if m =? 1 then Ok (PyStr.str_of_int (y - 1) ++ "-12")%string
  else Ok (PyStr.str_of_int y ++ "-" ++ PyStr.fmt_02d (m - 1))%string.

Definition _month_str (d : date) : string :=
  (PyStr.str_of_int (year d) ++ "-" ++ PyStr.fmt_02d (Calendar.month d))%string.

Definition str_mem (x : string) (l : list string) : bool :=
  existsb (String.eqb x) l.

(** The [while cur < end] loop of [split_range_by_month]. *)
Fixpoint split_loop (fuel : nat) (cur end_ : date) (out : list string)
  : result (list string) :=
  match fuel with
  | O => OutOfFuel
  | S f =>
      if date_ltb cur end_ then
        let out := out ++ [_month_str cur] in
        cur <- (if Calendar.month cur =? 12 then date_new (year cur + 1) 1 1
                else date_new (year cur) (Calendar.month cur + 1) 1) ;;
        split_loop f cur end_ out
      else Ok out
  end.

(** The de-duplication loop: [seen] is the set, [final] the output. *)
Fixpoint dedupe_loop (xs seen final : list string) : list string :=
  match xs with
  | [] => final
  | x :: r =>
      if str_mem x seen then dedupe_loop r seen final
      else dedupe_loop r (x :: seen) (final ++ [x])
  end.

(** An upper bound on the number of loop tests: one per month start in
    the range, plus the final failing test. *)
Definition split_fuel (start end_ : date) : nat :=
  Z.to_nat (12 * (year end_ - year start)
            + (Calendar.month end_ - Calendar.month start) + 2).

Definition split_range_by_month (start end_ : date) : result (list string) :=
  if date_leb end_ start then Ok []
  else
    cur <- date_new (year start) (Calendar.month start) 1 ;;
    out <- split_loop (split_fuel start end_) cur end_ [] ;;
    let sm := _month_str start in
    let out := if str_mem sm out then out else sm :: out in
    Ok (dedupe_loop out [] []).

(* ================================================================== *)
(** * Python numbers: [float] idealised as [Q] *)
(* ================================================================== *)

Module PyNum.

Open Scope Q_scope.

Definition Qlt_bool (a b : Q) : bool := negb (Qle_bool b a).

(** Round half to even, to an integer. *)
Definition round_half_even (q : Q) : Z :=
  let f := Qfloor q in
  match Qcompare (q - inject_Z f) (1 # 2) with
  | Lt => f
  | Gt => (f + 1)%Z
  | Eq => if Z.even f then f else (f + 1)%Z
  end.

(** [round(q, 2)] *)
Definition round2 (q : Q) : Q := Qmake (round_half_even (q * 100)) 100.

(** [sum(vals)] *)
Definition sum (vals : list Q) : Q := fold_left Qplus vals 0.

(** [max(vals)] for a non-empty list [v :: vals]: the first maximum. *)
Definition max_list (v : Q) (vals : list Q) : Q :=
  fold_left (fun m x => if Qlt_bool m x then x else m) vals v.

(** A Python value as it is found under the key of a row: [None] (also
    the value of [dict.get] for a missing key), a number, or a string. *)
Inductive pyval : Type :=
| PNone
| PFloat (q : Q)
| PStr (s : string).

Definition truthy (x : pyval) : bool :=
  match x with
  | PNone => false
  | PFloat q => negb (Qeq_bool q 0)
  | PStr s => PyStr.truthy s
  end.

(** [x or y] *)
Definition por (x y : pyval) : pyval := if truthy x then x else y.

(** Groups of three digits separated by commas, for [n >= 0]. *)
Fixpoint group3_fuel (fuel : nat) (n : Z) (acc : string) : string :=
  match fuel with
  | O => (PyStr.digits n ++ acc)%string
  | S f =>
      if (n <? 1000)%Z then (PyStr.digits n ++ acc)%string
      else
        let r := (n mod 1000)%Z in
        let pad := if (r <? 10)%Z then "00"%string
                   else if (r <? 100)%Z then "0"%string else ""%string in
        group3_fuel f (n / 1000)%Z ("," ++ pad ++ PyStr.digits r ++ acc)%string
  end.

(** The format [f"{q:,.0f}"] (for [q > -1/2]). *)
Definition fmt_comma_0f (q : Q) : string :=
  let n := round_half_even q in
  if (n <? 0)%Z
  then String "-"%char (group3_fuel (Z.to_nat (Z.log2 (- n))) (- n) "")
  else group3_fuel (Z.to_nat (Z.log2 n)) n "".

End PyNum.

Import PyNum.

(* ================================================================== *)
(** * Rows read from the database *)
(* ================================================================== *)

(** The [created_at] value of an entry: absent, a [datetime] object of
    type [T], or any other value, kept as its [str(..)]. *)
Inductive pyts (T : Type) : Type :=
| TsNone
| TsDatetime (d : T)
| TsOther (s : string).

Arguments TsNone {T}.
Arguments TsDatetime {T} d.
Arguments TsOther {T} s.

(** An entry row.  The text columns hold a string or [None]. *)
Record entry (T : Type) : Type := mkentry {
  e_amount : pyval;
  e_created_at : pyts T;
  e_category : option string;
  e_category_normalized : option string;
  e_title : option string;
  e_beneficiary_name : option string;
  e_raw_text : option string
}.

Arguments mkentry {T}.
Arguments e_amount {T}.
Arguments e_created_at {T}.
Arguments e_category {T}.
Arguments e_category_normalized {T}.
Arguments e_title {T}.
Arguments e_beneficiary_name {T}.
Arguments e_raw_text {T}.

(** A budget row: the keys [budget_amount], [amount] and [home_city]. *)
Record budget_row : Type := mkbudget {
  b_budget_amount : pyval;
  b_amount : pyval;
  b_home_city : option string
}.

(** Dictionaries keep insertion order. [dict_add k v d] is [d[k] += v]
    on a [defaultdict(float)]. *)
Fixpoint dict_add (k : string) (v : Q) (d : list (string * Q)) : list (string * Q) :=
  match d with
  | [] => [(k, 0 + v)%Q]
  | (k', x) :: r =>
      if String.eqb k' k then (k', (x + v)%Q) :: r
      else (k', x) :: dict_add k v r
  end.

(** [d.get(k, default)] *)
Fixpoint dict_get (k : string) (default : Q) (d : list (string * Q)) : Q :=
  match d with
  | [] => default
  | (k', x) :: r => if String.eqb k' k then x else dict_get k default r
  end.

Definition dict_values (d : list (string * Q)) : list Q := map snd d.

(* ================================================================== *)
(** * Constants of [analytics.py] *)
(* ================================================================== *)

Definition DISCRETIONARY_BASE : list string :=
  ["shopping"; "entertainment"; "charity"; "subscriptions"; "travel"]%string.

Definition RESTAURANT_KEYWORDS : list string :=
  ["kfc"; "mcdonald"; "mc donald"; "dominos"; "domino"; "pizza"; "burger";
   "shawarma"; "restaurant"; "cafe"; "coffee"; "bistro"; "foodpanda";
   "food panda"; "careem food"; "delivery"; "dine"; "bbq"; "karahi";
   "nihari"]%string.

Definition HOME_FOOD_KEYWORDS : list string :=
  ["grocery"; "super"; "mart"; "store"; "cash&carry"; "cash and carry";
   "imtiyaz"; "metro"; "utility store"; "ration"; "kirana"]%string.

Definition FOOD_EXPENSIVE_RS : Q := 1800.

Definition EXCLUDE_CATS : list string := ["funds_transfer"%string].

(* ================================================================== *)
(** * The analytics core and the budget prorator *)
(* ================================================================== *)

Section Analytics.

(** Library and database collaborators.
    - [float_of_str s] is [float(s)] for a string: [None] stands for the
      [ValueError] of a non-numeric string.
    - [T] is the type of [datetime] objects, [fromisoformat] is
      [datetime.fromisoformat] ([None]: it raises), and [utc_day d] is
      [d.astimezone(timezone.utc).date().isoformat()].
    - [fetch_month_budget user month] is the budget lookup of [db.py]. *)
Variable float_of_str : string -> option Q.
Variable T : Type.
Variable fromisoformat : string -> option T.
Variable utc_day : T -> string.
Variable fetch_month_budget : string -> string -> option budget_row.

(** [float(x)] *)
Definition py_float (x : pyval) : result Q :=
  match x with
  | PNone => Raise TypeError
  | PFloat q => Ok q
  | PStr s =>
      match float_of_str s with
      | Some q => Ok q
      | None => Raise ValueError
      end
  end.

(** ** Budget prorator *)

(** The body of the [for m in months] loop; [total] is the accumulator. *)
Definition prorate_step (user_id : string) (start end_ : date)
  (total : Q) (m : string) : result Q :=
  match fetch_month_budget user_id m with
  | None => Ok total
  | Some b =>
      monthly_budget <- py_float (por (b_budget_amount b) (PFloat 0)) ;;
      if Qle_bool monthly_budget 0 then Ok total
      else
        '(ms_dt, me_dt) <- month_bounds_utc m ;;
        let ms := dt_date ms_dt in
        let me := dt_date me_dt in
        let overlap_start := date_max start ms in
        let overlap_end := date_min end_ me in
        if date_leb overlap_end overlap_start then Ok total
        else
          let days_in_month := days_between me ms in
          let overlap_days := days_between overlap_end overlap_start in
          if (days_in_month <=? 0) || (overlap_days <=? 0) then Ok total
          else Ok (total + (monthly_budget / inject_Z days_in_month)
                           * inject_Z overlap_days)%Q
  end.

Fixpoint prorate_loop (user_id : string) (start end_ : date)
  (months : list string) (total : Q) : result Q :=
  match months with
  | [] => Ok total
  | m :: rest =>
      total <- prorate_step user_id start end_ total m ;;
      prorate_loop user_id start end_ rest total
  end.

(** The sum before the final [round(total, 2)]. *)
Definition prorate_total (user_id : string) (start end_ : date) : result Q :=
  months <- split_range_by_month start end_ ;;
  prorate_loop user_id start end_ months 0%Q.

Definition prorate_monthly_budget_for_range (user_id : string)
  (start end_ : date) : result Q :=
  if date_leb end_ start then Ok 0%Q
  else
    total <- prorate_total user_id start end_ ;;
    Ok (round2 total).

(** ** Analytics core *)

Definition _to_float (x : pyval) : Q :=
  match py_float x with
  | Ok q => q
  | _ => 0%Q
  end.

(** The parts of the blob that are present and non-empty. *)
Definition blob_parts (e : entry T) : list string :=
  filter PyStr.truthy
    (map PyStr.or_empty
       [e_title e; e_beneficiary_name e; e_raw_text e; e_category e;
        e_category_normalized e]).

Definition _text_blob (e : entry T) : string :=
  PyStr.lower (PyStr.join " " (blob_parts e)).

Definition _parse_ts (ts : pyts T) : option T :=
  match ts with
  | TsNone => None
  | TsDatetime d => Some d
  | TsOther s => fromisoformat (PyStr.replace_char "Z" "+00:00" s)
  end.

Definition normalize_category (e : entry T) : string :=
  let cn := PyStr.lower (PyStr.strip (PyStr.or_empty (e_category_normalized e))) in
  if PyStr.truthy cn then cn
  else
    let c := PyStr.lower (PyStr.strip (PyStr.or_empty (e_category e))) in
    if PyStr.contains "utility" c then "utility"
    else if PyStr.contains "fund" c || PyStr.contains "transfer" c then "funds_transfer"
    else if PyStr.contains "groc" c then "grocery"
    else if PyStr.contains "shop" c then "shopping"
    else if PyStr.contains "fuel" c || PyStr.contains "petrol" c then "fuel"
    else if PyStr.contains "food" c then "food"
    else if PyStr.contains "rent" c then "rent"
    else if PyStr.truthy c then c else "other".

(** [any(k in blob for k in keywords)] *)
Definition any_in (keywords : list string) (blob : string) : bool :=
  existsb (fun k => PyStr.contains k blob) keywords.

Definition classify_food_unnecessary (e : entry T) : bool * string :=
  let blob := _text_blob e in
  let amt := _to_float (e_amount e) in
  if any_in HOME_FOOD_KEYWORDS blob then (false, "home_food_keyword")
  else if any_in RESTAURANT_KEYWORDS blob then (true, "restaurant_keyword")
  else if Qle_bool FOOD_EXPENSIVE_RS amt then (true, "expensive_food_amount")
  else (false, "unknown_food_type").

Definition _day_key (d : T) : string := utc_day d.

(** The accumulators of the [for e in entries] loop. *)
Record acc : Type := mkacc {
  spent : Q;
  totals_by_cat : list (string * Q);
  daily_totals : list (string * Q);
  discretionary : Q;
  restaurant_food : Q
}.

Definition acc0 : acc := mkacc 0 [] [] 0 0.

(** One iteration of the loop over the entries. *)
Definition step (st : acc) (e : entry T) : acc :=
  let amt := _to_float (e_amount e) in
  if Qle_bool amt 0 then st
  else
    let catn := normalize_category e in
    if str_mem catn EXCLUDE_CATS then st
    else
      let spent' := (spent st + amt)%Q in
      let totals' := dict_add catn amt (totals_by_cat st) in
      let daily' :=
        match _parse_ts (e_created_at e) with
        | Some d => dict_add (_day_key d) amt (daily_totals st)
        | None => daily_totals st
        end in
      let disc' :=
        if str_mem catn DISCRETIONARY_BASE then (discretionary st + amt)%Q
        else discretionary st in
      if String.eqb catn "food" then
        if fst (classify_food_unnecessary e)
        then mkacc spent' totals' daily' (disc' + amt)%Q (restaurant_food st + amt)%Q
        else mkacc spent' totals' daily' disc' (restaurant_food st)
      else mkacc spent' totals' daily' disc' (restaurant_food st).

Definition run (entries : list (entry T)) : acc := fold_left step entries acc0.

(** [sorted(items, key=lambda kv: kv[1], reverse=True)]: a stable sort,
    largest amount first. *)
Fixpoint insert_desc (x : string * Q) (l : list (string * Q)) : list (string * Q) :=
  match l with
  | [] => [x]
  | y :: r => if Qle_bool (snd y) (snd x) then x :: l else y :: insert_desc x r
  end.

Definition sorted_desc (l : list (string * Q)) : list (string * Q) :=
  fold_right insert_desc [] l.

Definition OVER_BUDGET : string := "OVER_BUDGET".
Definition RENT_HIGH : string := "RENT_HIGH".
Definition DISCRETIONARY_HIGH : string := "DISCRETIONARY_HIGH".
Definition RESTAURANT_FOOD_HIGH : string := "RESTAURANT_FOOD_HIGH".
Definition SPIKE_DETECTED : string := "SPIKE_DETECTED".

(** [w.append(code)] when [cond] holds. *)
Definition append_if (cond : bool) (code : string) (w : list string) : list string :=
  if cond then w ++ [code] else w.

Definition spike_cond (daily : list (string * Q)) : bool :=
  match dict_values daily with
  | [] => false
  | v :: vs =>
      let vals := v :: vs in
      let avg_day := (sum vals / inject_Z (Z.max 1 (Z.of_nat (List.length vals))))%Q in
      let max_day := max_list v vs in
      Qlt_bool 0 avg_day && Qle_bool (avg_day * (5 # 2)) max_day
      && Qle_bool 5000 max_day
  end.

Definition warnings_of (budget_amount : Q) (st : acc) : list string :=
  let w := [] in
  let w := append_if (Qlt_bool 0 budget_amount && Qlt_bool budget_amount (spent st))
             OVER_BUDGET w in
  let rent := dict_get "rent" 0 (totals_by_cat st) in
  let w := append_if (Qlt_bool 0 budget_amount
                      && Qle_bool (45 # 100) (rent / budget_amount))
             RENT_HIGH w in
  let w := append_if (Qlt_bool 0 (spent st)
                      && Qle_bool (35 # 100) (discretionary st / spent st)
                      && Qle_bool 10000 (discretionary st))
             DISCRETIONARY_HIGH w in
  let w := append_if (Qlt_bool 0 (spent st)
                      && Qle_bool (15 # 100) (restaurant_food st / spent st)
                      && Qle_bool 8000 (restaurant_food st))
             RESTAURANT_FOOD_HIGH w in
  append_if (spike_cond (daily_totals st)) SPIKE_DETECTED w.

Definition actions_of (budget_amount : Q) (st : acc) (warnings : list string)
  : list string :=
  let a := [] in
  let a := append_if (str_mem OVER_BUDGET warnings && Qlt_bool 0 budget_amount)
             ("You are over budget by Rs. "
              ++ fmt_comma_0f (spent st - budget_amount)
              ++ ". Cut discretionary categories first.")%string a in
  let a := append_if (str_mem RENT_HIGH warnings && Qlt_bool 0 budget_amount)
             "Rent is taking a very large share of your budget. Consider negotiating rent, sharing accommodation, or relocating." a in
  let a := append_if (str_mem DISCRETIONARY_HIGH warnings)
             "Discretionary spending is high. Set a weekly cap and review non-essential transactions." a in
  let a := append_if (str_mem RESTAURANT_FOOD_HIGH warnings)
             "Restaurant/delivery food is high. Reduce dine-out frequency or switch to home meals for savings." a in
  append_if (str_mem SPIKE_DETECTED warnings)
    "A spending spike was detected on one day. Review that day's transactions and tag the cause (shopping, dining, bills, etc.)." a.

Record insights : Type := mkinsights {
  period : string;
  period_key : option string;
  home_city : option string;
  budget_amount : Q;
  spent_total : Q;
  remaining : Q;
  totals_by_category : list (string * Q);
  top_categories : list (string * Q);
  discretionary_total : Q;
  restaurant_food_total : Q;
  warnings : list string;
  actions : list string
}.

Definition resolve_budget (b : budget_row) : Q :=
  _to_float (por (b_budget_amount b) (b_amount b)).

Definition resolve_home_city (b : budget_row) : option string :=
  let s := PyStr.strip (PyStr.or_empty (b_home_city b)) in
  if PyStr.truthy s then Some s else None.

Definition compute_insights (entries : list (entry T)) (b : budget_row)
  (period : string) (period_key : option string) : insights :=
  let budget_amount := resolve_budget b in
  let home_city := resolve_home_city b in
  let st := run entries in
  let top := sorted_desc (totals_by_cat st) in
  let top5 := map (fun kv => (fst kv, round2 (snd kv))) (firstn 5 top) in
  let warnings := warnings_of budget_amount st in
  let actions := actions_of budget_amount st warnings in
  mkinsights period period_key home_city
    (round2 budget_amount)
    (round2 (spent st))
    (round2 (if Qlt_bool 0 budget_amount then budget_amount - spent st else 0)%Q)
    (map (fun kv => (fst kv, round2 (snd kv))) (totals_by_cat st))
    top5
    (round2 (discretionary st))
    (round2 (restaurant_food st))
    warnings
    actions.

End Analytics.

(* ================================================================== *)
(** * Concrete collaborators used in the examples *)
(* ================================================================== *)

Module Sample.

(** A [float] parser for integer literals only. *)
Definition float_of_str (s : string) : option Q :=
  match PyStr.int s with
  | Ok n => Some (inject_Z n)
  | _ => None
  end.

(** Timestamps that are plain calendar days, written [Y-M-D]. *)
Definition fromisoformat (s : string) : option date :=
  match PyStr.split "-" s with
  | [y; m; d] =>
      match PyStr.int y, PyStr.int m, PyStr.int d with
      | Ok y, Ok m, Ok d =>
          match date_new y m d with
          | Ok dd => Some dd
          | _ => None
          end
      | _, _, _ => None
      end
  | _ => None
  end.

Definition utc_day (d : date) : string :=
  PyStr.str_of_int (year d) ++ "-" ++ PyStr.fmt_02d (Calendar.month d)
  ++ "-" ++ PyStr.fmt_02d (day d).

(** Budgets of 3100 for January 2024 and 2900 for February 2024. *)
Definition fetch_month_budget (user_id month : string) : option budget_row :=
  if String.eqb month "2024-01" then Some (mkbudget (PFloat 3100) PNone None)
  else if String.eqb month "2024-02" then Some (mkbudget (PFloat 2900) PNone None)
  else None.

Definition entry_of (amt : pyval) (ts : pyts date) (cat : string) : entry date :=
  mkentry amt ts (Some cat) None None None None.

Definition no_budget : budget_row := mkbudget PNone PNone None.

Definition insights_of (entries : list (entry date)) (b : budget_row) : insights :=
  compute_insights float_of_str date fromisoformat utc_day entries b "month" None.

End Sample.

(* ================================================================== *)
(** * Reference definitions, written after the specification *)
(* ================================================================== *)

Module Spec.

(** [k] occurs in [s] as a contiguous substring. *)
Definition occurs (k s : string) : Prop :=
  exists a b : string, s = (a ++ k ++ b)%string.

(** An ordered rule table: the first rule one of whose keywords occurs
    in the text gives the outcome. *)
Definition first_match {A : Type} (rules : list (list string * A)) (c : string)
  : option A :=
  option_map snd (find (fun r => any_in (fst r) c) rules).

Definition category_rules : list (list string * string) :=
  [ (["utility"], "utility");
    (["fund"; "transfer"], "funds_transfer");
    (["groc"], "grocery");
    (["shop"], "shopping");
    (["fuel"; "petrol"], "fuel");
    (["food"], "food");
    (["rent"], "rent") ].

(** normalizeCategory, section 4.3 of the specification. *)
Definition normalize_category_spec {T : Type} (e : entry T) : string :=
  match PyStr.strip (PyStr.or_empty (e_category_normalized e)) with
  | String a r => PyStr.lower (String a r)
  | EmptyString =>
      let c := PyStr.lower (PyStr.strip (PyStr.or_empty (e_category e))) in
      match first_match category_rules c with
      | Some bucket => bucket
      | None => match c with EmptyString => "other" | _ => c end
      end
  end.

(** The fields of the blob that are present, in the order of section 4.4. *)
Definition present_fields {T : Type} (e : entry T) : list string :=
  flat_map (fun f => match f with
                     | Some (String a r) => [String a r]
                     | _ => []
                     end)
    [e_title e; e_beneficiary_name e; e_raw_text e; e_category e;
     e_category_normalized e].

Definition food_rules : list (list string * (bool * string)) :=
  [ (HOME_FOOD_KEYWORDS, (false, "home_food_keyword"));
    (RESTAURANT_KEYWORDS, (true, "restaurant_keyword")) ].

(** A keyword of the list occurs in the text. *)
Definition keyword_hit (keywords : list string) (text : string) : Prop :=
  exists k, In k keywords /\ occurs k text.

End Spec.

(** Reference definitions for the date helpers. *)
Module DateSpec.

Local Open Scope Z_scope.

(** Every character of the string satisfies [P]. *)
Fixpoint str_forall (P : ascii -> bool) (s : string) : bool :=
  match s with
  | EmptyString => true
  | String c r => P c && str_forall P r
  end.

Definition is_digit (c : ascii) : bool :=
  match PyStr.digit_of c with Some _ => true | None => false end.

(** Months are counted from year 0: month [m] of year [y] has index
    [12 * y + (m - 1)]. *)
Definition month_index (y m : Z) : Z := 12 * y + (m - 1).

Definition index_year (i : Z) : Z := i / 12.
Definition index_month (i : Z) : Z := i mod 12 + 1.

(** The first day of the month of index [i]. *)
Definition first_of_index (i : Z) : date :=
  mkdate (index_year i) (index_month i) 1.

(** The key ["YYYY-MM"] of the month of index [i]. *)
Definition key_of_index (i : Z) : string := _month_str (first_of_index i).

(** [n] consecutive integers from [i]. *)
Fixpoint zrange (i : Z) (n : nat) : list Z :=
  match n with
  | O => []
  | S k => i :: zrange (i + 1) k
  end.

(** The date is one that Python can hold. *)
Definition valid_date (d : date) : Prop :=
  valid_dateb (year d) (Calendar.month d) (day d) = true.

(** Some day of month [m] of year [y] lies in [[start, end_)]. *)
Definition month_intersects (y m : Z) (start end_ : date) : Prop :=
  exists d : Z,
    1 <= d <= days_in_month y m
    /\ date_leb start (mkdate y m d) = true
    /\ date_ltb (mkdate y m d) end_ = true.

(** The index of the last month that has a day before [end_]. *)
Definition last_index (end_ : date) : Z :=
  if day end_ >? 1 then month_index (year end_) (Calendar.month end_)
  else month_index (year end_) (Calendar.month end_) - 1.

(** Midnight UTC of a date. *)
Definition midnight (d : date) : datetime := mkdatetime d 0 0 0.

(** The first day of the month after month [m] of year [y]. *)
Definition next_month_start (y m : Z) : date :=
  if m =? 12 then mkdate (y + 1) 1 1 else mkdate y (m + 1) 1.

(** The outcome is a value or a [ValueError]: no other exception, and
    the fuel was enough. *)
Definition benign {A : Type} (r : result A) : Prop :=
  match r with
  | Ok _ => True
  | Raise e => e = ValueError
  | OutOfFuel => False
  end.

(** Two outcomes agree: the same exception, or equal numbers. *)
Definition res_eq (a b : result Q) : Prop :=
  match a, b with
  | Ok x, Ok y => (x == y)%Q
  | Raise e, Raise e' => e = e'
  | OutOfFuel, OutOfFuel => True
  | _, _ => False
  end.

(** The outcome [r], with [t] added to its value. *)
Definition shift (t : Q) (r : result Q) : result Q :=
  match r with
  | Ok d => Ok (t + d)%Q
  | other => other
  end.

End DateSpec.

(** Reference definitions for the insight engine. *)
Module InsightSpec.

Section Defs.

Variable float_of_str : string -> option Q.
Variable T : Type.

Definition amount_of (e : entry T) : Q := _to_float float_of_str (e_amount e).

Definition positive (e : entry T) : bool := Qlt_bool 0 (amount_of e).

Definition excluded (e : entry T) : bool :=
  str_mem (normalize_category T e) EXCLUDE_CATS.

(** The summed amounts of all entries with a positive amount. *)
Definition positive_amounts (entries : list (entry T)) : Q :=
  sum (map amount_of (filter positive entries)).

(** The summed amounts of the positive-amount entries whose normalized
    category lies in the exclusion set. *)
Definition excluded_amounts (entries : list (entry T)) : Q :=
  sum (map amount_of (filter (fun e => positive e && excluded e) entries)).

(** The entry is counted: positive amount, category not excluded. *)
Definition counted (e : entry T) : bool := positive e && negb (excluded e).

(** The entry is food that the classifier marks as unnecessary. *)
Definition restaurant_entry (e : entry T) : bool :=
  String.eqb (normalize_category T e) "food"
  && fst (classify_food_unnecessary float_of_str T e).

(** The amount is a whole number of hundredths. *)
Definition hundredths (q : Q) : Prop := exists n : Z, (q == inject_Z n / 100)%Q.

(** The entry [e] with another [created_at] value. *)
Definition with_created_at (e : entry T) (ts : pyts T) : entry T :=
  mkentry (e_amount e) ts (e_category e) (e_category_normalized e)
    (e_title e) (e_beneficiary_name e) (e_raw_text e).

End Defs.

Definition sum_values (d : list (string * Q)) : Q := sum (dict_values d).

Definition warning_codes : list string :=
  [OVER_BUDGET; RENT_HIGH; DISCRETIONARY_HIGH; RESTAURANT_FOOD_HIGH; SPIKE_DETECTED].

(** The subsequence of [codes] at the positions whose flag is set. *)
Fixpoint select (flags : list bool) (codes : list string) : list string :=
  match flags, codes with
  | f :: fs, c :: cs => if f then c :: select fs cs else select fs cs
  | _, _ => []
  end.

Definition over_budget_cond (budget spent : Q) : Prop :=
  (0 < budget /\ budget < spent)%Q.

Definition rent_high_cond (budget rent : Q) : Prop :=
  (0 < budget /\ 45 # 100 <= rent / budget)%Q.

Definition discretionary_high_cond (spent disc : Q) : Prop :=
  (0 < spent /\ 35 # 100 <= disc / spent /\ 10000 <= disc)%Q.

Definition restaurant_food_high_cond (spent rf : Q) : Prop :=
  (0 < spent /\ 15 # 100 <= rf / spent /\ 8000 <= rf)%Q.

(** [m] is a largest element of [vals]. *)
Definition is_max (m : Q) (vals : list Q) : Prop :=
  In m vals /\ Forall (fun v => (v <= m)%Q) vals.

(** The average over the day buckets, i.e. over the days that have at
    least one counted transaction. *)
Definition avg_day (vals : list Q) : Q :=
  (sum vals / inject_Z (Z.of_nat (List.length vals)))%Q.

Definition spike_cond_spec (vals : list Q) : Prop :=
  vals <> [] /\
  exists m, is_max m vals /\ ((5 # 2) * avg_day vals <= m)%Q /\ (5000 <= m)%Q.

End InsightSpec.

(** Entries and budgets of the worked examples. *)
Module Examples.

Import Sample.

(** A transfer of 100 and a rent payment of 50. *)
Definition transfer_and_rent : list (entry date) :=
  [ entry_of (PFloat 100) TsNone "fund transfer";
    entry_of (PFloat 50) TsNone "rent" ].

(** Budget 50000, entries summing to 60000 of which 20000 are rent. *)
Definition over_budget_entries : list (entry date) :=
  [ entry_of (PFloat 20000) (TsOther "2024-01-01") "rent";
    entry_of (PFloat 15000) (TsOther "2024-01-02") "grocery";
    entry_of (PFloat 25000) (TsOther "2024-01-03") "utility" ].

(** Rent of 22500 on a budget of 50000: a ratio of exactly 0.45. *)
Definition rent_boundary_entries : list (entry date) :=
  [ entry_of (PFloat 22500) (TsOther "2024-01-01") "rent" ].

Definition budget_50000 : budget_row := mkbudget (PFloat 50000) PNone None.

(** A food entry whose amount is not a number, between two sound ones. *)
Definition bad_amount_entry : entry date :=
  entry_of (PStr "abc") (TsOther "2024-01-04") "Food".

(** A shopping entry whose timestamp does not parse. *)
Definition bad_ts_entry : entry date :=
  entry_of (PFloat 700) (TsOther "yesterday") "Shopping".

Definition before_entries : list (entry date) :=
  [ entry_of (PFloat 300) (TsOther "2024-01-03") "rent" ].

Definition after_entries : list (entry date) :=
  [ entry_of (PFloat 40) (TsOther "2024-01-05") "fuel" ].

End Examples.

From Stdlib Require Import Permutation Sorted.

(* ================================================================== *)
(** * Further reference definitions *)
(* ================================================================== *)

Module MoreSpec.

Local Open Scope Z_scope.

(** The number of occurrences of the character [c] in [s]. *)
Fixpoint count_char (c : ascii) (s : string) : nat :=
  match s with
  | EmptyString => O
  | String c' r => if Ascii.eqb c' c then S (count_char c r) else count_char c r
  end.

(** The action text that goes with a warning code; [over] is the amount
    by which the budget is exceeded. *)
Definition action_of (over : Q) (code : string) : string :=
  if String.eqb code OVER_BUDGET then
    ("You are over budget by Rs. " ++ fmt_comma_0f over
     ++ ". Cut discretionary categories first.")%string
  else if String.eqb code RENT_HIGH then
    "Rent is taking a very large share of your budget. Consider negotiating rent, sharing accommodation, or relocating."%string
  else if String.eqb code DISCRETIONARY_HIGH then
    "Discretionary spending is high. Set a weekly cap and review non-essential transactions."%string
  else if String.eqb code RESTAURANT_FOOD_HIGH then
    "Restaurant/delivery food is high. Reduce dine-out frequency or switch to home meals for savings."%string
  else if String.eqb code SPIKE_DETECTED then
    "A spending spike was detected on one day. Review that day's transactions and tag the cause (shopping, dining, bills, etc.)."%string
  else ""%string.

(** Descending order of the amounts of a list of category totals. *)
Definition amount_ge (a b : string * Q) : Prop := (snd b <= snd a)%Q.

End MoreSpec.

(* ================================================================== *)
(** * Month bounds of [db.py] *)
(* ================================================================== *)

Module Db.

Local Open Scope Z_scope.

(** [_month_bounds]: as [month_bounds_utc], without the strip of the
    whole string and without the test of the month range. *)
Definition _month_bounds (month : string) : result (datetime * datetime) :=
  match PyStr.split "-" month with
  | [y; m] =>
      year <- PyStr.int y ;;
      mon <- PyStr.int m ;;
      start <- datetime_new year mon 1 0 0 0 ;;
      end_ <- (if mon =? 12 then datetime_new (year + 1) 1 1 0 0 0
               else datetime_new year (mon + 1) 1 0 0 0) ;;
      Ok (start, end_)
  | _ => Raise ValueError
  end.

Section Fetch.

Variable T : Type.

(** The query of [fetch_entries_for_month]: the rows of a user whose
    [created_at] lies in [[start, end_)], in ascending order. *)
Variable query : string -> datetime -> datetime -> list (entry T).

Definition fetch_entries_for_month (user_id month : string)
  : result (list (entry T)) :=
  '(start, end_) <- _month_bounds month ;;
  Ok (query user_id start end_).

End Fetch.

End Db.

(* ================================================================== *)
(** * The compare section of [app.py] *)
(* ================================================================== *)

Module App.

Local Open Scope Q_scope.

(** The nested function [pct_change]; [None] is Python's [None]. *)
Definition pct_change (cur prev : Q) : option Q :=
  if Qle_bool prev 0 then None
  else Some (round2 (((cur - prev) / prev) * 100)).

(** The value stored under ["compare_prev"]. *)
Record compare : Type := mkcompare {
  prev_month : string;
  spent_prev : Q;
  spent_change_pct : option Q
}.

Section Compare.

Variable float_of_str : string -> option Q.
Variable T : Type.
Variable fromisoformat : string -> option T.
Variable utc_day : T -> string.
Variable fetch_month_budget : string -> string -> option budget_row.
Variable query : string -> datetime -> datetime -> list (entry T).

(** [_add_compare_section]: the insights, which are returned as they
    were passed, and the value set under ["compare_prev"]. *)
Definition _add_compare_section (user_id month : string) (ins : insights)
  : result (insights * option compare) :=
  pm <- prev_month_str month ;;
  match fetch_month_budget user_id pm with
  | None => Ok (ins, None)
  | Some prev_budget =>
      prev_entries <- Db.fetch_entries_for_month T query user_id pm ;;
      let prev_ins :=
        compute_insights float_of_str T fromisoformat utc_day
          prev_entries prev_budget "month" (Some pm) in
      let cur_spent := spent_total ins in
      let prev_spent := spent_total prev_ins in
      Ok (ins, Some (mkcompare pm (round2 prev_spent)
                       (pct_change cur_spent prev_spent)))
  end.

End Compare.

End App.

(** Further reference definitions on lists of strings. *)
Module ListSpec.

(** [f] applied to the first element. *)
Definition map_head (f : string -> string) (l : list string) : list string :=
  match l with
  | [] => []
  | x :: r => f x :: r
  end.

(** [f] applied to the last element. *)
Fixpoint map_last (f : string -> string) (l : list string) : list string :=
  match l with
  | [] => []
  | [x] => [f x]
  | x :: r => x :: map_last f r
  end.

End ListSpec.

Module Sample2.

(** A query that returns one rent payment of 1000 on the first day of
    the window. *)
Definition query (user_id : string) (start end_ : datetime) : list (entry date) :=
  [ Sample.entry_of (PFloat 1000) (TsDatetime (dt_date start)) "rent" ].

End Sample2.

(* ================================================================== *)
(** * Lemmas on the string primitives *)
(* ================================================================== *)

Lemma prefix_occurs (k s : string) :
  String.prefix k s = true <-> exists b, s = (k ++ b)%string.
Proof.
  revert s; induction k as [|c k IH]; intros s.
  - split; [intros _; exists s; reflexivity | destruct s; reflexivity].
  - destruct s as [|c' s]; simpl.
    + split; [discriminate | intros [b Hb]; discriminate].
    + destruct (ascii_dec c c') as [Heq|Hne].
      * subst c'. rewrite IH.
        split; intros [b Hb]; exists b; [now rewrite Hb | now inversion Hb].
      * split; [discriminate | intros [b Hb]; inversion Hb; congruence].
Qed.

Lemma contains_unfold (k s : string) :
  PyStr.contains k s =
  if String.prefix k s then true
  else match s with
       | EmptyString => false
       | String _ r => PyStr.contains k r
       end.
Proof. destruct s; reflexivity. Qed.

Lemma contains_occurs (k s : string) :
  PyStr.contains k s = true <-> Spec.occurs k s.
Proof.
  unfold Spec.occurs.
  induction s as [|c s IH]; rewrite contains_unfold.
  - destruct (String.prefix k "") eqn:Hp.
    + split; [intros _ | reflexivity].
      apply prefix_occurs in Hp as [b Hb]. exists "", b. exact Hb.
    + split; [discriminate | intros (a & b & Hab)].
      destruct a; simpl in Hab.
      * assert (String.prefix k "" = true) by (apply prefix_occurs; eauto).
        congruence.
      * discriminate.
  - destruct (String.prefix k (String c s)) eqn:Hp.
    + split; [intros _ | reflexivity].
      apply prefix_occurs in Hp as [b Hb]. exists "", b. exact Hb.
    + rewrite IH. split.
      * intros (a & b & Hab). exists (String c a), b. simpl. now rewrite Hab.
      * intros (a & b & Hab). destruct a as [|c' a]; simpl in Hab.
        -- assert (String.prefix k (String c s) = true)
             by (apply prefix_occurs; eauto).
           congruence.
        -- inversion Hab; subst. eauto.
Qed.

Lemma any_in_hit (ks : list string) (text : string) :
  any_in ks text = true <-> Spec.keyword_hit ks text.
Proof.
  unfold any_in, Spec.keyword_hit. rewrite existsb_exists.
  split; intros (k & Hin & Hk); exists k; split; auto; now apply contains_occurs.
Qed.

Lemma any_in_miss (ks : list string) (text : string) :
  any_in ks text = false <-> ~ Spec.keyword_hit ks text.
Proof.
  rewrite <- any_in_hit. destruct (any_in ks text); split; congruence.
Qed.

Lemma lower_truthy (s : string) : PyStr.truthy (PyStr.lower s) = PyStr.truthy s.
Proof. destruct s; reflexivity. Qed.

Lemma truthy_false (s : string) : PyStr.truthy s = false <-> s = "".
Proof. destruct s; simpl; split; congruence. Qed.

(* ================================================================== *)
(** * Category normalizer *)
(* ================================================================== *)

Section CategoryNormalizer.

Variable T : Type.

Lemma normalize_category_table (e : entry T) :
  normalize_category T e = Spec.normalize_category_spec e.
Proof.
  unfold normalize_category, Spec.normalize_category_spec.
  destruct (PyStr.strip (PyStr.or_empty (e_category_normalized e))) as [|a r];
    [|reflexivity].
  cbn [PyStr.lower PyStr.truthy].
  set (c := PyStr.lower (PyStr.strip (PyStr.or_empty (e_category e)))).
  unfold Spec.first_match, Spec.category_rules, any_in.
  cbn [find existsb fst snd option_map].
  repeat rewrite orb_false_r.
  destruct (PyStr.contains "utility" c); [reflexivity|].
  destruct (PyStr.contains "fund" c); [reflexivity|].
  destruct (PyStr.contains "transfer" c); [reflexivity|].
  destruct (PyStr.contains "groc" c); [reflexivity|].
  destruct (PyStr.contains "shop" c); [reflexivity|].
  destruct (PyStr.contains "fuel" c); [reflexivity|].
  destruct (PyStr.contains "petrol" c); [reflexivity|].
  destruct (PyStr.contains "food" c); [reflexivity|].
  destruct (PyStr.contains "rent" c); [reflexivity|].
  destruct c; reflexivity.
Qed.

(** C6. [normalize_category] is the ordered rule table of the
    specification: a non-blank [category_normalized] is returned trimmed
    and lower-cased; otherwise the first rule of [category_rules] with a
    keyword in the trimmed, lower-cased raw category gives the bucket,
    and when no rule matches the result is that raw category, or
    ["other"] when it is empty.  The "fund" rule precedes the "food"
    rule: a raw category with both substrings (and without "utility",
    the only rule before it) resolves to ["funds_transfer"]. *)
Theorem normalize_category_rule_table (e : entry T) :
  normalize_category T e = Spec.normalize_category_spec e
  /\ (PyStr.strip (PyStr.or_empty (e_category_normalized e)) = "" ->
      let c := PyStr.lower (PyStr.strip (PyStr.or_empty (e_category e))) in
      Spec.occurs "fund" c -> Spec.occurs "food" c ->
      ~ Spec.occurs "utility" c ->
      normalize_category T e = "funds_transfer").
Proof.
  split; [apply normalize_category_table|].
  intros Hcn c Hfund Hfood Hutil.
  unfold normalize_category. rewrite Hcn. cbn [PyStr.lower PyStr.truthy].
  fold c.
  apply contains_occurs in Hfund.
  assert (Hu : PyStr.contains "utility" c = false).
  { destruct (PyStr.contains "utility" c) eqn:E; [|reflexivity].
    apply contains_occurs in E. contradiction. }
  rewrite Hu, Hfund. reflexivity.
Qed.

End CategoryNormalizer.

Example normalize_grocery_store :
  normalize_category unit (mkentry PNone TsNone (Some "Grocery Store") None None None None)
  = "grocery".
Proof. reflexivity. Qed.

Example normalize_fund_transfer :
  normalize_category unit (mkentry PNone TsNone (Some "fund transfer") None None None None)
  = "funds_transfer".
Proof. reflexivity. Qed.

Example normalize_empty_category :
  normalize_category unit (mkentry PNone TsNone (Some "  ") (Some " ") None None None)
  = "other"
  /\ normalize_category unit (mkentry PNone TsNone None None None None None) = "other".
Proof. split; reflexivity. Qed.

Example normalize_unrecognized_category :
  normalize_category unit (mkentry PNone TsNone (Some " Gym ") None None None None)
  = "gym".
Proof. reflexivity. Qed.

(** A witness of the priority of "fund" over "food". *)
Lemma normalize_category_rule_table_witness :
  normalize_category unit
    (mkentry PNone TsNone (Some "Food Fund") None None None None)
  = "funds_transfer".
Proof.
  apply (proj2 (normalize_category_rule_table unit
                  (mkentry PNone TsNone (Some "Food Fund") None None None None))).
  - reflexivity.
  - apply contains_occurs. reflexivity.
  - apply contains_occurs. reflexivity.
  - intros H. apply contains_occurs in H. discriminate H.
Defined.

(* ================================================================== *)
(** * Food classifier *)
(* ================================================================== *)

Section FoodClassifier.

Variable float_of_str : string -> option Q.
Variable T : Type.

Lemma filter_truthy_present (fields : list (option string)) :
  filter PyStr.truthy (map PyStr.or_empty fields)
  = flat_map (fun f => match f with
                       | Some (String a r) => [String a r]
                       | _ => []
                       end) fields.
Proof.
  induction fields as [|[[|a r]|] fields IH]; simpl; rewrite ?IH; reflexivity.
Qed.

Lemma text_blob_present (e : entry T) :
  _text_blob T e = PyStr.lower (PyStr.join " " (Spec.present_fields e)).
Proof.
  unfold _text_blob, blob_parts, Spec.present_fields.
  now rewrite filter_truthy_present.
Qed.

(** C7. The blob is the lower-cased, space-joined sequence of the
    present fields title, beneficiary name, raw text, category and
    normalized category; a home/grocery keyword in it gives
    [(false, "home_food_keyword")] whatever else the blob holds;
    otherwise a restaurant/delivery keyword gives
    [(true, "restaurant_keyword")]; otherwise an amount of at least 1800
    gives [(true, "expensive_food_amount")]; otherwise the result is
    [(false, "unknown_food_type")]. *)
Theorem classify_food_cases (e : entry T) :
  let blob := _text_blob T e in
  let amt := _to_float float_of_str (e_amount e) in
  let r := classify_food_unnecessary float_of_str T e in
  blob = PyStr.lower (PyStr.join " " (Spec.present_fields e))
  /\ (Spec.keyword_hit HOME_FOOD_KEYWORDS blob -> r = (false, "home_food_keyword"))
  /\ (~ Spec.keyword_hit HOME_FOOD_KEYWORDS blob ->
      Spec.keyword_hit RESTAURANT_KEYWORDS blob ->
      r = (true, "restaurant_keyword"))
  /\ (~ Spec.keyword_hit HOME_FOOD_KEYWORDS blob ->
      ~ Spec.keyword_hit RESTAURANT_KEYWORDS blob ->
      (1800 <= amt)%Q -> r = (true, "expensive_food_amount"))
  /\ (~ Spec.keyword_hit HOME_FOOD_KEYWORDS blob ->
      ~ Spec.keyword_hit RESTAURANT_KEYWORDS blob ->
      (amt < 1800)%Q -> r = (false, "unknown_food_type")).
Proof.
  intros blob amt r.
  split; [apply text_blob_present|].
  unfold r, classify_food_unnecessary. fold blob. fold amt.
  repeat split.
  - intros Hh. apply any_in_hit in Hh. now rewrite Hh.
  - intros Hh Hr. apply any_in_miss in Hh. apply any_in_hit in Hr.
    now rewrite Hh, Hr.
  - intros Hh Hr Ha. apply any_in_miss in Hh. apply any_in_miss in Hr.
    rewrite Hh, Hr.
    assert (E : Qle_bool FOOD_EXPENSIVE_RS amt = true)
      by (apply Qle_bool_iff; exact Ha).
    now rewrite E.
  - intros Hh Hr Ha. apply any_in_miss in Hh. apply any_in_miss in Hr.
    rewrite Hh, Hr.
    destruct (Qle_bool FOOD_EXPENSIVE_RS amt) eqn:E; [|reflexivity].
    apply Qle_bool_iff in E. unfold FOOD_EXPENSIVE_RS in E.
    exfalso. apply (Qlt_not_le _ _ Ha). exact E.
Qed.

End FoodClassifier.

(** The four cases on the entries of section 8 of the specification. *)
Example classify_mcdonalds :
  classify_food_unnecessary Sample.float_of_str date
    (mkentry (PFloat 500) TsNone (Some "food") None (Some "McDonald's") None None)
  = (true, "restaurant_keyword").
Proof. reflexivity. Qed.

Example classify_metro_grocery :
  classify_food_unnecessary Sample.float_of_str date
    (mkentry (PFloat 5000) TsNone (Some "food") None (Some "Metro grocery") None None)
  = (false, "home_food_keyword").
Proof. reflexivity. Qed.

Example classify_expensive :
  classify_food_unnecessary Sample.float_of_str date
    (mkentry (PFloat 2000) TsNone (Some "food") None (Some "lunch") None None)
  = (true, "expensive_food_amount")
  /\ classify_food_unnecessary Sample.float_of_str date
       (mkentry (PFloat 1800) TsNone (Some "food") None None None None)
     = (true, "expensive_food_amount").
Proof. split; reflexivity. Qed.

Example classify_unknown :
  classify_food_unnecessary Sample.float_of_str date
    (mkentry (PFloat 500) TsNone (Some "food") None (Some "lunch") None None)
  = (false, "unknown_food_type").
Proof. reflexivity. Qed.

(** Home keywords win over restaurant keywords. *)
Lemma classify_food_cases_witness :
  classify_food_unnecessary Sample.float_of_str date
    (mkentry (PFloat 900) TsNone (Some "food") None (Some "Pizza Mart") None None)
  = (false, "home_food_keyword").
Proof.
  apply (proj1 (proj2 (classify_food_cases Sample.float_of_str date
     (mkentry (PFloat 900) TsNone (Some "food") None (Some "Pizza Mart") None None)))).
  exists "mart". split; [simpl; tauto|].
  apply contains_occurs. reflexivity.
Defined.

(* ================================================================== *)
(** * Rounding to two decimals *)
(* ================================================================== *)

Section Rounding.

Open Scope Q_scope.

Lemma Qlt_bool_iff (a b : Q) : Qlt_bool a b = true <-> a < b.
Proof.
  unfold Qlt_bool. rewrite negb_true_iff.
  destruct (Qle_bool b a) eqn:E.
  - apply Qle_bool_iff in E. split; [discriminate|]. intros H.
    exfalso. apply (Qlt_not_le _ _ H E).
  - split; [intros _|reflexivity].
    apply Qnot_le_lt. intros H. apply Qle_bool_iff in H. congruence.
Qed.

Lemma Qle_bool_false (a b : Q) : Qle_bool a b = false <-> b < a.
Proof.
  rewrite <- Qlt_bool_iff. unfold Qlt_bool. now rewrite negb_true_iff.
Qed.

Lemma floor_bounds (q : Q) : inject_Z (Qfloor q) <= q < inject_Z (Qfloor q) + 1.
Proof.
  split; [apply Qfloor_le|].
  pose proof (Qlt_floor q) as H. rewrite inject_Z_plus in H. exact H.
Qed.

Lemma round_half_even_bounds (q : Q) :
  (Qfloor q <= round_half_even q <= Qfloor q + 1)%Z.
Proof.
  unfold round_half_even.
  destruct (Qcompare (q - inject_Z (Qfloor q)) (1 # 2)); [destruct (Z.even _)| |]; lia.
Qed.

Lemma round_half_even_mono (x y : Q) :
  x <= y -> (round_half_even x <= round_half_even y)%Z.
Proof.
  intros Hxy.
  pose proof (Qfloor_resp_le _ _ Hxy) as Hf.
  destruct (Z.eq_dec (Qfloor x) (Qfloor y)) as [E|NE].
  - unfold round_half_even. cbv zeta. rewrite <- E.
    destruct (Qcompare_spec (x - inject_Z (Qfloor x)) (1 # 2)) as [Hx|Hx|Hx];
      destruct (Qcompare_spec (y - inject_Z (Qfloor x)) (1 # 2)) as [Hy|Hy|Hy];
      try destruct (Z.even (Qfloor x)); try lia; exfalso; lra.
  - pose proof (round_half_even_bounds x). pose proof (round_half_even_bounds y).
    lia.
Qed.

Lemma round_half_even_error (q : Q) :
  Qabs (inject_Z (round_half_even q) - q) <= 1 # 2.
Proof.
  pose proof (floor_bounds q) as [H1 H2].
  apply Qabs_Qle_condition.
  unfold round_half_even. cbv zeta.
  destruct (Qcompare_spec (q - inject_Z (Qfloor q)) (1 # 2)) as [H|H|H];
    [destruct (Z.even (Qfloor q))| |];
    rewrite ?inject_Z_plus; change (inject_Z 1) with 1; split; lra.
Qed.

Lemma round_half_even_int (n : Z) : round_half_even (inject_Z n) = n.
Proof.
  unfold round_half_even. cbv zeta. rewrite Qfloor_Z.
  destruct (Qcompare_spec (inject_Z n - inject_Z n) (1 # 2)) as [H|H|H];
    [exfalso; lra | reflexivity | exfalso; lra].
Qed.

Lemma round_half_even_compat (x y : Q) :
  x == y -> round_half_even x = round_half_even y.
Proof.
  intros E. unfold round_half_even. cbv zeta.
  assert (Hf : Qfloor x = Qfloor y) by (now rewrite E).
  rewrite Hf.
  assert (Hc : Qcompare (x - inject_Z (Qfloor y)) (1 # 2)
               = Qcompare (y - inject_Z (Qfloor y)) (1 # 2)) by (now rewrite E).
  now rewrite Hc.
Qed.

Lemma round2_value (q : Q) :
  round2 q == inject_Z (round_half_even (q * 100)) * (1 # 100).
Proof.
  unfold round2, Qeq. simpl. ring.
Qed.

Lemma round2_mono (x y : Q) : x <= y -> round2 x <= round2 y.
Proof.
  intros H. unfold round2, Qle. simpl.
  apply Z.mul_le_mono_nonneg_r; [lia|].
  apply round_half_even_mono. lra.
Qed.

Lemma round2_compat (x y : Q) : x == y -> round2 x = round2 y.
Proof.
  intros E. unfold round2. f_equal. apply round_half_even_compat. now rewrite E.
Qed.

Lemma round2_error (q : Q) : Qabs (round2 q - q) <= 1 # 200.
Proof.
  pose proof (round_half_even_error (q * 100)) as H.
  apply Qabs_Qle_condition in H. destruct H as [H1 H2].
  apply Qabs_Qle_condition. rewrite round2_value.
  set (r := inject_Z (round_half_even (q * 100))) in *. clearbody r.
  split; lra.
Qed.

(** A whole number of hundredths is left unchanged. *)
Lemma round2_hundredths (n : Z) : round2 (inject_Z n / 100) = Qmake n 100.
Proof.
  unfold round2. f_equal.
  rewrite <- (round_half_even_int n) at 2.
  apply round_half_even_compat. field.
Qed.

End Rounding.

(* ================================================================== *)
(** * Sums and dictionaries *)
(* ================================================================== *)

Section Sums.

Open Scope Q_scope.

Lemma fold_plus_shift (l : list Q) (a x : Q) :
  fold_left Qplus l (a + x) == fold_left Qplus l a + x.
Proof.
  revert a; induction l as [|y l IH]; intros a; simpl; [reflexivity|].
  rewrite <- IH.
  assert (E : a + x + y == a + y + x) by ring.
  clear IH. revert E. generalize (a + x + y) (a + y + x).
  induction l as [|z l IH]; intros u v E; simpl; [exact E|].
  apply IH. now rewrite E.
Qed.

Lemma fold_plus_compat (l : list Q) (a b : Q) :
  a == b -> fold_left Qplus l a == fold_left Qplus l b.
Proof.
  revert a b; induction l as [|z l IH]; intros a b E; simpl; [exact E|].
  apply IH. now rewrite E.
Qed.

Lemma sum_nil : sum [] == 0.
Proof. reflexivity. Qed.

Lemma sum_cons (x : Q) (l : list Q) : sum (x :: l) == x + sum l.
Proof.
  unfold sum. cbn [fold_left].
  rewrite fold_plus_shift. ring.
Qed.

Lemma sum_app (l1 l2 : list Q) : sum (l1 ++ l2) == sum l1 + sum l2.
Proof.
  induction l1 as [|x l1 IH]; simpl.
  - rewrite sum_nil. ring.
  - rewrite !sum_cons, IH. ring.
Qed.

Lemma sum_pointwise (f g : string * Q -> Q) (d : list (string * Q)) :
  Forall (fun kv => f kv == g kv) d -> sum (map f d) == sum (map g d).
Proof.
  induction 1 as [|kv d H _ IH]; simpl; [reflexivity|].
  now rewrite !sum_cons, H, IH.
Qed.

Lemma sum_pos (l : list Q) :
  l <> [] -> Forall (fun v => 0 < v) l -> 0 < sum l.
Proof.
  intros Hne Hall. destruct l as [|x l]; [congruence|].
  inversion Hall as [|? ? Hx Hl]; subst. rewrite sum_cons.
  assert (0 <= sum l); [|lra].
  clear -Hl. induction Hl as [|y l Hy _ IH]; [rewrite sum_nil; lra|].
  rewrite sum_cons. lra.
Qed.

Lemma sum_values_dict_add (k : string) (v : Q) (d : list (string * Q)) :
  InsightSpec.sum_values (dict_add k v d) == InsightSpec.sum_values d + v.
Proof.
  unfold InsightSpec.sum_values, dict_values.
  induction d as [|[k' x] d IH]; simpl.
  - rewrite sum_cons, sum_nil. ring.
  - destruct (String.eqb k' k); simpl; rewrite !sum_cons.
    + ring.
    + rewrite IH. ring.
Qed.

Lemma dict_add_forall (P : Q -> Prop) (k : string) (v : Q) (d : list (string * Q)) :
  (forall x y, x == y -> P x -> P y) ->
  P v -> (forall x, P x -> P (x + v)) ->
  Forall (fun kv => P (snd kv)) d ->
  Forall (fun kv => P (snd kv)) (dict_add k v d).
Proof.
  intros Hcompat Hv Hadd Hd.
  induction Hd as [|[k' x] d Hx Hd IH]; simpl.
  - constructor; [|constructor]. simpl. apply (Hcompat v); [ring|exact Hv].
  - destruct (String.eqb k' k); constructor; simpl; auto.
Qed.

End Sums.

(* ================================================================== *)
(** * Insight engine *)
(* ================================================================== *)

Section InsightEngine.

Variable float_of_str : string -> option Q.
Variable T : Type.
Variable fromisoformat : string -> option T.
Variable utc_day : T -> string.

Open Scope Q_scope.

Local Abbreviation step_ := (step float_of_str T fromisoformat utc_day).
Local Abbreviation run_ := (run float_of_str T fromisoformat utc_day).
Local Abbreviation amount_ := (InsightSpec.amount_of float_of_str T).
Local Abbreviation positive_ := (InsightSpec.positive float_of_str T).
Local Abbreviation excluded_ := (InsightSpec.excluded T).
Local Abbreviation compute_ := (compute_insights float_of_str T fromisoformat utc_day).
Local Abbreviation counted := (InsightSpec.counted float_of_str T).
Local Abbreviation restaurant_entry := (InsightSpec.restaurant_entry float_of_str T).

Lemma positive_spec (e : entry T) : positive_ e = true <-> 0 < amount_ e.
Proof. apply Qlt_bool_iff. Qed.

Lemma step_skip (st : acc) (e : entry T) :
  counted e = false -> step_ st e = st.
Proof.
  unfold InsightSpec.counted, InsightSpec.positive, InsightSpec.excluded,
    InsightSpec.amount_of, Qlt_bool, step.
  destruct (Qle_bool (_to_float float_of_str (e_amount e)) 0); [reflexivity|].
  destruct (str_mem (normalize_category T e) EXCLUDE_CATS); [reflexivity|].
  discriminate.
Qed.

Lemma step_count (st : acc) (e : entry T) :
  counted e = true ->
  spent (step_ st e) = spent st + amount_ e
  /\ totals_by_cat (step_ st e)
     = dict_add (normalize_category T e) (amount_ e) (totals_by_cat st)
  /\ daily_totals (step_ st e)
     = match _parse_ts T fromisoformat (e_created_at e) with
       | Some d => dict_add (_day_key T utc_day d) (amount_ e) (daily_totals st)
       | None => daily_totals st
       end
  /\ restaurant_food (step_ st e)
     = (if restaurant_entry e then restaurant_food st + amount_ e
        else restaurant_food st)
  /\ discretionary (step_ st e)
     = (let d := if str_mem (normalize_category T e) DISCRETIONARY_BASE
                 then discretionary st + amount_ e else discretionary st in
        if restaurant_entry e then d + amount_ e else d).
Proof.
  unfold InsightSpec.counted, InsightSpec.restaurant_entry, InsightSpec.positive, InsightSpec.excluded,
    InsightSpec.amount_of, Qlt_bool, step.
  destruct (Qle_bool (_to_float float_of_str (e_amount e)) 0); [discriminate|].
  destruct (str_mem (normalize_category T e) EXCLUDE_CATS); [discriminate|].
  intros _.
  destruct (String.eqb (normalize_category T e) "food");
    [destruct (fst (classify_food_unnecessary float_of_str T e))|];
    simpl; repeat split; reflexivity.
Qed.

Lemma run_app (l1 l2 : list (entry T)) :
  run_ (l1 ++ l2) = fold_left step_ l2 (run_ l1).
Proof. unfold run. apply fold_left_app. Qed.

(** Invariants of the loop are proved per step. *)
Lemma fold_invariant (P : acc -> Prop) :
  (forall st e, P st -> P (step_ st e)) ->
  forall entries st, P st -> P (fold_left step_ entries st).
Proof.
  intros Hstep entries; induction entries as [|e l IH]; intros st H; simpl; auto.
Qed.

Lemma run_invariant (P : acc -> Prop) :
  P (acc0) -> (forall st e, P st -> P (step_ st e)) ->
  forall entries, P (run_ entries).
Proof. intros H0 Hstep entries. unfold run. now apply fold_invariant. Qed.

Lemma counted_positive (e : entry T) : counted e = true -> 0 < amount_ e.
Proof.
  unfold InsightSpec.counted. intros H. apply andb_true_iff in H as [H _].
  now apply positive_spec.
Qed.

(** The restaurant-food accumulator never exceeds the discretionary one. *)
Lemma restaurant_le_discretionary (entries : list (entry T)) :
  restaurant_food (run_ entries) <= discretionary (run_ entries).
Proof.
  apply run_invariant; [simpl; lra|].
  intros st e IH. destruct (counted e) eqn:Hc.
  - pose proof (counted_positive e Hc) as Hpos.
    destruct (step_count st e Hc) as (_ & _ & _ & Hr & Hd).
    rewrite Hr, Hd. cbv zeta.
    destruct (restaurant_entry e);
      destruct (str_mem (normalize_category T e) DISCRETIONARY_BASE); lra.
  - now rewrite step_skip.
Qed.

(** C10. In the result of [compute_insights] the restaurant-food total is
    at most the discretionary total: each amount added to the
    restaurant-food accumulator is added to the discretionary one as
    well, and rounding to two decimals is monotone. *)
Theorem restaurant_food_total_le_discretionary_total
  (entries : list (entry T)) (b : budget_row) (p : string) (k : option string) :
  restaurant_food_total (compute_ entries b p k)
  <= discretionary_total (compute_ entries b p k)
  /\ (forall st e,
        restaurant_food (step_ st e) - restaurant_food st
        <= discretionary (step_ st e) - discretionary st).
Proof.
  split.
  - unfold compute_insights. simpl. apply round2_mono.
    apply restaurant_le_discretionary.
  - intros st e. destruct (counted e) eqn:Hc.
    + pose proof (counted_positive e Hc) as Hpos.
      destruct (step_count st e Hc) as (_ & _ & _ & Hr & Hd).
      rewrite Hr, Hd. cbv zeta.
      destruct (restaurant_entry e);
        destruct (str_mem (normalize_category T e) DISCRETIONARY_BASE); lra.
    + rewrite step_skip by exact Hc. lra.
Qed.

(** ** Per-category totals and the spent total *)

Lemma totals_sum_spent (entries : list (entry T)) :
  InsightSpec.sum_values (totals_by_cat (run_ entries)) == spent (run_ entries).
Proof.
  apply run_invariant; [reflexivity|].
  intros st e IH. destruct (counted e) eqn:Hc.
  - destruct (step_count st e Hc) as (Hs & Ht & _).
    rewrite Hs, Ht, sum_values_dict_add, IH. reflexivity.
  - now rewrite step_skip.
Qed.

Lemma spent_fold (entries : list (entry T)) (st : acc) :
  spent (fold_left step_ entries st)
  == spent st + InsightSpec.positive_amounts float_of_str T entries
     - InsightSpec.excluded_amounts float_of_str T entries.
Proof.
  unfold InsightSpec.positive_amounts, InsightSpec.excluded_amounts.
  revert st; induction entries as [|e l IH]; intros st; simpl.
  - rewrite sum_nil. ring.
  - rewrite IH. clear IH.
    destruct (counted e) eqn:Hc.
    + destruct (step_count st e Hc) as (Hs & _). rewrite Hs.
      unfold InsightSpec.counted in Hc. apply andb_true_iff in Hc as [Hp Hx].
      apply negb_true_iff in Hx. rewrite Hp, Hx. simpl.
      rewrite sum_cons. ring.
    + rewrite step_skip by exact Hc.
      unfold InsightSpec.counted in Hc.
      destruct (positive_ e) eqn:Hp; simpl in *.
      * apply negb_false_iff in Hc. rewrite Hc. simpl. rewrite !sum_cons. ring.
      * ring.
Qed.

Lemma hundredths_compat (x y : Q) :
  x == y -> InsightSpec.hundredths x -> InsightSpec.hundredths y.
Proof. intros E [n Hn]. exists n. now rewrite <- E. Qed.

Lemma hundredths_plus (x y : Q) :
  InsightSpec.hundredths x -> InsightSpec.hundredths y ->
  InsightSpec.hundredths (x + y).
Proof.
  intros [n Hn] [m Hm]. exists (n + m)%Z.
  rewrite Hn, Hm, inject_Z_plus. field.
Qed.

Lemma hundredths_zero : InsightSpec.hundredths 0.
Proof. exists 0%Z. reflexivity. Qed.

Lemma round2_of_hundredths (q : Q) : InsightSpec.hundredths q -> round2 q == q.
Proof.
  intros [n Hn]. rewrite (round2_compat _ _ Hn), round2_hundredths, Hn.
  rewrite (Qmake_Qdiv n 100). reflexivity.
Qed.

Lemma hundredths_invariant (entries : list (entry T)) :
  Forall (fun e => counted e = true -> InsightSpec.hundredths (amount_ e)) entries ->
  forall st,
    InsightSpec.hundredths (spent st) ->
    Forall (fun kv => InsightSpec.hundredths (snd kv)) (totals_by_cat st) ->
    InsightSpec.hundredths (spent (fold_left step_ entries st))
    /\ Forall (fun kv => InsightSpec.hundredths (snd kv))
         (totals_by_cat (fold_left step_ entries st)).
Proof.
  induction 1 as [|e l He _ IH]; intros st Hs Ht; simpl; [now split|].
  apply IH; destruct (counted e) eqn:Hc;
    try (rewrite step_skip by exact Hc; assumption).
  - destruct (step_count st e Hc) as (E & _). rewrite E.
    apply hundredths_plus; auto.
  - destruct (step_count st e Hc) as (_ & E & _). rewrite E.
    apply dict_add_forall; auto.
    + intros x y. apply hundredths_compat.
    + intros x Hx. apply hundredths_plus; auto.
Qed.


(** ** Warnings *)

Lemma max_fold (vs : list Q) (m : Q) :
  let r := fold_left (fun m x => if Qlt_bool m x then x else m) vs m in
  m <= r /\ Forall (fun v => v <= r) vs /\ (r = m \/ In r vs).
Proof.
  revert m; induction vs as [|x vs IH]; intros m; simpl.
  - repeat split; [apply Qle_refl | constructor | now left].
  - specialize (IH (if Qlt_bool m x then x else m)).
    cbv zeta in IH. destruct IH as (H1 & H2 & H3).
    destruct (Qlt_bool m x) eqn:E.
    + apply Qlt_bool_iff in E. repeat split.
      * apply Qle_trans with x; [now apply Qlt_le_weak | exact H1].
      * constructor; assumption.
      * right. destruct H3 as [->|H3]; [now left | now right].
    + assert (x <= m).
      { apply Qnot_lt_le. intros H. apply Qlt_bool_iff in H. congruence. }
      repeat split; auto.
      * constructor; [|exact H2]. now apply Qle_trans with m.
      * destruct H3 as [H3|H3]; [now left | right; now right].
Qed.

Lemma max_list_is_max (v : Q) (vs : list Q) :
  InsightSpec.is_max (max_list v vs) (v :: vs).
Proof.
  unfold InsightSpec.is_max, max_list.
  destruct (max_fold vs v) as (H1 & H2 & H3). cbv zeta in *. split.
  - destruct H3 as [H3|H3]; [left; now rewrite H3 | now right].
  - constructor; assumption.
Qed.

Lemma is_max_unique (m m' : Q) (vals : list Q) :
  InsightSpec.is_max m vals -> InsightSpec.is_max m' vals -> m == m'.
Proof.
  intros [Hin Hall] [Hin' Hall'].
  rewrite Forall_forall in Hall, Hall'.
  apply Qle_antisym; auto.
Qed.

Lemma avg_day_pos (vals : list Q) :
  vals <> [] -> Forall (fun v => 0 < v) vals -> 0 < InsightSpec.avg_day vals.
Proof.
  intros Hne Hall. unfold InsightSpec.avg_day, Qdiv.
  apply Qmult_lt_0_compat; [now apply sum_pos|].
  apply Qinv_lt_0_compat.
  change 0 with (inject_Z 0). rewrite <- Zlt_Qlt.
  destruct vals; [congruence | simpl; lia].
Qed.

Lemma spike_cond_iff (daily : list (string * Q)) :
  Forall (fun kv => 0 < snd kv) daily ->
  spike_cond daily = true <-> InsightSpec.spike_cond_spec (dict_values daily).
Proof.
  intros Hpos.
  assert (Hvals : Forall (fun v => 0 < v) (dict_values daily)).
  { unfold dict_values. apply Forall_map. exact Hpos. }
  unfold spike_cond, InsightSpec.spike_cond_spec.
  destruct (dict_values daily) as [|v vs] eqn:E.
  - split; [discriminate | intros [H _]; congruence].
  - assert (Hne : v :: vs <> []) by discriminate.
    pose proof (avg_day_pos _ Hne Hvals) as Havg.
    pose proof (max_list_is_max v vs) as Hmax.
    cbv zeta.
    replace (Z.max 1 (Z.of_nat (List.length (v :: vs))))
      with (Z.of_nat (List.length (v :: vs))) by (simpl; lia).
    fold (InsightSpec.avg_day (v :: vs)).
    set (avg := InsightSpec.avg_day (v :: vs)) in *.
    rewrite !andb_true_iff, Qlt_bool_iff, !Qle_bool_iff.
    split.
    + intros [[_ H1] H2]. split; [exact Hne|].
      exists (max_list v vs). repeat split; try apply Hmax; auto.
      now rewrite Qmult_comm.
    + intros [_ (m & Hm & H1 & H2)].
      pose proof (is_max_unique _ _ _ Hm Hmax) as Heq.
      repeat split; auto.
      * rewrite <- Heq, Qmult_comm. exact H1.
      * now rewrite <- Heq.
Qed.

Lemma daily_positive (entries : list (entry T)) :
  Forall (fun kv => 0 < snd kv) (daily_totals (run_ entries)).
Proof.
  apply run_invariant; [constructor|].
  intros st e IH. destruct (counted e) eqn:Hc.
  - pose proof (counted_positive e Hc) as Hpos.
    destruct (step_count st e Hc) as (_ & _ & Hd & _). rewrite Hd.
    destruct (_parse_ts T fromisoformat (e_created_at e)); [|exact IH].
    apply dict_add_forall with (P := fun x => 0 < x); auto.
    + intros x y E Hx. now rewrite <- E.
    + intros x Hx. lra.
  - now rewrite step_skip.
Qed.

Lemma warnings_of_select (budget : Q) (st : acc) :
  warnings_of budget st
  = InsightSpec.select
      [ Qlt_bool 0 budget && Qlt_bool budget (spent st);
        Qlt_bool 0 budget
        && Qle_bool (45 # 100) (dict_get "rent" 0 (totals_by_cat st) / budget);
        Qlt_bool 0 (spent st)
        && Qle_bool (35 # 100) (discretionary st / spent st)
        && Qle_bool 10000 (discretionary st);
        Qlt_bool 0 (spent st)
        && Qle_bool (15 # 100) (restaurant_food st / spent st)
        && Qle_bool 8000 (restaurant_food st);
        spike_cond (daily_totals st) ]%bool
      InsightSpec.warning_codes.
Proof.
  unfold warnings_of, append_if, InsightSpec.warning_codes, InsightSpec.select.
  destruct (Qlt_bool 0 budget && Qlt_bool budget (spent st))%bool;
  destruct (Qlt_bool 0 budget
            && Qle_bool (45 # 100) (dict_get "rent" 0 (totals_by_cat st) / budget))%bool;
  destruct (Qlt_bool 0 (spent st)
            && Qle_bool (35 # 100) (discretionary st / spent st)
            && Qle_bool 10000 (discretionary st))%bool;
  destruct (Qlt_bool 0 (spent st)
            && Qle_bool (15 # 100) (restaurant_food st / spent st)
            && Qle_bool 8000 (restaurant_food st))%bool;
  destruct (spike_cond (daily_totals st)); reflexivity.
Qed.


(** ** Malformed entries *)

Local Abbreviation with_ts := (InsightSpec.with_created_at T).

(** Agreement of two loop states on everything but the day buckets. *)
Local Abbreviation core_eq st st' :=
  (spent st = spent st' /\ totals_by_cat st = totals_by_cat st'
   /\ discretionary st = discretionary st'
   /\ restaurant_food st = restaurant_food st').

Lemma with_created_at_same (e : entry T) : with_ts e (e_created_at e) = e.
Proof. destruct e; reflexivity. Qed.

Lemma step_core_eq (st st' : acc) (e : entry T) (ts : pyts T) :
  core_eq st st' -> core_eq (step_ st e) (step_ st' (with_ts e ts)).
Proof.
  intros (Hs & Ht & Hd & Hr).
  assert (Hc' : counted (with_ts e ts) = counted e) by reflexivity.
  destruct (counted e) eqn:Hc.
  - destruct (step_count st e Hc) as (E1 & E2 & _ & E4 & E5).
    destruct (step_count st' (with_ts e ts) Hc') as (F1 & F2 & _ & F4 & F5).
    rewrite E1, E2, E4, E5, F1, F2, F4, F5, Hs, Ht, Hd, Hr.
    repeat split; reflexivity.
  - rewrite !step_skip by assumption. auto.
Qed.

Lemma fold_core_eq (l : list (entry T)) (st st' : acc) :
  core_eq st st' -> core_eq (fold_left step_ l st) (fold_left step_ l st').
Proof.
  revert st st'; induction l as [|e l IH]; intros st st' H; simpl; [exact H|].
  apply IH. rewrite <- (with_created_at_same e) at 2. now apply step_core_eq.
Qed.

Lemma step_daily_eq (st st' : acc) (e : entry T) :
  daily_totals st = daily_totals st' ->
  daily_totals (step_ st e) = daily_totals (step_ st' e).
Proof.
  intros H. destruct (counted e) eqn:Hc.
  - destruct (step_count st e Hc) as (_ & _ & E & _).
    destruct (step_count st' e Hc) as (_ & _ & F & _).
    now rewrite E, F, H.
  - now rewrite !step_skip by assumption.
Qed.

Lemma fold_daily_eq (l : list (entry T)) (st st' : acc) :
  daily_totals st = daily_totals st' ->
  daily_totals (fold_left step_ l st) = daily_totals (fold_left step_ l st').
Proof.
  revert st st'; induction l as [|e l IH]; intros st st' H; simpl; [exact H|].
  apply IH. now apply step_daily_eq.
Qed.

Lemma step_daily_unparsed (st : acc) (e : entry T) :
  _parse_ts T fromisoformat (e_created_at e) = None ->
  daily_totals (step_ st e) = daily_totals st.
Proof.
  intros Hp. destruct (counted e) eqn:Hc.
  - destruct (step_count st e Hc) as (_ & _ & E & _). now rewrite E, Hp.
  - now rewrite step_skip.
Qed.

Lemma spent_insert (l1 l2 : list (entry T)) (e : entry T) :
  counted e = true ->
  spent (run_ (l1 ++ e :: l2)) == spent (run_ (l1 ++ l2)) + amount_ e.
Proof.
  intros Hc. rewrite !run_app. simpl.
  rewrite !spent_fold.
  destruct (step_count (run_ l1) e Hc) as (E & _). rewrite E. ring.
Qed.

Lemma to_float_malformed (x : pyval) :
  x = PNone \/ (exists s, x = PStr s /\ float_of_str s = None) ->
  _to_float float_of_str x = 0.
Proof.
  intros [->|(s & -> & Hs)]; unfold _to_float; simpl; [|rewrite Hs]; reflexivity.
Qed.


End InsightEngine.



(** The end-to-end example of the specification: budget 50000, spending
    60000 with 20000 of rent (a ratio of 0.40). *)
Example warnings_over_budget_not_rent :
  warnings (Sample.insights_of Examples.over_budget_entries Examples.budget_50000)
  = [OVER_BUDGET].
Proof. vm_compute. reflexivity. Qed.

(** A rent ratio of exactly 0.45 triggers [RENT_HIGH]. *)
Example warnings_rent_boundary :
  warnings (Sample.insights_of Examples.rent_boundary_entries Examples.budget_50000)
  = [RENT_HIGH].
Proof. vm_compute. reflexivity. Qed.


(** The entry with the bad timestamp still counts towards the totals. *)
Example bad_timestamp_still_counted :
  let out := Sample.insights_of
               (Examples.before_entries ++ Examples.bad_ts_entry :: Examples.after_entries)
               Sample.no_budget in
  (spent_total out == 1040)%Q
  /\ (discretionary_total out == 700)%Q
  /\ map fst (totals_by_category out) = ["rent"; "shopping"; "fuel"]
  /\ map fst (daily_totals
                (run Sample.float_of_str date Sample.fromisoformat Sample.utc_day
                   (Examples.before_entries ++ Examples.bad_ts_entry
                    :: Examples.after_entries)))
     = ["2024-01-03"; "2024-01-05"].
Proof. cbv zeta. repeat split; vm_compute; reflexivity. Qed.

(* ================================================================== *)
(** * Decimal strings: [int] reads back what [str] writes *)
(* ================================================================== *)

Section DecimalStrings.

Local Open Scope Z_scope.

Import DateSpec.

Lemma digit_of_digit_char (d : Z) :
  0 <= d <= 9 -> PyStr.digit_of (PyStr.digit_char d) = Some d.
Proof.
  intros H.
  assert (d = 0 \/ d = 1 \/ d = 2 \/ d = 3 \/ d = 4 \/ d = 5 \/ d = 6 \/ d = 7
          \/ d = 8 \/ d = 9) as D by lia.
  repeat (destruct D as [->|D]; [reflexivity|]). subst; reflexivity.
Qed.

Lemma is_digit_digit_char (d : Z) :
  0 <= d <= 9 -> is_digit (PyStr.digit_char d) = true.
Proof. intros H. unfold is_digit. now rewrite digit_of_digit_char. Qed.

(** What a digit is not. *)
Lemma is_digit_plain (c : ascii) :
  is_digit c = true ->
  PyStr.is_space c = false /\ Ascii.eqb c "-" = false
  /\ c <> "+"%char /\ c <> "-"%char.
Proof.
  destruct c as [[] [] [] [] [] [] [] []]; vm_compute; intros H;
    try discriminate H; repeat split; discriminate.
Qed.

Lemma mod10_range (n : Z) : 0 <= n mod 10 <= 9.
Proof. pose proof (Z.mod_pos_bound n 10); lia. Qed.

Lemma digits_fuel_forall (f : nat) (n : Z) (acc : string) :
  str_forall is_digit acc = true ->
  str_forall is_digit (PyStr.digits_fuel f n acc) = true.
Proof.
  revert n acc; induction f as [|f IH]; intros n acc Hacc; simpl.
  - now rewrite is_digit_digit_char by apply mod10_range.
  - destruct (n <? 10).
    + simpl. now rewrite is_digit_digit_char by apply mod10_range.
    + apply IH. simpl. now rewrite is_digit_digit_char by apply mod10_range.
Qed.

Lemma digits_fuel_nonempty (f : nat) (n : Z) (acc : string) :
  exists c r, PyStr.digits_fuel f n acc = String c r.
Proof.
  revert n acc; induction f as [|f IH]; intros n acc; simpl; eauto.
  destruct (n <? 10); eauto.
Qed.

Lemma int_digits_digits_fuel (f : nat) (n : Z) (acc : string) (b : bool) :
  0 <= n < 2 ^ (Z.of_nat f + 1) ->
  PyStr.int_digits 0 b (PyStr.digits_fuel f n acc) = PyStr.int_digits n true acc.
Proof.
  revert n acc b; induction f as [|f IH]; intros n acc b Hn.
  - change (2 ^ (Z.of_nat 0 + 1)) with 2 in Hn.
    cbn [PyStr.digits_fuel PyStr.int_digits].
    rewrite digit_of_digit_char by apply mod10_range.
    rewrite Z.mod_small by lia. f_equal.
  - cbn [PyStr.digits_fuel].
    destruct (n <? 10) eqn:E.
    + apply Z.ltb_lt in E. cbn [PyStr.int_digits].
      rewrite digit_of_digit_char by apply mod10_range.
      rewrite Z.mod_small by lia. f_equal.
    + apply Z.ltb_ge in E. rewrite IH.
      * cbn [PyStr.int_digits].
        rewrite digit_of_digit_char by apply mod10_range.
        f_equal. pose proof (Z.div_mod n 10). lia.
      * replace (Z.of_nat (S f) + 1) with (Z.succ (Z.of_nat f + 1)) in Hn by lia.
        rewrite Z.pow_succ_r in Hn by lia.
        split; [apply Z.div_pos; lia|].
        apply Z.div_lt_upper_bound; lia.
Qed.

Lemma log2_fuel (n : Z) : 0 <= n -> 0 <= n < 2 ^ (Z.of_nat (Z.to_nat (Z.log2 n)) + 1).
Proof.
  intros H. split; [exact H|].
  rewrite Z2Nat.id by apply Z.log2_nonneg.
  destruct (Z.eq_dec n 0) as [->|Hn]; [reflexivity|].
  change (Z.log2 n + 1) with (Z.succ (Z.log2 n)).
  apply Z.log2_spec. lia.
Qed.

Lemma digits_forall (n : Z) : str_forall is_digit (PyStr.digits n) = true.
Proof. apply digits_fuel_forall. reflexivity. Qed.

Lemma int_digits_digits (n : Z) (b : bool) :
  0 <= n -> PyStr.int_digits 0 b (PyStr.digits n) = Ok n.
Proof.
  intros H. unfold PyStr.digits.
  rewrite int_digits_digits_fuel by now apply log2_fuel. reflexivity.
Qed.

Lemma str_of_int_nonneg (n : Z) : 0 <= n -> PyStr.str_of_int n = PyStr.digits n.
Proof.
  intros H. unfold PyStr.str_of_int.
  destruct (n <? 0) eqn:E; [apply Z.ltb_lt in E; lia | reflexivity].
Qed.

(** Stripping leaves a string without white space as it is. *)
Lemma lstrip_plain (s : string) :
  str_forall (fun c => negb (PyStr.is_space c)) s = true -> PyStr.lstrip s = s.
Proof.
  destruct s as [|c r]; simpl; [reflexivity|].
  intros H. apply andb_true_iff in H as [H _].
  apply negb_true_iff in H. now rewrite H.
Qed.

Lemma rstrip_plain (s : string) :
  str_forall (fun c => negb (PyStr.is_space c)) s = true -> PyStr.rstrip s = s.
Proof.
  induction s as [|c r IH]; simpl; [reflexivity|].
  intros H. apply andb_true_iff in H as [Hc Hr].
  apply negb_true_iff in Hc. rewrite (IH Hr), Hc.
  destruct r; reflexivity.
Qed.

Lemma strip_plain (s : string) :
  str_forall (fun c => negb (PyStr.is_space c)) s = true -> PyStr.strip s = s.
Proof.
  intros H. unfold PyStr.strip. rewrite lstrip_plain by exact H.
  now apply rstrip_plain.
Qed.

Lemma str_forall_impl (P Q : ascii -> bool) (s : string) :
  (forall c, P c = true -> Q c = true) ->
  str_forall P s = true -> str_forall Q s = true.
Proof.
  intros HPQ. induction s as [|c r IH]; simpl; [reflexivity|].
  intros H. apply andb_true_iff in H as [Hc Hr].
  now rewrite (HPQ c Hc), IH.
Qed.

Lemma str_forall_app (P : ascii -> bool) (a b : string) :
  str_forall P (a ++ b) = (str_forall P a && str_forall P b)%bool.
Proof.
  induction a as [|c r IH]; simpl; [reflexivity|].
  now rewrite IH, andb_assoc.
Qed.

Lemma digits_no_space (s : string) :
  str_forall is_digit s = true ->
  str_forall (fun c => negb (PyStr.is_space c)) s = true.
Proof.
  apply str_forall_impl. intros c H.
  destruct (is_digit_plain c H) as (Hs & _). now rewrite Hs.
Qed.

(** [int] of a string of digits. *)
Lemma int_of_digit_string (s : string) :
  str_forall is_digit s = true -> PyStr.int s = PyStr.int_digits 0 false s.
Proof.
  intros H. unfold PyStr.int.
  rewrite strip_plain by now apply digits_no_space.
  destruct s as [|c r]; [reflexivity|].
  simpl in H. apply andb_true_iff in H as [Hc _].
  destruct c as [[] [] [] [] [] [] [] []]; try reflexivity; vm_compute in Hc;
    discriminate Hc.
Qed.

Lemma int_str_of_int (n : Z) : 0 <= n -> PyStr.int (PyStr.str_of_int n) = Ok n.
Proof.
  intros H. rewrite str_of_int_nonneg by exact H.
  rewrite int_of_digit_string by apply digits_forall.
  now apply int_digits_digits.
Qed.

(** Splitting at the dash that follows a string of digits. *)
Lemma split_digits_dash (a b : string) :
  str_forall is_digit a = true ->
  PyStr.split "-" (a ++ String "-" b) = a :: PyStr.split "-" b.
Proof.
  induction a as [|c r IH]; simpl; [reflexivity|].
  intros H. apply andb_true_iff in H as [Hc Hr].
  destruct (is_digit_plain c Hc) as (_ & Hd & _).
  now rewrite Hd, (IH Hr).
Qed.

Lemma split_digits (a : string) :
  str_forall is_digit a = true -> PyStr.split "-" a = [a].
Proof.
  induction a as [|c r IH]; simpl; [reflexivity|].
  intros H. apply andb_true_iff in H as [Hc Hr].
  destruct (is_digit_plain c Hc) as (_ & Hd & _).
  now rewrite Hd, (IH Hr).
Qed.

Lemma month_cases (m : Z) :
  1 <= m <= 12 ->
  m = 1 \/ m = 2 \/ m = 3 \/ m = 4 \/ m = 5 \/ m = 6 \/ m = 7 \/ m = 8
  \/ m = 9 \/ m = 10 \/ m = 11 \/ m = 12.
Proof. lia. Qed.

Lemma fmt_02d_month (m : Z) :
  1 <= m <= 12 ->
  str_forall is_digit (PyStr.fmt_02d m) = true
  /\ PyStr.int (PyStr.fmt_02d m) = Ok m.
Proof.
  intros H. apply month_cases in H.
  repeat (destruct H as [->|H]; [split; reflexivity|]). subst; split; reflexivity.
Qed.

(** The key of a month parses back to the month. *)
Lemma parse_month_key (y m : Z) :
  0 <= y -> 1 <= m <= 12 ->
  parse_yyyy_mm (PyStr.str_of_int y ++ "-" ++ PyStr.fmt_02d m) = Ok (y, m).
Proof.
  intros Hy Hm. destruct (fmt_02d_month m Hm) as [Hd Hi].
  pose proof (digits_forall y) as Hdy.
  unfold parse_yyyy_mm.
  rewrite str_of_int_nonneg by exact Hy.
  rewrite strip_plain.
  - change ("-" ++ PyStr.fmt_02d m)%string with (String "-" (PyStr.fmt_02d m)).
    rewrite split_digits_dash by exact Hdy.
    rewrite split_digits by exact Hd.
    rewrite int_of_digit_string by exact Hdy.
    rewrite int_digits_digits by exact Hy.
    cbn [bind]. rewrite Hi. cbn [bind].
    destruct (m <? 1) eqn:E1; [apply Z.ltb_lt in E1; lia|].
    destruct (m >? 12) eqn:E2; [apply Z.gtb_lt in E2; lia|].
    reflexivity.
  - rewrite str_forall_app. rewrite (digits_no_space _ Hdy).
    change ("-" ++ PyStr.fmt_02d m)%string with (String "-" (PyStr.fmt_02d m)).
    simpl. now apply digits_no_space.
Qed.

Lemma parse_month_range (s : string) (y m : Z) :
  parse_yyyy_mm s = Ok (y, m) -> 1 <= m <= 12.
Proof.
  unfold parse_yyyy_mm.
  destruct (PyStr.split "-" (PyStr.strip s)) as [|a [|b [|c l]]]; try discriminate.
  destruct (PyStr.int a) as [ya| |]; try discriminate.
  destruct (PyStr.int b) as [mb| |]; try discriminate.
  cbn [bind].
  destruct (mb <? 1) eqn:E1; [discriminate|].
  destruct (mb >? 12) eqn:E2; [discriminate|].
  intros H. inversion H; subst.
  apply Z.ltb_ge in E1. rewrite Z.gtb_ltb in E2. apply Z.ltb_ge in E2. lia.
Qed.

End DecimalStrings.

(* ================================================================== *)
(** * Period keys and month bounds *)
(* ================================================================== *)

Section Periods.

Local Open Scope Z_scope.

Import DateSpec.

(** C2 (amended). For a period that [parse_yyyy_mm] accepts, with a
    year of at least 1, [prev_month_str] returns a key that parses to
    the month one before: the month index drops by one; a January input
    gives December of the previous year, and any other month, December
    included, gives the previous month of the same year. *)
Theorem prev_month_str_decrements (s : string) (y m : Z) :
  parse_yyyy_mm s = Ok (y, m) -> 1 <= y ->
  exists (r : string) (y' m' : Z),
    prev_month_str s = Ok r
    /\ parse_yyyy_mm r = Ok (y', m')
    /\ month_index y' m' = month_index y m - 1
    /\ (m = 1 -> y' = y - 1 /\ m' = 12
                 /\ r = (PyStr.str_of_int (y - 1) ++ "-12")%string)
    /\ (m <> 1 -> y' = y /\ m' = m - 1).
Proof.
  intros Hp Hy. pose proof (parse_month_range _ _ _ Hp) as Hm.
  unfold prev_month_str. rewrite Hp. cbn [bind].
  destruct (m =? 1) eqn:E.
  - apply Z.eqb_eq in E. subst m.
    exists (PyStr.str_of_int (y - 1) ++ "-12")%string, (y - 1), 12.
    split; [reflexivity|]. split.
    + apply (parse_month_key (y - 1) 12); lia.
    + unfold month_index. repeat split; try lia.
  - apply Z.eqb_neq in E.
    exists (PyStr.str_of_int y ++ "-" ++ PyStr.fmt_02d (m - 1))%string, y, (m - 1).
    split; [reflexivity|]. split.
    + apply parse_month_key; lia.
    + unfold month_index. repeat split; try lia.
Qed.

Lemma prev_month_str_decrements_witness :
  exists (r : string) (y' m' : Z),
    prev_month_str "2024-01" = Ok r
    /\ parse_yyyy_mm r = Ok (y', m')
    /\ month_index y' m' = month_index 2024 1 - 1
    /\ (1 = 1 -> y' = 2024 - 1 /\ m' = 12
                 /\ r = (PyStr.str_of_int (2024 - 1) ++ "-12")%string)
    /\ (1 <> 1 -> y' = 2024 /\ m' = 1 - 1).
Proof.
  apply (prev_month_str_decrements "2024-01" 2024 1); [reflexivity | lia].
Defined.

(** C2, as stated, fails: a December input gives November of the same
    year, not January of the previous year. *)
Lemma prev_month_str_december_counterexample :
  parse_yyyy_mm "2024-12" = Ok (2024, 12)
  /\ prev_month_str "2024-12" = Ok "2024-11"%string
  /\ prev_month_str "2024-12" <> Ok "2023-01"%string.
Proof. repeat split; try reflexivity. vm_compute. discriminate. Qed.

Example prev_month_str_january : prev_month_str "2024-01" = Ok "2023-12"%string.
Proof. reflexivity. Qed.

(** ** The calendar *)

Lemma is_leap_spec (y : Z) :
  is_leap y = true <-> (y mod 4 = 0 /\ (y mod 100 <> 0 \/ y mod 400 = 0)).
Proof.
  unfold is_leap.
  rewrite andb_true_iff, orb_true_iff, negb_true_iff, !Z.eqb_eq, Z.eqb_neq.
  tauto.
Qed.

Lemma days_before_year_succ (y : Z) :
  days_before_year (y + 1) - days_before_year y
  = 365 + (if is_leap y then 1 else 0).
Proof.
  unfold days_before_year. cbv zeta.
  replace (y + 1 - 1) with y by lia.
  destruct (is_leap y) eqn:E.
  - apply is_leap_spec in E. Z.to_euclidean_division_equations. lia.
  - assert (N : ~ (y mod 4 = 0 /\ (y mod 100 <> 0 \/ y mod 400 = 0))).
    { intros H. apply is_leap_spec in H. congruence. }
    Z.to_euclidean_division_equations. lia.
Qed.

Lemma days_in_month_range (y m : Z) :
  1 <= m <= 12 -> 28 <= days_in_month y m <= 31.
Proof.
  intros H. apply month_cases in H. unfold days_in_month.
  repeat (destruct H as [->|H]; [destruct (is_leap y); simpl; lia|]).
  subst; destruct (is_leap y); simpl; lia.
Qed.

Lemma days_before_next_month (m : Z) :
  1 <= m <= 11 -> DAYS_BEFORE_MONTH (m + 1) - DAYS_BEFORE_MONTH m = DAYS_IN_MONTH m.
Proof.
  intros H.
  assert (m = 1 \/ m = 2 \/ m = 3 \/ m = 4 \/ m = 5 \/ m = 6 \/ m = 7 \/ m = 8
          \/ m = 9 \/ m = 10 \/ m = 11) as D by lia.
  repeat (destruct D as [->|D]; [reflexivity|]). subst; reflexivity.
Qed.

(** The length of a month, measured between its first day and the first
    day of the next month. *)
Lemma month_length (y m : Z) :
  1 <= m <= 12 ->
  toordinal (next_month_start y m) - toordinal (mkdate y m 1) = days_in_month y m.
Proof.
  intros H.
  unfold next_month_start, toordinal, ymd2ord, days_before_month, days_in_month.
  destruct (Z.eqb_spec m 12) as [->|Hne]; cbn [year month day].
  - pose proof (days_before_year_succ y) as Hy.
    change (1 >? 2) with false. change (12 >? 2) with true.
    change (12 =? 2) with false.
    change (DAYS_BEFORE_MONTH 1) with 0. change (DAYS_BEFORE_MONTH 12) with 334.
    change (DAYS_IN_MONTH 12) with 31. cbn [andb].
    destruct (is_leap y); lia.
  - pose proof (days_before_next_month m ltac:(lia)) as Hm.
    destruct (Z.eqb_spec m 2) as [->|H2].
    + change (DAYS_IN_MONTH 2) with 28 in *.
      change (2 + 1 >? 2) with true. change (2 >? 2) with false.
      cbn [andb]. destruct (is_leap y); lia.
    + destruct (Z.gtb_spec (m + 1) 2), (Z.gtb_spec m 2); try lia;
        cbn [andb]; destruct (is_leap y); lia.
Qed.

Lemma valid_first_of_month (y m : Z) :
  1 <= y <= 9999 -> 1 <= m <= 12 -> valid_dateb y m 1 = true.
Proof.
  intros Hy Hm. pose proof (days_in_month_range y m Hm).
  unfold valid_dateb, MINYEAR, MAXYEAR.
  repeat (apply andb_true_iff; split); apply Z.leb_le; lia.
Qed.

Lemma datetime_new_midnight (y m : Z) :
  1 <= y <= 9999 -> 1 <= m <= 12 ->
  datetime_new y m 1 0 0 0 = Ok (midnight (mkdate y m 1)).
Proof.
  intros Hy Hm. unfold datetime_new, date_new.
  now rewrite valid_first_of_month.
Qed.

Lemma month_bounds_of_parse (s : string) (y m : Z) :
  parse_yyyy_mm s = Ok (y, m) -> 1 <= y <= 9999 -> ~ (y = 9999 /\ m = 12) ->
  month_bounds_utc s
  = Ok (midnight (mkdate y m 1), midnight (next_month_start y m)).
Proof.
  intros Hp Hy Hlast. pose proof (parse_month_range _ _ _ Hp) as Hm.
  unfold month_bounds_utc, next_month_start. rewrite Hp. cbn [bind].
  rewrite datetime_new_midnight by assumption. cbn [bind].
  destruct (m =? 12) eqn:E.
  - apply Z.eqb_eq in E. rewrite datetime_new_midnight by lia. reflexivity.
  - apply Z.eqb_neq in E. rewrite datetime_new_midnight by lia. reflexivity.
Qed.

(** C8 (amended). For a period that [parse_yyyy_mm] accepts, with a
    year from 1 to 9999 and other than December 9999, [month_bounds_utc]
    returns midnight of the first day of the month and midnight of the
    first day of the following month (January of the next year after
    December); the difference of the two is the number of days of the
    month, with no seconds left over. *)
Theorem month_bounds_utc_spec (s : string) (y m : Z) :
  parse_yyyy_mm s = Ok (y, m) -> 1 <= y <= 9999 -> ~ (y = 9999 /\ m = 12) ->
  exists start end_ : datetime,
    month_bounds_utc s = Ok (start, end_)
    /\ start = midnight (mkdate y m 1)
    /\ end_ = midnight (next_month_start y m)
    /\ (m = 12 -> dt_date end_ = mkdate (y + 1) 1 1)
    /\ (m <> 12 -> dt_date end_ = mkdate y (m + 1) 1)
    /\ datetime_sub end_ start = mktimedelta (days_in_month y m) 0.
Proof.
  intros Hp Hy Hlast. pose proof (parse_month_range _ _ _ Hp) as Hm.
  exists (midnight (mkdate y m 1)), (midnight (next_month_start y m)).
  split; [now apply month_bounds_of_parse|].
  split; [reflexivity|]. split; [reflexivity|].
  split; [|split].
  - intros ->. reflexivity.
  - intros Hne. unfold next_month_start.
    destruct (m =? 12) eqn:E; [apply Z.eqb_eq in E; contradiction | reflexivity].
  - unfold datetime_sub, midnight, seconds_of_day.
    cbn [dt_date hour minute second].
    rewrite month_length by exact Hm.
    replace (days_in_month y m * 86400 + (0 * 3600 + 0 * 60 + 0 - (0 * 3600 + 0 * 60 + 0)))
      with (days_in_month y m * 86400) by lia.
    now rewrite Z.div_mul, Z.mod_mul by lia.
Qed.

Lemma month_bounds_utc_spec_witness :
  exists start end_ : datetime,
    month_bounds_utc "2024-02" = Ok (start, end_)
    /\ start = midnight (mkdate 2024 2 1)
    /\ end_ = midnight (next_month_start 2024 2)
    /\ (2 = 12 -> dt_date end_ = mkdate (2024 + 1) 1 1)
    /\ (2 <> 12 -> dt_date end_ = mkdate 2024 (2 + 1) 1)
    /\ datetime_sub end_ start = mktimedelta (days_in_month 2024 2) 0.
Proof.
  apply (month_bounds_utc_spec "2024-02" 2024 2); [reflexivity | lia | lia].
Defined.

(** C8, as stated, fails for the last month Python can hold: the period
    is accepted and its first day is a date, but the first day of the
    following month would lie in year 10000. *)
Lemma month_bounds_utc_counterexample :
  parse_yyyy_mm "9999-12" = Ok (9999, 12)
  /\ datetime_new 9999 12 1 0 0 0 = Ok (midnight (mkdate 9999 12 1))
  /\ month_bounds_utc "9999-12" = Raise ValueError.
Proof. repeat split; reflexivity. Qed.

Example month_bounds_february_leap :
  month_bounds_utc "2024-02"
  = Ok (midnight (mkdate 2024 2 1), midnight (mkdate 2024 3 1))
  /\ days_in_month 2024 2 = 29 /\ days_in_month 2023 2 = 28
  /\ days_in_month 1900 2 = 28 /\ days_in_month 2000 2 = 29.
Proof. repeat split; reflexivity. Qed.

End Periods.

(* ================================================================== *)
(** * Months overlapping a range *)
(* ================================================================== *)

Section MonthsOfRange.

Local Open Scope Z_scope.

Import DateSpec.

Lemma index_of_month (y m : Z) :
  1 <= m <= 12 ->
  index_year (month_index y m) = y /\ index_month (month_index y m) = m.
Proof.
  intros H. unfold index_year, index_month, month_index.
  Z.to_euclidean_division_equations. lia.
Qed.

Lemma index_month_range (i : Z) : 1 <= index_month i <= 12.
Proof. unfold index_month. pose proof (Z.mod_pos_bound i 12). lia. Qed.

Lemma month_index_of_index (i : Z) :
  month_index (index_year i) (index_month i) = i.
Proof.
  unfold index_year, index_month, month_index.
  Z.to_euclidean_division_equations. lia.
Qed.

Lemma index_year_nonneg (i : Z) : 0 <= i -> 0 <= index_year i.
Proof. intros H. unfold index_year. apply Z.div_pos; lia. Qed.

Lemma key_of_month (d : date) :
  1 <= Calendar.month d <= 12 ->
  key_of_index (month_index (year d) (Calendar.month d)) = _month_str d.
Proof.
  intros H. unfold key_of_index, first_of_index, _month_str.
  destruct (index_of_month (year d) (Calendar.month d) H) as [-> ->].
  reflexivity.
Qed.

Lemma parse_key_of_index (i : Z) :
  0 <= i -> parse_yyyy_mm (key_of_index i) = Ok (index_year i, index_month i).
Proof.
  intros H. unfold key_of_index, first_of_index, _month_str.
  cbn [year Calendar.month].
  apply parse_month_key; [now apply index_year_nonneg | apply index_month_range].
Qed.

Lemma key_of_index_inj (i j : Z) :
  0 <= i -> 0 <= j -> key_of_index i = key_of_index j -> i = j.
Proof.
  intros Hi Hj E.
  pose proof (parse_key_of_index i Hi) as Pi.
  pose proof (parse_key_of_index j Hj) as Pj.
  rewrite E, Pj in Pi. inversion Pi as [[Ey Em]].
  rewrite <- (month_index_of_index i), <- (month_index_of_index j).
  now rewrite Ey, Em.
Qed.

Lemma In_zrange (n : nat) (i j : Z) :
  In j (zrange i n) <-> i <= j < i + Z.of_nat n.
Proof.
  revert i; induction n as [|n IH]; intros i; simpl zrange.
  - simpl. lia.
  - cbn [In]. rewrite IH. lia.
Qed.

Lemma NoDup_zrange (n : nat) (i : Z) : NoDup (zrange i n).
Proof.
  revert i; induction n as [|n IH]; intros i; simpl; constructor; [|apply IH].
  rewrite In_zrange. lia.
Qed.

Lemma NoDup_keys (n : nat) (i : Z) :
  0 <= i -> NoDup (map key_of_index (zrange i n)).
Proof.
  intros Hi. revert i Hi; induction n as [|n IH]; intros i Hi; simpl;
    constructor; [|apply IH; lia].
  rewrite in_map_iff. intros (j & E & Hj).
  apply In_zrange in Hj. apply key_of_index_inj in E; lia.
Qed.

Lemma In_keys (n : nat) (i j : Z) :
  0 <= i -> 0 <= j ->
  In (key_of_index j) (map key_of_index (zrange i n)) <-> i <= j < i + Z.of_nat n.
Proof.
  intros Hi Hj. rewrite in_map_iff. split.
  - intros (j' & E & Hin). apply In_zrange in Hin.
    apply key_of_index_inj in E; lia.
  - intros H. exists j. split; [reflexivity | now apply In_zrange].
Qed.

(** ** Validity and order of dates *)

Lemma valid_date_fields (d : date) :
  valid_date d ->
  1 <= year d <= 9999 /\ 1 <= Calendar.month d <= 12
  /\ 1 <= day d <= days_in_month (year d) (Calendar.month d).
Proof.
  unfold valid_date, valid_dateb, MINYEAR, MAXYEAR.
  rewrite !andb_true_iff, !Z.leb_le. lia.
Qed.

Lemma valid_date_day (d : date) : valid_date d -> 1 <= day d <= 31.
Proof.
  intros H. destruct (valid_date_fields d H) as (_ & Hm & Hd).
  pose proof (days_in_month_range (year d) (Calendar.month d) Hm). lia.
Qed.

Lemma date_ltb_spec (a b : date) :
  date_ltb a b = true <->
  (year a < year b
   \/ (year a = year b
       /\ (Calendar.month a < Calendar.month b
           \/ (Calendar.month a = Calendar.month b /\ day a < day b)))).
Proof.
  unfold date_ltb.
  rewrite !orb_true_iff, !andb_true_iff, !orb_true_iff, !andb_true_iff,
    !Z.ltb_lt, !Z.eqb_eq.
  tauto.
Qed.

Lemma date_ltb_false (a b : date) :
  date_ltb a b = false <-> date_leb b a = true.
Proof. unfold date_leb. now rewrite negb_true_iff. Qed.

Lemma date_leb_spec (a b : date) :
  date_leb a b = true <-> ~ date_ltb b a = true.
Proof. unfold date_leb. rewrite negb_true_iff. now destruct (date_ltb b a). Qed.

(** The first day of month [i] lies before [end_] exactly when the
    month is at most the last month with a day before [end_]. *)
Lemma first_before_end (i : Z) (end_ : date) :
  1 <= Calendar.month end_ <= 12 -> 1 <= day end_ ->
  date_ltb (first_of_index i) end_ = true <-> i <= last_index end_.
Proof.
  intros Hm Hd. rewrite date_ltb_spec.
  unfold first_of_index, last_index, month_index, index_year, index_month.
  cbn [year Calendar.month day].
  destruct (Z.gtb_spec (day end_) 1);
    Z.to_euclidean_division_equations; lia.
Qed.

Lemma next_first_of_index (i : Z) :
  1 <= index_year i -> i + 1 <= month_index 9999 12 ->
  (if Calendar.month (first_of_index i) =? 12
   then date_new (year (first_of_index i) + 1) 1 1
   else date_new (year (first_of_index i)) (Calendar.month (first_of_index i) + 1) 1)
  = Ok (first_of_index (i + 1)).
Proof.
  intros Hy Hmax. unfold first_of_index. cbn [year Calendar.month].
  assert (Hi : 1 <= index_year (i + 1) <= 9999
               /\ ((index_month i = 12 /\ index_year (i + 1) = index_year i + 1
                    /\ index_month (i + 1) = 1)
                   \/ (index_month i <> 12 /\ index_year (i + 1) = index_year i
                       /\ index_month (i + 1) = index_month i + 1))).
  { unfold index_year, index_month, month_index in *.
    Z.to_euclidean_division_equations. lia. }
  destruct Hi as (Hy' & Hcase).
  pose proof (index_month_range (i + 1)) as Hm'.
  unfold date_new.
  destruct (Z.eqb_spec (index_month i) 12) as [E|E];
    destruct Hcase as [(C1 & C2 & C3)|(C1 & C2 & C3)]; try contradiction.
  - rewrite <- C2, C3. now rewrite valid_first_of_month by lia.
  - rewrite <- C2, C3. now rewrite valid_first_of_month by lia.
Qed.

Lemma next_first_overflow (i : Z) :
  i = month_index 9999 12 ->
  (if Calendar.month (first_of_index i) =? 12
   then date_new (year (first_of_index i) + 1) 1 1
   else date_new (year (first_of_index i)) (Calendar.month (first_of_index i) + 1) 1)
  = Raise ValueError.
Proof. intros ->. reflexivity. Qed.

(** ** The loop *)

Lemma split_loop_ok (n : nat) :
  forall (fuel : nat) (i : Z) (end_ : date) (out : list string),
    1 <= Calendar.month end_ <= 12 -> 1 <= day end_ ->
    1 <= index_year i ->
    last_index end_ + 1 <= month_index 9999 12 ->
    n = Z.to_nat (last_index end_ - i + 1) ->
    (n < fuel)%nat ->
    split_loop fuel (first_of_index i) end_ out
    = Ok (out ++ map key_of_index (zrange i n)).
Proof.
  induction n as [|n IH]; intros fuel i end_ out Hm Hd Hy Hmax Hn Hfuel;
    (destruct fuel as [|fuel]; [lia|]); cbn [split_loop].
  - assert (Hlt : date_ltb (first_of_index i) end_ = false).
    { destruct (date_ltb (first_of_index i) end_) eqn:E; [|reflexivity].
      apply first_before_end in E; auto. lia. }
    rewrite Hlt. simpl. now rewrite app_nil_r.
  - assert (Hlt : date_ltb (first_of_index i) end_ = true).
    { apply first_before_end; auto. lia. }
    rewrite Hlt, next_first_of_index by (auto; lia).
    cbn [bind]. rewrite (IH fuel (i + 1) end_); auto; try lia.
    + cbn [zrange map]. fold (key_of_index i). now rewrite <- app_assoc.
    + unfold index_year in *. Z.to_euclidean_division_equations. lia.
Qed.

Lemma split_loop_overflow (n : nat) :
  forall (fuel : nat) (i : Z) (end_ : date) (out : list string),
    1 <= Calendar.month end_ <= 12 -> 1 <= day end_ ->
    1 <= index_year i ->
    last_index end_ = month_index 9999 12 ->
    i <= last_index end_ ->
    n = Z.to_nat (last_index end_ - i) ->
    (n < fuel)%nat ->
    split_loop fuel (first_of_index i) end_ out = Raise ValueError.
Proof.
  induction n as [|n IH]; intros fuel i end_ out Hm Hd Hy Hlast Hi Hn Hfuel;
    (destruct fuel as [|fuel]; [lia|]); cbn [split_loop];
    (assert (Hlt : date_ltb (first_of_index i) end_ = true)
       by (apply first_before_end; auto)); rewrite Hlt.
  - rewrite next_first_overflow by lia. reflexivity.
  - rewrite next_first_of_index by (auto; lia).
    cbn [bind]. apply (IH fuel (i + 1) end_); auto; try lia.
    unfold index_year in *. Z.to_euclidean_division_equations. lia.
Qed.

Lemma dedupe_loop_nodup (xs seen final : list string) :
  NoDup xs -> (forall x, In x xs -> ~ In x seen) ->
  dedupe_loop xs seen final = final ++ xs.
Proof.
  revert seen final; induction xs as [|x r IH]; intros seen final Hnd Hdis; simpl.
  - now rewrite app_nil_r.
  - inversion Hnd as [|? ? Hx Hr]; subst.
    assert (Hmem : str_mem x seen = false).
    { unfold str_mem. destruct (existsb (String.eqb x) seen) eqn:E; [|reflexivity].
      apply existsb_exists in E as (z & Hz & Ez).
      apply String.eqb_eq in Ez. subst z.
      exfalso. apply (Hdis x); [now left | exact Hz]. }
    rewrite Hmem, IH; auto.
    + now rewrite <- app_assoc.
    + intros z Hz [->|Hseen]; [contradiction|].
      apply (Hdis z); [now right | exact Hseen].
Qed.

Lemma str_mem_head (x : string) (l : list string) : str_mem x (x :: l) = true.
Proof. unfold str_mem. simpl. now rewrite String.eqb_refl. Qed.

(** The number of months of a range that starts before it ends. *)
Lemma months_count (start end_ : date) :
  valid_date start -> valid_date end_ -> date_ltb start end_ = true ->
  month_index (year start) (Calendar.month start) <= last_index end_
  /\ last_index end_ <= month_index (year end_) (Calendar.month end_).
Proof.
  intros Hs He Hlt.
  destruct (valid_date_fields _ Hs) as (Hsy & Hsm & Hsd).
  destruct (valid_date_fields _ He) as (Hey & Hem & Hed).
  apply date_ltb_spec in Hlt.
  unfold last_index, month_index.
  destruct (Z.gtb_spec (day end_) 1); lia.
Qed.

(** What [split_range_by_month] returns, for every pair of dates. *)
Lemma split_range_by_month_eq (start end_ : date) :
  valid_date start -> valid_date end_ ->
  split_range_by_month start end_
  = if date_leb end_ start then Ok []
    else if last_index end_ <? month_index 9999 12
         then Ok (map key_of_index
                    (zrange (month_index (year start) (Calendar.month start))
                       (Z.to_nat (last_index end_
                                  - month_index (year start) (Calendar.month start)
                                  + 1))))
         else Raise ValueError.
Proof.
  intros Hs He. unfold split_range_by_month.
  destruct (date_leb end_ start) eqn:Hle; [reflexivity|].
  assert (Hlt : date_ltb start end_ = true).
  { unfold date_leb in Hle. now apply negb_false_iff in Hle. }
  destruct (valid_date_fields _ Hs) as (Hsy & Hsm & Hsd).
  destruct (valid_date_fields _ He) as (Hey & Hem & Hed).
  destruct (months_count start end_ Hs He Hlt) as [Hlo Hhi].
  set (i := month_index (year start) (Calendar.month start)) in *.
  destruct (index_of_month (year start) (Calendar.month start) Hsm) as [Ey Em].
  fold i in Ey, Em.
  assert (Hcur : date_new (year start) (Calendar.month start) 1 = Ok (first_of_index i)).
  { unfold date_new, first_of_index. rewrite valid_first_of_month by assumption.
    now rewrite Ey, Em. }
  rewrite Hcur. cbn [bind].
  assert (Hfuel : (Z.to_nat (last_index end_ - i + 1) < split_fuel start end_)%nat).
  { unfold split_fuel. unfold i, month_index in *. lia. }
  destruct (Z.ltb_spec (last_index end_) (month_index 9999 12)) as [Hok|Hover].
  - rewrite (split_loop_ok (Z.to_nat (last_index end_ - i + 1)));
      auto; try lia.
    cbn [bind app].
    destruct (Z.to_nat (last_index end_ - i + 1)) as [|n] eqn:En; [lia|].
    cbn [zrange map].
    assert (Hkey : key_of_index i = _month_str start)
      by (apply key_of_month; exact Hsm).
    rewrite <- Hkey, str_mem_head.
    pose proof (NoDup_keys (S n) i ltac:(unfold i, month_index; lia)) as Hnd.
    cbn [zrange map] in Hnd.
    rewrite dedupe_loop_nodup; auto.
  - assert (Hlast : last_index end_ = month_index 9999 12).
    { unfold last_index, month_index in *.
      destruct (Z.gtb_spec (day end_) 1); lia. }
    rewrite (split_loop_overflow (Z.to_nat (last_index end_ - i)));
      auto; try lia.
Qed.

End MonthsOfRange.

Section MonthsOfRangeSpec.

Local Open Scope Z_scope.

Import DateSpec.

Lemma end_before_max (end_ : date) :
  valid_date end_ ->
  date_leb end_ (mkdate 9999 12 1) = true
  <-> last_index end_ < month_index 9999 12.
Proof.
  intros He. destruct (valid_date_fields _ He) as (Hy & Hm & Hd).
  rewrite date_leb_spec, date_ltb_spec. cbn [year Calendar.month day].
  unfold last_index, month_index.
  destruct (Z.gtb_spec (day end_) 1); lia.
Qed.

Lemma month_intersects_index (y m : Z) (start end_ : date) :
  valid_date start -> valid_date end_ -> date_ltb start end_ = true ->
  1 <= m <= 12 ->
  month_intersects y m start end_
  <-> month_index (year start) (Calendar.month start) <= month_index y m
      /\ month_index y m <= last_index end_.
Proof.
  intros Hs He Hlt Hm.
  destruct (valid_date_fields _ Hs) as (Hsy & Hsm & Hsd).
  destruct (valid_date_fields _ He) as (Hey & Hem & Hed).
  pose proof Hlt as Hlt'. apply date_ltb_spec in Hlt'.
  unfold month_intersects. split.
  - intros (d & Hd & H1 & H2).
    apply date_leb_spec in H1. rewrite date_ltb_spec in H1, H2.
    cbn [year Calendar.month day] in H1, H2.
    unfold last_index, month_index.
    destruct (Z.gtb_spec (day end_) 1); lia.
  - intros [Hlo Hhi].
    destruct (Z.eq_dec (month_index y m)
                (month_index (year start) (Calendar.month start))) as [E|NE].
    + assert (y = year start /\ m = Calendar.month start) as [-> ->]
        by (unfold month_index in E; lia).
      exists (day start). split; [exact Hsd|]. split.
      * apply date_leb_spec. rewrite date_ltb_spec.
        cbn [year Calendar.month day]. lia.
      * rewrite date_ltb_spec. cbn [year Calendar.month day]. exact Hlt'.
    + exists 1. pose proof (days_in_month_range y m Hm). split; [lia|]. split.
      * apply date_leb_spec. rewrite date_ltb_spec.
        cbn [year Calendar.month day]. unfold month_index in *. lia.
      * rewrite date_ltb_spec. cbn [year Calendar.month day].
        unfold last_index, month_index in *.
        destruct (Z.gtb_spec (day end_) 1); lia.
Qed.




Example split_two_months :
  split_range_by_month (mkdate 2024 1 15) (mkdate 2024 3 1)
  = Ok ["2024-01"; "2024-02"]%string
  /\ split_range_by_month (mkdate 2024 12 31) (mkdate 2025 1 1)
     = Ok ["2024-12"%string]
  /\ split_range_by_month (mkdate 2024 3 1) (mkdate 2024 3 1) = Ok [].
Proof. repeat split; reflexivity. Qed.

End MonthsOfRangeSpec.

(* ================================================================== *)
(** * Budget prorator *)
(* ================================================================== *)

Section Prorator.

Local Open Scope Z_scope.

Import DateSpec.

Variable float_of_str : string -> option Q.
Variable fetch_month_budget : string -> string -> option budget_row.
Variable user_id : string.

Local Abbreviation step_ := (prorate_step float_of_str fetch_month_budget user_id).
Local Abbreviation loop_ := (prorate_loop float_of_str fetch_month_budget user_id).
Local Abbreviation total_ := (prorate_total float_of_str fetch_month_budget user_id).
Local Abbreviation prorate_ :=
  (prorate_monthly_budget_for_range float_of_str fetch_month_budget user_id).

(** ** Agreement of outcomes *)

Lemma res_eq_refl (a : result Q) : res_eq a a.
Proof. destruct a; simpl; auto. reflexivity. Qed.

Lemma res_eq_sym (a b : result Q) : res_eq a b -> res_eq b a.
Proof. destruct a, b; simpl; auto. intros H; now rewrite H. Qed.

Lemma res_eq_trans (a b c : result Q) : res_eq a b -> res_eq b c -> res_eq a c.
Proof.
  destruct a, b, c; simpl; try tauto; try congruence.
  intros H1 H2. now rewrite H1.
Qed.

Lemma res_eq_of_eq (a b : result Q) : a = b -> res_eq a b.
Proof. intros ->. apply res_eq_refl. Qed.

Lemma shift_compat (t t' : Q) (a b : result Q) :
  (t == t')%Q -> res_eq a b -> res_eq (shift t a) (shift t' b).
Proof.
  intros Ht. destruct a, b; simpl; auto. intros H. now rewrite Ht, H.
Qed.

Lemma shift_shift (t d : Q) (a : result Q) :
  res_eq (shift t (shift d a)) (shift (t + d)%Q a).
Proof. destruct a; simpl; auto. ring. Qed.

(** ** The loop adds to its accumulator *)

Lemma step_shift (start end_ : date) (t : Q) (m : string) :
  res_eq (step_ start end_ t m) (shift t (step_ start end_ 0%Q m)).
Proof.
  unfold prorate_step.
  destruct (fetch_month_budget user_id m) as [b|]; [|simpl; ring].
  destruct (py_float float_of_str (por (b_budget_amount b) (PFloat 0)))
    as [mb|e|]; cbn [bind]; [|reflexivity|exact I].
  destruct (Qle_bool mb 0); [simpl; ring|].
  destruct (month_bounds_utc m) as [[ms_dt me_dt]|e|]; cbn [bind];
    [|reflexivity|exact I].
  cbv zeta.
  destruct (date_leb _ _); [simpl; ring|].
  destruct (_ || _)%bool; simpl; ring.
Qed.

Lemma step_compat (start end_ : date) (t t' : Q) (m : string) :
  (t == t')%Q -> res_eq (step_ start end_ t m) (step_ start end_ t' m).
Proof.
  intros Ht.
  eapply res_eq_trans; [apply step_shift|].
  eapply res_eq_trans; [|apply res_eq_sym, step_shift].
  apply shift_compat; [exact Ht | apply res_eq_refl].
Qed.

Lemma loop_compat (start end_ : date) (l : list string) (t t' : Q) :
  (t == t')%Q -> res_eq (loop_ start end_ l t) (loop_ start end_ l t').
Proof.
  revert t t'; induction l as [|m l IH]; intros t t' Ht; simpl; [exact Ht|].
  pose proof (step_compat start end_ t t' m Ht) as Hs.
  destruct (step_ start end_ t m), (step_ start end_ t' m); simpl in *;
    try tauto. now apply IH.
Qed.

Lemma loop_shift (start end_ : date) (l : list string) (t : Q) :
  res_eq (loop_ start end_ l t) (shift t (loop_ start end_ l 0%Q)).
Proof.
  revert t; induction l as [|m l IH]; intros t; simpl; [ring|].
  pose proof (step_shift start end_ t m) as Hs.
  destruct (step_ start end_ 0%Q m) as [d|e|];
    destruct (step_ start end_ t m) as [x|e'|]; simpl in Hs; try tauto;
    cbn [bind].
  eapply res_eq_trans; [apply (loop_compat _ _ _ x (t + d)%Q Hs)|].
  eapply res_eq_trans; [apply IH|].
  eapply res_eq_trans; [apply res_eq_sym, shift_shift|].
  apply shift_compat; [reflexivity | apply res_eq_sym, IH].
Qed.

Lemma loop_app (start end_ : date) (l1 l2 : list string) (t : Q) :
  loop_ start end_ (l1 ++ l2) t
  = bind (loop_ start end_ l1 t) (loop_ start end_ l2).
Proof.
  revert t; induction l1 as [|m l1 IH]; intros t; simpl; [reflexivity|].
  destruct (step_ start end_ t m); simpl; auto.
Qed.

Lemma loop_ext (s1 e1 s2 e2 : date) (l : list string) :
  (forall m t, In m l -> step_ s1 e1 t m = step_ s2 e2 t m) ->
  forall t, loop_ s1 e1 l t = loop_ s2 e2 l t.
Proof.
  induction l as [|m l IH]; intros H t; simpl; [reflexivity|].
  rewrite (H m t) by now left.
  destruct (step_ s2 e2 t m); simpl; auto.
  apply IH. intros m' t' Hin. apply H. now right.
Qed.

(** ** Only [ValueError] is raised, and no loop runs out of fuel *)

Lemma benign_bind {A B : Type} (r : result A) (k : A -> result B) :
  benign r -> (forall a, benign (k a)) -> benign (bind r k).
Proof. destruct r; simpl; auto. Qed.

Lemma int_digits_benign (s : string) (acc : Z) (b : bool) :
  benign (PyStr.int_digits acc b s).
Proof.
  revert acc b; induction s as [|c r IH]; intros acc b; simpl.
  - destruct b; simpl; auto.
  - destruct (PyStr.digit_of c); [apply IH|].
    destruct (Ascii.eqb c "_" && b)%bool; [apply IH | reflexivity].
Qed.

Lemma int_benign (s : string) : benign (PyStr.int s).
Proof.
  unfold PyStr.int.
  destruct (PyStr.strip s) as [|c r]; [reflexivity|].
  destruct c as [[] [] [] [] [] [] [] []];
    try apply int_digits_benign;
    (apply benign_bind; [apply int_digits_benign | intros; exact I]).
Qed.

Lemma parse_yyyy_mm_benign (s : string) : benign (parse_yyyy_mm s).
Proof.
  unfold parse_yyyy_mm.
  destruct (PyStr.split "-" (PyStr.strip s)) as [|a [|b [|c l]]];
    try reflexivity.
  apply benign_bind; [apply int_benign|]. intros y.
  apply benign_bind; [apply int_benign|]. intros m.
  destruct ((m <? 1) || (m >? 12))%bool; simpl; auto.
Qed.

Lemma datetime_new_benign (y m d hh mm ss : Z) : benign (datetime_new y m d hh mm ss).
Proof.
  unfold datetime_new, date_new.
  destruct (valid_dateb y m d); simpl; [|reflexivity].
  destruct (_ && _)%bool; simpl; auto.
Qed.

Lemma month_bounds_utc_benign (s : string) : benign (month_bounds_utc s).
Proof.
  unfold month_bounds_utc.
  apply benign_bind; [apply parse_yyyy_mm_benign|]. intros [y m].
  apply benign_bind; [apply datetime_new_benign|]. intros st.
  apply benign_bind; [|intros; exact I].
  destruct (m =? 12); apply datetime_new_benign.
Qed.

Lemma step_benign (start end_ : date) (t : Q) (m : string) :
  benign (step_ start end_ t m).
Proof.
  unfold prorate_step.
  destruct (fetch_month_budget user_id m) as [b|]; [|exact I].
  apply benign_bind.
  - unfold por. destruct (b_budget_amount b) as [|q|s]; simpl; auto.
    + destruct (negb (Qeq_bool q 0)); exact I.
    + destruct (PyStr.truthy s); simpl; [|exact I].
      destruct (float_of_str s); simpl; auto.
  - intros mb. destruct (Qle_bool mb 0); [exact I|].
    apply benign_bind; [apply month_bounds_utc_benign|]. intros [ms_dt me_dt].
    cbv zeta. destruct (date_leb _ _); [exact I|].
    destruct (_ || _)%bool; exact I.
Qed.

Lemma loop_benign (start end_ : date) (l : list string) (t : Q) :
  benign (loop_ start end_ l t).
Proof.
  revert t; induction l as [|m l IH]; intros t; simpl; [exact I|].
  apply benign_bind; [apply step_benign | intros; apply IH].
Qed.

Lemma split_benign (start end_ : date) :
  valid_date start -> valid_date end_ ->
  benign (split_range_by_month start end_).
Proof.
  intros Hs He. rewrite split_range_by_month_eq by assumption.
  destruct (date_leb end_ start); [exact I|].
  destruct (_ <? _); simpl; auto.
Qed.

Lemma total_benign (start end_ : date) :
  valid_date start -> valid_date end_ -> benign (total_ start end_).
Proof.
  intros Hs He. unfold prorate_total.
  apply benign_bind; [now apply split_benign | intros; apply loop_benign].
Qed.

Lemma res_eq_is_ok (a b : result Q) : res_eq a b -> is_ok a = is_ok b.
Proof. destruct a, b; simpl; tauto. Qed.

(** ** Month bounds of the keys, and the order of month starts *)

Lemma next_month_start_index (j : Z) :
  next_month_start (index_year j) (index_month j) = first_of_index (j + 1).
Proof.
  unfold next_month_start, first_of_index.
  assert (H : (index_month j = 12 /\ index_year (j + 1) = index_year j + 1
               /\ index_month (j + 1) = 1)
              \/ (index_month j <> 12 /\ index_year (j + 1) = index_year j
                  /\ index_month (j + 1) = index_month j + 1)).
  { unfold index_year, index_month. Z.to_euclidean_division_equations. lia. }
  destruct (Z.eqb_spec (index_month j) 12) as [E|E];
    destruct H as [(C1 & C2 & C3)|(C1 & C2 & C3)]; try contradiction;
    now rewrite C2, C3.
Qed.

Lemma month_bounds_of_key (j : Z) :
  month_index 1 1 <= j < month_index 9999 12 ->
  month_bounds_utc (key_of_index j)
  = Ok (midnight (first_of_index j), midnight (first_of_index (j + 1))).
Proof.
  intros Hj.
  assert (Hy : 1 <= index_year j <= 9999 /\ ~ (index_year j = 9999 /\ index_month j = 12)).
  { unfold index_year, index_month, month_index in *.
    Z.to_euclidean_division_equations. lia. }
  destruct Hy as [Hy Hlast].
  rewrite (month_bounds_of_parse _ (index_year j) (index_month j)); auto.
  - now rewrite next_month_start_index.
  - apply parse_key_of_index. unfold month_index in Hj. lia.
Qed.

Lemma first_lt_first (a b : Z) :
  date_ltb (first_of_index a) (first_of_index b) = true <-> a < b.
Proof.
  rewrite first_before_end.
  - unfold last_index, first_of_index. cbn [year Calendar.month day].
    change (1 >? 1) with false. cbv iota.
    rewrite month_index_of_index. lia.
  - apply index_month_range.
  - cbn. lia.
Qed.

Lemma date_ltb_irrefl (a : date) : date_ltb a a = false.
Proof.
  destruct (date_ltb a a) eqn:E; [|reflexivity].
  apply date_ltb_spec in E. lia.
Qed.

Lemma start_before_first (start : date) (j : Z) :
  valid_date start ->
  date_ltb start (first_of_index j) = true
  <-> month_index (year start) (Calendar.month start) < j.
Proof.
  intros Hs. destruct (valid_date_fields _ Hs) as (Hy & Hm & Hd).
  rewrite date_ltb_spec.
  unfold first_of_index, index_year, index_month, month_index in *.
  cbn [year Calendar.month day].
  Z.to_euclidean_division_equations. lia.
Qed.

Lemma first_day_is_first_of_index (d : date) :
  valid_date d -> day d = 1 ->
  d = first_of_index (month_index (year d) (Calendar.month d)).
Proof.
  intros Hv Hd. destruct (valid_date_fields _ Hv) as (_ & Hm & _).
  unfold first_of_index.
  destruct (index_of_month (year d) (Calendar.month d) Hm) as [-> ->].
  destruct d as [y m dd]. simpl in *. now subst.
Qed.

Lemma date_ltb_trans (a b c : date) :
  date_ltb a b = true -> date_ltb b c = true -> date_ltb a c = true.
Proof. rewrite !date_ltb_spec. lia. Qed.

Lemma zrange_app (n1 n2 : nat) (i : Z) :
  zrange i (n1 + n2) = zrange i n1 ++ zrange (i + Z.of_nat n1) n2.
Proof.
  revert i; induction n1 as [|n1 IH]; intros i.
  - simpl. now rewrite Z.add_0_r.
  - cbn [Nat.add zrange app]. rewrite IH. do 3 f_equal. lia.
Qed.

(** ** The loop body on either side of an interior month start *)

Lemma step_before_mid (start end_ : date) (im j : Z) (t : Q) :
  valid_date end_ ->
  month_index 1 1 <= j -> j < im -> im <= last_index end_ ->
  im <= month_index 9999 12 ->
  step_ start end_ t (key_of_index j)
  = step_ start (first_of_index im) t (key_of_index j).
Proof.
  intros He Hj Hjm Hlast Hmax.
  destruct (valid_date_fields _ He) as (_ & Hem & Hed).
  unfold prorate_step.
  destruct (fetch_month_budget user_id (key_of_index j)) as [b|]; [|reflexivity].
  destruct (py_float float_of_str (por (b_budget_amount b) (PFloat 0)))
    as [mb|e|]; cbn [bind]; try reflexivity.
  destruct (Qle_bool mb 0); [reflexivity|].
  rewrite month_bounds_of_key by lia. cbn [bind]. cbv zeta.
  unfold midnight. cbn [dt_date].
  assert (E1 : date_min end_ (first_of_index (j + 1)) = first_of_index (j + 1)).
  { unfold date_min.
    assert (H : date_ltb (first_of_index (j + 1)) end_ = true)
      by (apply first_before_end; auto; lia).
    now rewrite H. }
  assert (E2 : date_min (first_of_index im) (first_of_index (j + 1))
               = first_of_index (j + 1)).
  { unfold date_min.
    destruct (date_ltb (first_of_index (j + 1)) (first_of_index im)) eqn:E;
      [reflexivity|].
    assert (~ j + 1 < im) by (intros H; apply first_lt_first in H; congruence).
    f_equal. lia. }
  now rewrite E1, E2.
Qed.

Lemma step_from_mid (start end_ : date) (im j : Z) (t : Q) :
  valid_date start ->
  month_index (year start) (Calendar.month start) < im -> im <= j ->
  step_ start end_ t (key_of_index j)
  = step_ (first_of_index im) end_ t (key_of_index j).
Proof.
  intros Hs Him Hj.
  unfold prorate_step.
  destruct (fetch_month_budget user_id (key_of_index j)) as [b|]; [|reflexivity].
  destruct (py_float float_of_str (por (b_budget_amount b) (PFloat 0)))
    as [mb|e|]; cbn [bind]; try reflexivity.
  destruct (Qle_bool mb 0); [reflexivity|].
  destruct (month_bounds_utc (key_of_index j)) as [[ms_dt me_dt]|e|] eqn:Eb;
    cbn [bind]; try reflexivity.
  assert (Hms : dt_date ms_dt = first_of_index j).
  { unfold month_bounds_utc in Eb.
    destruct (valid_date_fields _ Hs) as (Hy & Hm & _).
    rewrite parse_key_of_index in Eb by (unfold month_index in *; lia).
    cbn [bind] in Eb. unfold datetime_new, date_new in Eb.
    destruct (valid_dateb (index_year j) (index_month j) 1); cbn [bind] in Eb;
      [|discriminate].
    cbn [andb Z.leb Z.compare] in Eb.
    destruct (index_month j =? 12);
      [destruct (valid_dateb (index_year j + 1) 1 1)
      |destruct (valid_dateb (index_year j) (index_month j + 1) 1)];
      cbn [bind] in Eb; try discriminate; now inversion Eb. }
  cbv zeta. rewrite Hms.
  assert (E1 : date_max start (first_of_index j) = first_of_index j).
  { unfold date_max.
    assert (H : date_ltb start (first_of_index j) = true)
      by (apply start_before_first; auto; lia).
    now rewrite H. }
  assert (E2 : date_max (first_of_index im) (first_of_index j) = first_of_index j).
  { unfold date_max.
    destruct (date_ltb (first_of_index im) (first_of_index j)) eqn:E;
      [reflexivity|].
    assert (~ im < j) by (intros H; apply first_lt_first in H; congruence).
    f_equal. lia. }
  now rewrite E1, E2.
Qed.

(** ** Additivity across an interior month start *)

Lemma total_additive_index (start end_ : date) (im : Z) :
  valid_date start -> valid_date end_ -> valid_date (first_of_index im) ->
  month_index (year start) (Calendar.month start) < im ->
  im <= last_index end_ ->
  res_eq (total_ start end_)
    (bind (total_ start (first_of_index im))
       (fun a => shift a (total_ (first_of_index im) end_))).
Proof.
  intros Hs He Hmid Hi Hlast.
  pose proof (total_benign start (first_of_index im) Hs Hmid) as Hben.
  destruct (valid_date_fields _ Hs) as (Hsy & Hsm & Hsd).
  destruct (valid_date_fields _ Hmid) as (Hmy & Hmm & Hmd).
  cbn [year Calendar.month day first_of_index] in Hmy, Hmm, Hmd.
  set (i := month_index (year start) (Calendar.month start)) in *.
  assert (Hi1 : month_index 1 1 <= i) by (unfold i, month_index; lia).
  assert (Him : im <= month_index 9999 12).
  { unfold index_year, index_month, month_index in *.
    Z.to_euclidean_division_equations. lia. }
  assert (Hsm_lt : date_ltb start (first_of_index im) = true)
    by (apply start_before_first; auto).
  assert (Hme_lt : date_ltb (first_of_index im) end_ = true).
  { destruct (valid_date_fields _ He) as (_ & Hem & Hed).
    apply first_before_end; auto; lia. }
  assert (Hse_lt : date_ltb start end_ = true)
    by (eapply date_ltb_trans; eauto).
  assert (Hlm : last_index (first_of_index im) = im - 1).
  { unfold last_index, first_of_index. cbn [year Calendar.month day].
    change (1 >? 1) with false. cbv iota. now rewrite month_index_of_index. }
  unfold prorate_total in *.
  rewrite (split_range_by_month_eq start end_) by assumption.
  rewrite (split_range_by_month_eq start (first_of_index im)) in * by assumption.
  rewrite (split_range_by_month_eq (first_of_index im) end_) by assumption.
  unfold date_leb in *. rewrite Hsm_lt, Hme_lt, Hse_lt in *. cbn [negb] in *.
  rewrite Hlm in *.
  cbn [year Calendar.month first_of_index] in *.
  rewrite month_index_of_index. fold i in Hben |- *.
  destruct (Z.ltb_spec (im - 1) (month_index 9999 12)) as [_|]; [|lia].
  cbn [bind] in *.
  set (K1 := map key_of_index (zrange i (Z.to_nat (im - 1 - i + 1)))) in *.
  destruct (Z.ltb_spec (last_index end_) (month_index 9999 12)) as [Hok|Hover];
    cbn [bind].
  - replace (Z.to_nat (last_index end_ - i + 1))
      with (Z.to_nat (im - 1 - i + 1) + Z.to_nat (last_index end_ - im + 1))%nat
      by lia.
    rewrite zrange_app, map_app. fold K1.
    replace (i + Z.of_nat (Z.to_nat (im - 1 - i + 1))) with im by lia.
    set (K2 := map key_of_index (zrange im (Z.to_nat (last_index end_ - im + 1)))).
    rewrite loop_app.
    rewrite (loop_ext start end_ start (first_of_index im) K1).
    + destruct (loop_ start (first_of_index im) K1 0%Q) as [a|e|]; cbn [bind].
      * rewrite (loop_ext start end_ (first_of_index im) end_ K2).
        -- apply loop_shift.
        -- intros m t Hin. unfold K2 in Hin. apply in_map_iff in Hin as (j & <- & Hj).
           apply In_zrange in Hj. apply step_from_mid; auto; lia.
      * reflexivity.
      * exact I.
    + intros m t Hin. unfold K1 in Hin. apply in_map_iff in Hin as (j & <- & Hj).
      apply In_zrange in Hj. apply step_before_mid; auto; lia.
  - destruct (loop_ start (first_of_index im) K1 0%Q) as [a|e|]; cbn [bind shift];
      simpl in *; auto.
Qed.

Lemma round2_additive (x y z : Q) :
  (x == y + z)%Q -> (Qabs (round2 y + round2 z - round2 x) <= 1 # 100)%Q.
Proof.
  intros E.
  pose proof (round2_error x) as Hx. pose proof (round2_error y) as Hy.
  pose proof (round2_error z) as Hz.
  apply Qabs_Qle_condition in Hx, Hy, Hz.
  pose proof (round2_value x) as Vx. pose proof (round2_value y) as Vy.
  pose proof (round2_value z) as Vz.
  set (kx := round_half_even (x * 100)) in *.
  set (ky := round_half_even (y * 100)) in *.
  set (kz := round_half_even (z * 100)) in *.
  clearbody kx ky kz.
  assert (HD : (-1 <= ky + kz - kx <= 1)%Z).
  { split.
    - apply Z.lt_succ_r. apply Z.lt_pred_lt_succ. rewrite Zlt_Qlt.
      unfold Z.sub. rewrite !inject_Z_plus, inject_Z_opp.
      change (inject_Z (Z.pred (-1))) with (-2 # 1)%Q. lra.
    - apply Z.lt_succ_r. rewrite Zlt_Qlt.
      unfold Z.sub. rewrite !inject_Z_plus, inject_Z_opp.
      change (inject_Z (Z.succ 1)) with (2 # 1)%Q. lra. }
  destruct HD as [HD1 HD2].
  rewrite Zle_Qle in HD1, HD2.
  unfold Z.sub in HD1, HD2. rewrite !inject_Z_plus, inject_Z_opp in HD1, HD2.
  change (inject_Z (-1)) with (-1 # 1)%Q in HD1.
  change (inject_Z 1) with (1 # 1)%Q in HD2.
  apply Qabs_Qle_condition. rewrite Vx, Vy, Vz. split; lra.
Qed.

Lemma prorate_unfold (start end_ : date) :
  date_ltb start end_ = true ->
  prorate_ start end_ = bind (total_ start end_) (fun t => Ok (round2 t)).
Proof.
  intros H. unfold prorate_monthly_budget_for_range, date_leb.
  now rewrite H.
Qed.


End Prorator.


(** A week across the end of January 2024, with budgets of 3100 and
    2900: 700 for each part and 1400 for the whole. *)
Example prorate_week_across_months :
  prorate_monthly_budget_for_range Sample.float_of_str Sample.fetch_month_budget
    "u" (mkdate 2024 1 25) (mkdate 2024 2 1) = Ok (Qmake 70000 100)
  /\ prorate_monthly_budget_for_range Sample.float_of_str Sample.fetch_month_budget
       "u" (mkdate 2024 2 1) (mkdate 2024 2 8) = Ok (Qmake 70000 100)
  /\ prorate_monthly_budget_for_range Sample.float_of_str Sample.fetch_month_budget
       "u" (mkdate 2024 1 25) (mkdate 2024 2 8) = Ok (Qmake 140000 100)
  /\ prorate_monthly_budget_for_range Sample.float_of_str Sample.fetch_month_budget
       "u" (mkdate 2024 2 8) (mkdate 2024 1 25) = Ok 0%Q.
Proof. repeat split; vm_compute; reflexivity. Qed.

(* ================================================================== *)
(** * Period keys: further properties *)
(* ================================================================== *)

Section PeriodKeys.

Local Open Scope Z_scope.

Import DateSpec MoreSpec.

(** X1. The key of the month of a date parses back to that year and
    month; so the keys of two dates are equal only if the dates lie in
    the same month of the same year. *)
Theorem month_key_round_trip (d1 d2 : date) :
  valid_date d1 -> valid_date d2 ->
  parse_yyyy_mm (_month_str d1) = Ok (year d1, Calendar.month d1)
  /\ (_month_str d1 = _month_str d2 ->
      year d1 = year d2 /\ Calendar.month d1 = Calendar.month d2).
Proof.
  intros H1 H2.
  destruct (valid_date_fields _ H1) as (Hy1 & Hm1 & _).
  destruct (valid_date_fields _ H2) as (Hy2 & Hm2 & _).
  assert (P : forall d, 1 <= year d <= 9999 -> 1 <= Calendar.month d <= 12 ->
              parse_yyyy_mm (_month_str d) = Ok (year d, Calendar.month d)).
  { intros d Hy Hm. unfold _month_str. apply parse_month_key; lia. }
  split; [now apply P|].
  intros E. pose proof (P d1 Hy1 Hm1) as P1. rewrite E, (P d2 Hy2 Hm2) in P1.
  inversion P1. auto.
Qed.

Lemma month_key_round_trip_witness :
  parse_yyyy_mm (_month_str (mkdate 2024 2 29)) = Ok (2024, 2)
  /\ (_month_str (mkdate 2024 2 29) = _month_str (mkdate 2024 2 1) ->
      2024 = 2024 /\ 2 = 2).
Proof.
  apply (month_key_round_trip (mkdate 2024 2 29) (mkdate 2024 2 1) eq_refl eq_refl).
Defined.

Lemma split_length (sep : ascii) (s : string) :
  List.length (PyStr.split sep s) = S (count_char sep s).
Proof.
  induction s as [|c r IH]; simpl; [reflexivity|].
  destruct (Ascii.eqb c sep); simpl; [now rewrite IH|].
  destruct (PyStr.split sep r); simpl in *; [discriminate | exact IH].
Qed.

(** X2. [parse_yyyy_mm] returns a pair or raises [ValueError], nothing
    else.  A returned month is between 1 and 12, and the stripped input
    then has exactly one dash; an input whose stripped form does not
    have exactly one dash raises [ValueError]. *)
Theorem parse_yyyy_mm_outcomes (s : string) :
  benign (parse_yyyy_mm s)
  /\ (forall y m, parse_yyyy_mm s = Ok (y, m) ->
        1 <= m <= 12 /\ count_char "-" (PyStr.strip s) = 1%nat)
  /\ (count_char "-" (PyStr.strip s) <> 1%nat ->
      parse_yyyy_mm s = Raise ValueError).
Proof.
  split; [apply parse_yyyy_mm_benign|].
  pose proof (split_length "-" (PyStr.strip s)) as Hlen.
  split.
  - intros y m Hp. split; [eapply parse_month_range; eauto|].
    unfold parse_yyyy_mm in Hp.
    destruct (PyStr.split "-" (PyStr.strip s)) as [|a [|b [|c l]]];
      try discriminate.
    simpl in Hlen. congruence.
  - intros Hc. unfold parse_yyyy_mm.
    destruct (PyStr.split "-" (PyStr.strip s)) as [|a [|b [|c l]]];
      try reflexivity.
    simpl in Hlen. congruence.
Qed.

Lemma parse_yyyy_mm_outcomes_witness :
  parse_yyyy_mm "2024-01-15" = Raise ValueError.
Proof.
  apply (proj2 (proj2 (parse_yyyy_mm_outcomes "2024-01-15"))).
  vm_compute. discriminate.
Defined.



(** X4. Month bounds chain: for an accepted period of a year from 1 to
    9999, other than January of year 1 and December 9999, the start of
    its bounds is the end of the bounds of the period that
    [prev_month_str] returns. *)
Theorem month_bounds_chain (s : string) (y m : Z) :
  parse_yyyy_mm s = Ok (y, m) -> 1 <= y <= 9999 ->
  ~ (y = 1 /\ m = 1) -> ~ (y = 9999 /\ m = 12) ->
  exists (r : string) (a b c : datetime),
    prev_month_str s = Ok r
    /\ month_bounds_utc r = Ok (a, b)
    /\ month_bounds_utc s = Ok (b, c).
Proof.
  intros Hp Hy Hfirst Hlast. pose proof (parse_month_range _ _ _ Hp) as Hm.
  rewrite (month_bounds_of_parse s y m Hp Hy Hlast).
  unfold prev_month_str. rewrite Hp. cbn [bind].
  destruct (Z.eqb_spec m 1) as [->|Hne].
  - eexists _, _, _, _. split; [reflexivity|]. split; [|reflexivity].
    change (PyStr.str_of_int (y - 1) ++ "-12")%string
      with (PyStr.str_of_int (y - 1) ++ "-" ++ PyStr.fmt_02d 12)%string.
    rewrite (month_bounds_of_parse _ (y - 1) 12); try lia.
    + unfold next_month_start. cbn. now replace (y - 1 + 1) with y by lia.
    + apply parse_month_key; lia.
  - eexists _, _, _, _. split; [reflexivity|]. split; [|reflexivity].
    rewrite (month_bounds_of_parse _ y (m - 1)); try lia.
    + unfold next_month_start.
      destruct (Z.eqb_spec (m - 1) 12); [lia|].
      now replace (m - 1 + 1) with m by lia.
    + apply parse_month_key; lia.
Qed.

Lemma month_bounds_chain_witness :
  exists (r : string) (a b c : datetime),
    prev_month_str "2024-01" = Ok r
    /\ month_bounds_utc r = Ok (a, b)
    /\ month_bounds_utc "2024-01" = Ok (b, c).
Proof.
  apply (month_bounds_chain "2024-01" 2024 1); [reflexivity | lia | lia | lia].
Defined.

End PeriodKeys.

(* ================================================================== *)
(** * Ordinals and range bounds *)
(* ================================================================== *)

Section Ordinals.

Local Open Scope Z_scope.

Import DateSpec.

Lemma days_before_year_mono (y1 y2 : Z) :
  y1 <= y2 -> days_before_year y1 <= days_before_year y2.
Proof.
  intros H. unfold days_before_year. cbv zeta.
  Z.to_euclidean_division_equations. lia.
Qed.

Lemma days_before_month_end (y m : Z) :
  1 <= m <= 12 ->
  days_before_month y m + days_in_month y m
  = if m =? 12 then 365 + (if is_leap y then 1 else 0)
    else days_before_month y (m + 1).
Proof.
  intros H. apply month_cases in H.
  unfold days_before_month, days_in_month.
  repeat (destruct H as [->|H]; [destruct (is_leap y); reflexivity|]).
  subst; destruct (is_leap y); reflexivity.
Qed.

Lemma days_before_month_mono (y m1 m2 : Z) :
  1 <= m1 -> m1 <= m2 -> m2 <= 12 ->
  days_before_month y m1 <= days_before_month y m2.
Proof.
  intros H1 H12 H2.
  assert (C1 : 1 <= m1 <= 12) by lia. assert (C2 : 1 <= m2 <= 12) by lia.
  apply month_cases in C1. apply month_cases in C2.
  unfold days_before_month.
  repeat (destruct C1 as [->|C1]);
    repeat (destruct C2 as [->|C2]); subst; try lia;
    destruct (is_leap y); simpl; lia.
Qed.

Lemma days_before_month_bounds (y m : Z) :
  1 <= m <= 12 ->
  0 <= days_before_month y m
  /\ days_before_month y m + days_in_month y m
     <= 365 + (if is_leap y then 1 else 0).
Proof.
  intros H. apply month_cases in H.
  unfold days_before_month, days_in_month.
  repeat (destruct H as [->|H]; [destruct (is_leap y); simpl; lia|]).
  subst; destruct (is_leap y); simpl; lia.
Qed.

(** The ordinal of a date grows with the date. *)
Lemma toordinal_lt (a b : date) :
  valid_date a -> valid_date b ->
  date_ltb a b = true -> toordinal a < toordinal b.
Proof.
  intros Ha Hb Hlt.
  destruct (valid_date_fields _ Ha) as (Hay & Ham & Had).
  destruct (valid_date_fields _ Hb) as (Hby & Hbm & Hbd).
  apply date_ltb_spec in Hlt.
  unfold toordinal, ymd2ord.
  pose proof (days_before_month_bounds (year a) (Calendar.month a) Ham) as [A1 A2].
  pose proof (days_before_month_bounds (year b) (Calendar.month b) Hbm) as [B1 B2].
  destruct Hlt as [Hy|[Ey [Hm|[Em Hd]]]].
  - pose proof (days_before_year_succ (year a)) as Hs.
    pose proof (days_before_year_mono (year a + 1) (year b) ltac:(lia)).
    lia.
  - rewrite Ey in *.
    pose proof (days_before_month_end (year b) (Calendar.month a) Ham) as He.
    destruct (Z.eqb_spec (Calendar.month a) 12); [lia|].
    pose proof (days_before_month_mono (year b) (Calendar.month a + 1)
                  (Calendar.month b) ltac:(lia) ltac:(lia) ltac:(lia)).
    lia.
  - rewrite Ey, Em. lia.
Qed.

(** X5. For two valid dates, [range_bounds_utc] returns midnight of
    each; the difference of the two is a whole number of days, with no
    seconds left over, and it is positive when [start_d] is before
    [end_d]. *)
Theorem range_bounds_utc_days (start_d end_d : date) :
  valid_date start_d -> valid_date end_d ->
  range_bounds_utc start_d end_d = Ok (midnight start_d, midnight end_d)
  /\ datetime_sub (midnight end_d) (midnight start_d)
     = mktimedelta (days_between end_d start_d) 0
  /\ (date_ltb start_d end_d = true -> 0 < days_between end_d start_d).
Proof.
  intros Hs He. split; [|split].
  - unfold range_bounds_utc, datetime_new, date_new.
    unfold valid_date in Hs, He. rewrite Hs, He. cbn.
    destruct start_d, end_d; reflexivity.
  - unfold datetime_sub, midnight, seconds_of_day, days_between.
    cbn [dt_date hour minute second].
    replace ((toordinal end_d - toordinal start_d) * 86400
             + (0 * 3600 + 0 * 60 + 0 - (0 * 3600 + 0 * 60 + 0)))
      with ((toordinal end_d - toordinal start_d) * 86400) by lia.
    now rewrite Z.div_mul, Z.mod_mul by lia.
  - intros Hlt. unfold days_between.
    pose proof (toordinal_lt _ _ Hs He Hlt). lia.
Qed.

Lemma range_bounds_utc_days_witness :
  range_bounds_utc (mkdate 2024 2 26) (mkdate 2024 3 4)
  = Ok (midnight (mkdate 2024 2 26), midnight (mkdate 2024 3 4))
  /\ datetime_sub (midnight (mkdate 2024 3 4)) (midnight (mkdate 2024 2 26))
     = mktimedelta (days_between (mkdate 2024 3 4) (mkdate 2024 2 26)) 0
  /\ (date_ltb (mkdate 2024 2 26) (mkdate 2024 3 4) = true ->
      0 < days_between (mkdate 2024 3 4) (mkdate 2024 2 26)).
Proof.
  apply (range_bounds_utc_days (mkdate 2024 2 26) (mkdate 2024 3 4) eq_refl eq_refl).
Defined.

Example week_across_leap_day :
  days_between (mkdate 2024 3 4) (mkdate 2024 2 26) = 7.
Proof. reflexivity. Qed.

End Ordinals.

(* ================================================================== *)
(** * Months of a range: further properties *)
(* ================================================================== *)

Section MonthsOfRangeMore.

Local Open Scope Z_scope.

Import DateSpec.

Lemma start_before_index (start : date) (j : Z) :
  valid_date start ->
  date_ltb start (first_of_index j) = true
  <-> month_index (year start) (Calendar.month start) < j.
Proof.
  intros Hs. destruct (valid_date_fields _ Hs) as (Hy & Hm & Hd).
  rewrite date_ltb_spec.
  unfold first_of_index, index_year, index_month, month_index.
  cbn [year Calendar.month day].
  Z.to_euclidean_division_equations. lia.
Qed.

(** X6. The two repairs after the loop of [split_range_by_month] never
    change anything: for valid dates with [start < end_] the result,
    a list or an exception, is that of the loop started at the first
    day of the month of [start]. *)
Theorem split_repairs_are_idle (start end_ : date) :
  valid_date start -> valid_date end_ -> date_ltb start end_ = true ->
  split_range_by_month start end_
  = split_loop (split_fuel start end_)
      (mkdate (year start) (Calendar.month start) 1) end_ [].
Proof.
  intros Hs He Hlt.
  rewrite split_range_by_month_eq by assumption.
  assert (Hle : date_leb end_ start = false)
    by (unfold date_leb; now rewrite Hlt).
  rewrite Hle.
  destruct (valid_date_fields _ Hs) as (Hsy & Hsm & Hsd).
  destruct (valid_date_fields _ He) as (Hey & Hem & Hed).
  destruct (months_count start end_ Hs He Hlt) as [Hlo Hhi].
  set (i := month_index (year start) (Calendar.month start)) in *.
  destruct (index_of_month (year start) (Calendar.month start) Hsm) as [Ey Em].
  fold i in Ey, Em.
  assert (Hcur : mkdate (year start) (Calendar.month start) 1 = first_of_index i).
  { unfold first_of_index. now rewrite Ey, Em. }
  rewrite Hcur.
  assert (Hfuel : (Z.to_nat (last_index end_ - i + 1) < split_fuel start end_)%nat).
  { unfold split_fuel. unfold i, month_index in *. lia. }
  destruct (Z.ltb_spec (last_index end_) (month_index 9999 12)) as [Hok|Hover].
  - rewrite (split_loop_ok (Z.to_nat (last_index end_ - i + 1))); auto; lia.
  - assert (Hlast : last_index end_ = month_index 9999 12).
    { unfold last_index, month_index in *.
      destruct (Z.gtb_spec (day end_) 1); lia. }
    rewrite (split_loop_overflow (Z.to_nat (last_index end_ - i))); auto; lia.
Qed.

Lemma split_repairs_are_idle_witness :
  split_range_by_month (mkdate 2024 11 15) (mkdate 2025 2 2)
  = split_loop (split_fuel (mkdate 2024 11 15) (mkdate 2025 2 2))
      (mkdate 2024 11 1) (mkdate 2025 2 2) [].
Proof.
  apply (split_repairs_are_idle (mkdate 2024 11 15) (mkdate 2025 2 2)
           eq_refl eq_refl eq_refl).
Defined.

(** X7. Splitting a range at the first day of a month strictly inside
    it splits the list of months: when [end_] is no later than
    1 December 9999, the months of [[start, mid)] followed by the months
    of [[mid, end_)] are the months of [[start, end_)]. *)
Theorem split_range_concat (start mid end_ : date) :
  valid_date start -> valid_date mid -> valid_date end_ -> day mid = 1 ->
  date_ltb start mid = true -> date_ltb mid end_ = true ->
  date_leb end_ (mkdate 9999 12 1) = true ->
  exists l1 l2 : list string,
    split_range_by_month start mid = Ok l1
    /\ split_range_by_month mid end_ = Ok l2
    /\ split_range_by_month start end_ = Ok (l1 ++ l2).
Proof.
  intros Hs Hm He Hd Hsm Hme Hmax.
  assert (Hse : date_ltb start end_ = true) by (eapply date_ltb_trans; eauto).
  apply end_before_max in Hmax; [|exact He].
  pose proof (first_day_is_first_of_index mid Hm Hd) as Emid.
  destruct (valid_date_fields _ Hs) as (Hsy & Hsm' & Hsd).
  destruct (valid_date_fields _ He) as (_ & Hem & Hed).
  destruct (valid_date_fields _ Hm) as (Hmy & Hmm & _).
  set (im := month_index (year mid) (Calendar.month mid)) in *.
  set (i := month_index (year start) (Calendar.month start)).
  assert (Hi : i < im).
  { pose proof Hsm as H. rewrite Emid in H. now apply start_before_index in H. }
  assert (Hlast : im <= last_index end_).
  { pose proof Hme as H. rewrite Emid in H.
    apply (first_before_end im end_ Hem ltac:(lia)) in H. exact H. }
  assert (Hlm : last_index mid = im - 1).
  { unfold last_index. rewrite Hd. reflexivity. }
  rewrite !split_range_by_month_eq by assumption.
  unfold date_leb. rewrite Hsm, Hme, Hse. cbn [negb].
  rewrite Hlm. fold i. fold im.
  destruct (Z.ltb_spec (im - 1) (month_index 9999 12));
    [|unfold im, month_index in *; lia].
  destruct (Z.ltb_spec (last_index end_) (month_index 9999 12)); [|lia].
  eexists _, _. split; [reflexivity|]. split; [reflexivity|].
  rewrite <- map_app. do 2 f_equal.
  replace (Z.to_nat (last_index end_ - i + 1))
    with (Z.to_nat (im - 1 - i + 1) + Z.to_nat (last_index end_ - im + 1))%nat
    by lia.
  rewrite zrange_app. do 2 f_equal. lia.
Qed.

Lemma split_range_concat_witness :
  exists l1 l2 : list string,
    split_range_by_month (mkdate 2024 11 15) (mkdate 2025 1 1) = Ok l1
    /\ split_range_by_month (mkdate 2025 1 1) (mkdate 2025 2 2) = Ok l2
    /\ split_range_by_month (mkdate 2024 11 15) (mkdate 2025 2 2) = Ok (l1 ++ l2).
Proof.
  apply (split_range_concat (mkdate 2024 11 15) (mkdate 2025 1 1) (mkdate 2025 2 2)
           eq_refl eq_refl eq_refl eq_refl eq_refl eq_refl eq_refl).
Defined.

End MonthsOfRangeMore.

(* ================================================================== *)
(** * Budget prorator: further properties *)
(* ================================================================== *)

Section ProratorMore.

Local Open Scope Z_scope.

Import DateSpec.

Variable float_of_str : string -> option Q.
Variable fetch_month_budget : string -> string -> option budget_row.
Variable user_id : string.

Local Abbreviation step_ := (prorate_step float_of_str fetch_month_budget user_id).
Local Abbreviation loop_ := (prorate_loop float_of_str fetch_month_budget user_id).
Local Abbreviation total_ := (prorate_total float_of_str fetch_month_budget user_id).
Local Abbreviation prorate_ :=
  (prorate_monthly_budget_for_range float_of_str fetch_month_budget user_id).
Local Abbreviation budget_of b :=
  (py_float float_of_str (por (b_budget_amount b) (PFloat 0))).

Lemma step_grows (start end_ : date) (t t' : Q) (m : string) :
  step_ start end_ t m = Ok t' -> (t <= t')%Q.
Proof.
  unfold prorate_step.
  destruct (fetch_month_budget user_id m) as [b|];
    [|intros H; inversion H; apply Qle_refl].
  destruct (budget_of b) as [mb|e|]; cbn [bind]; try discriminate.
  destruct (Qle_bool mb 0) eqn:Emb; [intros H; inversion H; apply Qle_refl|].
  apply Qle_bool_false in Emb.
  destruct (month_bounds_utc m) as [[ms_dt me_dt]|e|]; cbn [bind];
    try discriminate.
  cbv zeta.
  destruct (date_leb _ _); [intros H; inversion H; apply Qle_refl|].
  destruct (Z.leb_spec (days_between (dt_date me_dt) (dt_date ms_dt)) 0) as [Hd'|Hd];
    cbn [orb]; [intros H; inversion H; apply Qle_refl|].
  destruct (Z.leb_spec
              (days_between (date_min end_ (dt_date me_dt))
                 (date_max start (dt_date ms_dt))) 0) as [Ho'|Ho];
    [intros H; inversion H; apply Qle_refl|].
  intros H. inversion H; subst. clear H.
  set (dim := days_between (dt_date me_dt) (dt_date ms_dt)) in *.
  set (od := days_between (date_min end_ (dt_date me_dt))
               (date_max start (dt_date ms_dt))) in *.
  assert (Hdim : (0 < inject_Z dim)%Q)
    by (change 0%Q with (inject_Z 0); now rewrite <- Zlt_Qlt).
  assert (Hod : (0 < inject_Z od)%Q)
    by (change 0%Q with (inject_Z 0); now rewrite <- Zlt_Qlt).
  assert (0 < mb / inject_Z dim)%Q.
  { unfold Qdiv. apply Qmult_lt_0_compat; [exact Emb|].
    now apply Qinv_lt_0_compat. }
  assert (0 < mb / inject_Z dim * inject_Z od)%Q
    by now apply Qmult_lt_0_compat.
  lra.
Qed.

Lemma loop_grows (start end_ : date) (l : list string) (t r : Q) :
  loop_ start end_ l t = Ok r -> (t <= r)%Q.
Proof.
  revert t; induction l as [|m l IH]; intros t; simpl.
  - intros H; inversion H; apply Qle_refl.
  - destruct (step_ start end_ t m) as [t'|e|] eqn:Es; cbn [bind];
      try discriminate.
    intros H. apply IH in H. apply step_grows in Es.
    now apply Qle_trans with t'.
Qed.

Lemma round2_zero : round2 0 = Qmake 0 100.
Proof. reflexivity. Qed.

(** X8. A prorated budget is never negative, whatever the range and
    whatever the stored budgets. *)
Theorem prorate_nonnegative (start end_ : date) (r : Q) :
  prorate_ start end_ = Ok r -> (0 <= r)%Q.
Proof.
  unfold prorate_monthly_budget_for_range.
  destruct (date_leb end_ start); [intros H; inversion H; apply Qle_refl|].
  unfold prorate_total.
  destruct (split_range_by_month start end_) as [months|e|]; cbn [bind];
    try discriminate.
  destruct (loop_ start end_ months 0%Q) as [t|e|] eqn:El; cbn [bind];
    try discriminate.
  intros H. inversion H; subst.
  apply loop_grows in El.
  apply Qle_trans with (round2 0); [rewrite round2_zero; discriminate|].
  now apply round2_mono.
Qed.

(** The months without a stored budget, or with a stored budget that is
    not positive, add nothing. *)
Lemma loop_without_budgets (start end_ : date) (l : list string) (t : Q) :
  (forall m b, fetch_month_budget user_id m = Some b ->
               exists q, budget_of b = Ok q /\ (q <= 0)%Q) ->
  loop_ start end_ l t = Ok t.
Proof.
  intros Hnone. revert t; induction l as [|m l IH]; intros t; simpl;
    [reflexivity|].
  assert (Es : step_ start end_ t m = Ok t).
  { unfold prorate_step.
    destruct (fetch_month_budget user_id m) as [b|] eqn:Ef; [|reflexivity].
    destruct (Hnone m b Ef) as (q & Eq & Hq). rewrite Eq. cbn [bind].
    apply Qle_bool_iff in Hq. now rewrite Hq. }
  rewrite Es. cbn [bind]. apply IH.
Qed.

(** X9. When no month of the user has a positive stored budget (no row,
    or a row whose budget is missing, zero or negative), the prorated
    budget of any range of valid dates that ends no later than
    1 December 9999 is 0. *)
Theorem prorate_without_budgets (start end_ : date) :
  valid_date start -> valid_date end_ ->
  date_leb end_ (mkdate 9999 12 1) = true ->
  (forall m b, fetch_month_budget user_id m = Some b ->
               exists q, budget_of b = Ok q /\ (q <= 0)%Q) ->
  exists r : Q, prorate_ start end_ = Ok r /\ (r == 0)%Q.
Proof.
  intros Hs He Hmax Hnone.
  unfold prorate_monthly_budget_for_range.
  destruct (date_leb end_ start) eqn:Hle; [exists 0%Q; split; reflexivity|].
  unfold prorate_total.
  rewrite split_range_by_month_eq by assumption. rewrite Hle.
  apply end_before_max in Hmax; [|exact He].
  destruct (Z.ltb_spec (last_index end_) (month_index 9999 12)); [|lia].
  cbn [bind]. rewrite loop_without_budgets by exact Hnone. cbn [bind].
  exists (round2 0). split; reflexivity.
Qed.

End ProratorMore.

Lemma prorate_nonnegative_witness :
  (0 <= Qmake 70000 100)%Q.
Proof.
  apply (prorate_nonnegative Sample.float_of_str Sample.fetch_month_budget "u"
           (mkdate 2024 1 25) (mkdate 2024 2 1)).
  vm_compute. reflexivity.
Defined.

Lemma prorate_without_budgets_witness :
  exists r : Q,
    prorate_monthly_budget_for_range Sample.float_of_str (fun _ _ => None) "u"
      (mkdate 2024 1 25) (mkdate 2024 2 8) = Ok r
    /\ (r == 0)%Q.
Proof.
  apply (prorate_without_budgets Sample.float_of_str (fun _ _ => None) "u"
           (mkdate 2024 1 25) (mkdate 2024 2 8) eq_refl eq_refl eq_refl).
  intros m b H. discriminate H.
Defined.

Section ProratorOneMonth.

Local Open Scope Z_scope.

Import DateSpec.

Variable float_of_str : string -> option Q.
Variable fetch_month_budget : string -> string -> option budget_row.
Variable user_id : string.

Local Abbreviation prorate_ :=
  (prorate_monthly_budget_for_range float_of_str fetch_month_budget user_id).
Local Abbreviation budget_of b :=
  (py_float float_of_str (por (b_budget_amount b) (PFloat 0))).

Lemma first_of_next_index (j : Z) :
  first_of_index (j + 1) = next_month_start (index_year j) (index_month j).
Proof.
  unfold next_month_start, first_of_index.
  assert (H : (index_month j = 12 /\ index_year (j + 1) = index_year j + 1
               /\ index_month (j + 1) = 1)
              \/ (index_month j <> 12 /\ index_year (j + 1) = index_year j
                  /\ index_month (j + 1) = index_month j + 1)).
  { unfold index_year, index_month. Z.to_euclidean_division_equations. lia. }
  destruct (Z.eqb_spec (index_month j) 12) as [E|E];
    destruct H as [(C1 & C2 & C3)|(C1 & C2 & C3)]; try contradiction;
    now rewrite C2, C3.
Qed.

Lemma month_bounds_of_index (j : Z) :
  month_index 1 1 <= j < month_index 9999 12 ->
  month_bounds_utc (key_of_index j)
  = Ok (midnight (first_of_index j), midnight (first_of_index (j + 1))).
Proof.
  intros Hj.
  assert (Hy : 1 <= index_year j <= 9999
               /\ ~ (index_year j = 9999 /\ index_month j = 12)).
  { unfold index_year, index_month, month_index in Hj |- *.
    Z.to_euclidean_division_equations. lia. }
  destruct Hy as [Hy Hlast].
  rewrite (month_bounds_of_parse _ (index_year j) (index_month j)); auto.
  - now rewrite first_of_next_index.
  - apply parse_key_of_index. unfold month_index in Hj. lia.
Qed.

(** The prorated budget of a range that lies within one month. *)
Lemma prorate_one_month (start end_ : date) (b : budget_row) (B : Q) :
  valid_date start -> valid_date end_ -> date_ltb start end_ = true ->
  last_index end_ = month_index (year start) (Calendar.month start) ->
  ~ (year start = 9999 /\ Calendar.month start = 12) ->
  fetch_month_budget user_id (_month_str start) = Some b ->
  budget_of b = Ok B -> (0 < B)%Q ->
  prorate_ start end_
  = Ok (round2 (B / inject_Z (days_in_month (year start) (Calendar.month start))
                * inject_Z (days_between end_ start))).
Proof.
  intros Hs He Hlt Hlast Hmax Hf HB Hpos.
  destruct (valid_date_fields _ Hs) as (Hsy & Hsm & Hsd).
  destruct (valid_date_fields _ He) as (Hey & Hem & Hed).
  set (i := month_index (year start) (Calendar.month start)) in *.
  destruct (index_of_month (year start) (Calendar.month start) Hsm) as [Ey Em].
  fold i in Ey, Em.
  assert (Hi : month_index 1 1 <= i < month_index 9999 12)
    by (unfold i, month_index; lia).
  unfold prorate_monthly_budget_for_range, prorate_total.
  rewrite split_range_by_month_eq by assumption.
  assert (Hle : date_leb end_ start = false)
    by (unfold date_leb; now rewrite Hlt).
  rewrite Hle. fold i. rewrite Hlast.
  destruct (Z.ltb_spec i (month_index 9999 12)); [|lia].
  replace (Z.to_nat (i - i + 1)) with 1%nat by lia.
  cbn [zrange map bind prorate_loop].
  unfold prorate_step.
  assert (Hkey : key_of_index i = _month_str start)
    by (apply key_of_month; exact Hsm).
  rewrite Hkey, Hf, HB. cbn [bind].
  apply Qle_bool_false in Hpos. rewrite Hpos.
  rewrite <- Hkey.
  rewrite month_bounds_of_index by exact Hi.
  cbn [bind]. cbv zeta. unfold midnight. cbn [dt_date].
  assert (E1 : date_max start (first_of_index i) = start).
  { unfold date_max.
    destruct (date_ltb start (first_of_index i)) eqn:E; [|reflexivity].
    apply start_before_index in E; auto. fold i in E. lia. }
  assert (E2 : date_min end_ (first_of_index (i + 1)) = end_).
  { unfold date_min.
    destruct (date_ltb (first_of_index (i + 1)) end_) eqn:E; [|reflexivity].
    apply first_before_end in E; auto; lia. }
  rewrite E1, E2, Hle.
  assert (Hdim : days_between (first_of_index (i + 1)) (first_of_index i)
                 = days_in_month (year start) (Calendar.month start)).
  { rewrite first_of_next_index. unfold first_of_index, days_between.
    rewrite Ey, Em. now apply month_length. }
  rewrite Hdim.
  pose proof (days_in_month_range (year start) (Calendar.month start) Hsm) as Hr.
  pose proof (toordinal_lt _ _ Hs He Hlt) as Hord.
  destruct (Z.leb_spec (days_in_month (year start) (Calendar.month start)) 0);
    [lia|].
  destruct (Z.leb_spec (days_between end_ start) 0);
    [unfold days_between in *; lia|].
  cbn [orb bind]. f_equal. apply round2_compat. ring.
Qed.



End ProratorOneMonth.



(* ================================================================== *)
(** * Category normalizer: further properties *)
(* ================================================================== *)

Section NormalizerMore.

Variable T : Type.

Lemma lower_char_idem (c : ascii) :
  PyStr.lower_char (PyStr.lower_char c) = PyStr.lower_char c.
Proof. destruct c as [[] [] [] [] [] [] [] []]; reflexivity. Qed.

Lemma is_space_lower_char (c : ascii) :
  PyStr.is_space (PyStr.lower_char c) = PyStr.is_space c.
Proof. destruct c as [[] [] [] [] [] [] [] []]; reflexivity. Qed.

Lemma lower_idem (s : string) : PyStr.lower (PyStr.lower s) = PyStr.lower s.
Proof.
  induction s as [|c r IH]; simpl; [reflexivity|].
  now rewrite lower_char_idem, IH.
Qed.

Lemma lstrip_lower (s : string) :
  PyStr.lstrip (PyStr.lower s) = PyStr.lower (PyStr.lstrip s).
Proof.
  induction s as [|c r IH]; simpl; [reflexivity|].
  rewrite is_space_lower_char. destruct (PyStr.is_space c); [exact IH | reflexivity].
Qed.

Lemma rstrip_lower (s : string) :
  PyStr.rstrip (PyStr.lower s) = PyStr.lower (PyStr.rstrip s).
Proof.
  induction s as [|c r IH]; simpl; [reflexivity|].
  rewrite IH, is_space_lower_char.
  destruct (PyStr.rstrip r); simpl; [destruct (PyStr.is_space c)|]; reflexivity.
Qed.

Lemma strip_lower (s : string) :
  PyStr.strip (PyStr.lower s) = PyStr.lower (PyStr.strip s).
Proof. unfold PyStr.strip. now rewrite lstrip_lower, rstrip_lower. Qed.

Lemma rstrip_cons (c : ascii) (r : string) :
  PyStr.rstrip (String c r)
  = match PyStr.rstrip r with
    | EmptyString => if PyStr.is_space c then EmptyString else String c EmptyString
    | r' => String c r'
    end.
Proof. reflexivity. Qed.

Lemma rstrip_idem (s : string) : PyStr.rstrip (PyStr.rstrip s) = PyStr.rstrip s.
Proof.
  induction s as [|c r IH]; [reflexivity|].
  rewrite (rstrip_cons c r).
  destruct (PyStr.rstrip r) as [|c' r'] eqn:E.
  - destruct (PyStr.is_space c) eqn:Ec; [reflexivity|].
    rewrite rstrip_cons. cbn [PyStr.rstrip]. now rewrite Ec.
  - rewrite rstrip_cons, IH. reflexivity.
Qed.

Lemma lstrip_head (s : string) :
  PyStr.lstrip s = ""
  \/ exists c r, PyStr.lstrip s = String c r /\ PyStr.is_space c = false.
Proof.
  induction s as [|c r IH]; simpl; [now left|].
  destruct (PyStr.is_space c) eqn:E; [exact IH|]. right. eauto.
Qed.

Lemma rstrip_keeps_head (c : ascii) (r : string) :
  PyStr.is_space c = false ->
  exists r', PyStr.rstrip (String c r) = String c r'.
Proof.
  intros H. simpl. destruct (PyStr.rstrip r); [rewrite H|]; eauto.
Qed.

Lemma strip_idem (s : string) : PyStr.strip (PyStr.strip s) = PyStr.strip s.
Proof.
  unfold PyStr.strip.
  destruct (lstrip_head s) as [E|(c & r & E & Hc)]; rewrite E.
  - reflexivity.
  - destruct (rstrip_keeps_head c r Hc) as (r' & E').
    rewrite E'. cbn [PyStr.lstrip]. rewrite Hc, <- E'. apply rstrip_idem.
Qed.

(** The result of [normalize_category] is trimmed and lower-cased. *)
Lemma normalize_category_normal (e : entry T) :
  PyStr.lower (PyStr.strip (normalize_category T e)) = normalize_category T e.
Proof.
  assert (N : forall x, PyStr.lower (PyStr.strip (PyStr.lower (PyStr.strip x)))
                        = PyStr.lower (PyStr.strip x)).
  { intros x. now rewrite strip_lower, strip_idem, lower_idem. }
  unfold normalize_category.
  destruct (PyStr.truthy (PyStr.lower (PyStr.strip (PyStr.or_empty
              (e_category_normalized e))))); [apply N|].
  set (c := PyStr.lower (PyStr.strip (PyStr.or_empty (e_category e)))).
  destruct (PyStr.contains "utility" c); [reflexivity|].
  destruct (_ || _)%bool; [reflexivity|].
  destruct (PyStr.contains "groc" c); [reflexivity|].
  destruct (PyStr.contains "shop" c); [reflexivity|].
  destruct (_ || _)%bool; [reflexivity|].
  destruct (PyStr.contains "food" c); [reflexivity|].
  destruct (PyStr.contains "rent" c); [reflexivity|].
  destruct (PyStr.truthy c); [apply N | reflexivity].
Qed.

Lemma normalize_category_not_empty (e : entry T) :
  normalize_category T e <> "".
Proof.
  unfold normalize_category.
  destruct (PyStr.truthy (PyStr.lower (PyStr.strip (PyStr.or_empty
              (e_category_normalized e))))) eqn:E1.
  - intros H. rewrite H in E1. discriminate E1.
  - set (c := PyStr.lower (PyStr.strip (PyStr.or_empty (e_category e)))).
    destruct (PyStr.contains "utility" c); [discriminate|].
    destruct (_ || _)%bool; [discriminate|].
    destruct (PyStr.contains "groc" c); [discriminate|].
    destruct (PyStr.contains "shop" c); [discriminate|].
    destruct (_ || _)%bool; [discriminate|].
    destruct (PyStr.contains "food" c); [discriminate|].
    destruct (PyStr.contains "rent" c); [discriminate|].
    destruct (PyStr.truthy c) eqn:E2; [|discriminate].
    intros H. rewrite H in E2. discriminate E2.
Qed.

(** X12. [normalize_category] never returns the empty string: its
    result is a non-empty, trimmed, lower-case string. *)
Theorem normalize_category_nonempty (e : entry T) :
  PyStr.truthy (normalize_category T e) = true
  /\ PyStr.lower (PyStr.strip (normalize_category T e)) = normalize_category T e.
Proof.
  split; [|apply normalize_category_normal].
  destruct (normalize_category T e) eqn:E; [|reflexivity].
  exfalso. now apply (normalize_category_not_empty e).
Qed.

(** X13. Normalization is stable: an entry whose [category_normalized]
    holds the result of normalizing some entry is normalized to that
    same result, whatever its raw category. *)
Theorem normalize_category_stable (e e' : entry T) :
  e_category_normalized e' = Some (normalize_category T e) ->
  normalize_category T e' = normalize_category T e.
Proof.
  intros H. unfold normalize_category at 1. rewrite H.
  cbn [PyStr.or_empty]. rewrite normalize_category_normal.
  destruct (normalize_category T e) eqn:E; [|reflexivity].
  exfalso. now apply (normalize_category_not_empty e).
Qed.

End NormalizerMore.

Lemma normalize_category_stable_witness :
  normalize_category unit
    (mkentry PNone TsNone (Some "Savings") (Some "grocery") None None None)
  = normalize_category unit
      (mkentry PNone TsNone (Some " Grocery Store ") None None None None).
Proof.
  apply (normalize_category_stable unit
           (mkentry PNone TsNone (Some " Grocery Store ") None None None None)
           (mkentry PNone TsNone (Some "Savings") (Some "grocery") None None None)).
  reflexivity.
Defined.

(* ================================================================== *)
(** * Insight engine: further properties *)
(* ================================================================== *)

Section InsightMore.

Variable float_of_str : string -> option Q.
Variable T : Type.
Variable fromisoformat : string -> option T.
Variable utc_day : T -> string.

Local Open Scope Q_scope.

Import MoreSpec.

Local Abbreviation step_ := (step float_of_str T fromisoformat utc_day).
Local Abbreviation run_ := (run float_of_str T fromisoformat utc_day).
Local Abbreviation amount_ := (InsightSpec.amount_of float_of_str T).
Local Abbreviation compute_ := (compute_insights float_of_str T fromisoformat utc_day).
Local Abbreviation counted := (InsightSpec.counted float_of_str T).
Local Abbreviation restaurant_entry := (InsightSpec.restaurant_entry float_of_str T).
Local Abbreviation step_count_ := (step_count float_of_str T fromisoformat utc_day).
Local Abbreviation step_skip_ := (step_skip float_of_str T fromisoformat utc_day).
Local Abbreviation run_invariant_ := (run_invariant float_of_str T fromisoformat utc_day).

Lemma base_is_not_food (c : string) :
  str_mem c DISCRETIONARY_BASE = true -> String.eqb c "food" = false.
Proof.
  intros H. destruct (String.eqb_spec c "food") as [->|]; [|reflexivity].
  vm_compute in H. discriminate H.
Qed.

Lemma totals_bounds (entries : list (entry T)) :
  0 <= restaurant_food (run_ entries)
  /\ restaurant_food (run_ entries) <= discretionary (run_ entries)
  /\ discretionary (run_ entries) <= spent (run_ entries).
Proof.
  apply run_invariant_; [simpl; lra|].
  intros st e (H0 & H1 & H2). destruct (counted e) eqn:Hc.
  - pose proof (counted_positive float_of_str T e Hc) as Hpos.
    destruct (step_count_ st e Hc) as (Hs & _ & _ & Hr & Hd).
    rewrite Hs, Hr, Hd. cbv zeta.
    unfold InsightSpec.restaurant_entry.
    destruct (str_mem (normalize_category T e) DISCRETIONARY_BASE) eqn:Eb.
    + rewrite (base_is_not_food _ Eb). cbn [andb]. lra.
    + destruct (_ && _)%bool; lra.
  - now rewrite step_skip_.
Qed.

(** X14. In the result of [compute_insights] the restaurant-food and
    discretionary totals are between 0 and the spent total. *)
Theorem totals_within_spent
  (entries : list (entry T)) (b : budget_row) (p : string) (k : option string) :
  let out := compute_ entries b p k in
  0 <= restaurant_food_total out
  /\ 0 <= discretionary_total out
  /\ restaurant_food_total out <= spent_total out
  /\ discretionary_total out <= spent_total out.
Proof.
  destruct (totals_bounds entries) as (H0 & H1 & H2).
  cbv zeta. unfold compute_insights. cbn [restaurant_food_total
    discretionary_total spent_total].
  assert (Z0 : round2 0 == 0) by reflexivity.
  repeat split.
  - rewrite <- Z0. apply round2_mono. exact H0.
  - rewrite <- Z0. apply round2_mono. lra.
  - apply round2_mono. lra.
  - apply round2_mono. exact H2.
Qed.

(** ** Keys of the per-category totals *)

Lemma dict_add_keys (k : string) (v : Q) (d : list (string * Q)) :
  map fst (dict_add k v d)
  = if str_mem k (map fst d) then map fst d else map fst d ++ [k].
Proof.
  unfold str_mem. induction d as [|[k' x] d IH]; simpl; [reflexivity|].
  rewrite (String.eqb_sym k k').
  destruct (String.eqb k' k); simpl; [reflexivity|].
  rewrite IH. destruct (existsb (String.eqb k) (map fst d)); reflexivity.
Qed.

Lemma str_mem_In (x : string) (l : list string) : str_mem x l = true <-> In x l.
Proof.
  unfold str_mem. rewrite existsb_exists. split.
  - intros (y & Hy & E). apply String.eqb_eq in E. now subst.
  - intros H. exists x. split; [exact H | apply String.eqb_refl].
Qed.

Lemma dict_add_keys_nodup (k : string) (v : Q) (d : list (string * Q)) :
  NoDup (map fst d) -> NoDup (map fst (dict_add k v d)).
Proof.
  intros H. rewrite dict_add_keys.
  destruct (str_mem k (map fst d)) eqn:E; [exact H|].
  apply NoDup_app; [exact H | repeat constructor; intros [] | ].
  intros x Hx [<-|[]].
  apply str_mem_In in Hx. congruence.
Qed.

Lemma dict_add_keys_in (k k' : string) (v : Q) (d : list (string * Q)) :
  In k' (map fst (dict_add k v d)) <-> k' = k \/ In k' (map fst d).
Proof.
  rewrite dict_add_keys.
  destruct (str_mem k (map fst d)) eqn:E.
  - apply str_mem_In in E. split; [now right | intros [->|H]; assumption].
  - rewrite in_app_iff. simpl. split; [intros [H|[H|[]]]; auto | intros [->|H]; auto].
Qed.

Lemma totals_keys (entries : list (entry T)) :
  NoDup (map fst (totals_by_cat (run_ entries)))
  /\ forall c, In c (map fst (totals_by_cat (run_ entries)))
               <-> exists e, In e entries /\ counted e = true
                             /\ normalize_category T e = c.
Proof.
  unfold run.
  assert (G : forall l st,
             NoDup (map fst (totals_by_cat st)) ->
             NoDup (map fst (totals_by_cat (fold_left step_ l st)))
             /\ forall c, In c (map fst (totals_by_cat (fold_left step_ l st)))
                          <-> In c (map fst (totals_by_cat st))
                              \/ exists e, In e l /\ counted e = true
                                           /\ normalize_category T e = c).
  { induction l as [|e l IH]; intros st Hnd; simpl.
    - split; [exact Hnd|]. intros c. split; [now left|].
      intros [H|(e & [] & _)]. exact H.
    - destruct (counted e) eqn:Hc.
      + destruct (step_count_ st e Hc) as (_ & Ht & _).
        destruct (IH (step_ st e)) as [N I].
        { rewrite Ht. now apply dict_add_keys_nodup. }
        split; [exact N|]. intros c. rewrite I, Ht, dict_add_keys_in.
        split.
        * intros [[->|H]|(e' & Hin & Hc' & E)]; eauto 6.
        * intros [H|(e' & [->|Hin] & Hc' & E)]; eauto 6.
      + rewrite (step_skip_ st e Hc).
        destruct (IH st Hnd) as [N I]. split; [exact N|].
        intros c. rewrite I. split.
        * intros [H|(e' & Hin & Hc' & E)]; eauto 6.
        * intros [H|(e' & [->|Hin] & Hc' & E)]; eauto 6. congruence. }
  destruct (G entries acc0 (NoDup_nil _)) as [N I].
  split; [exact N|]. intros c. rewrite I. simpl. tauto.
Qed.

(** X15. The keys of [totals_by_category] are pairwise distinct; they
    are exactly the normalized categories of the entries with a
    positive amount and a category outside the exclusion set, so
    ["funds_transfer"] is never among them. *)
Theorem totals_by_category_keys
  (entries : list (entry T)) (b : budget_row) (p : string) (k : option string) :
  let keys := map fst (totals_by_category (compute_ entries b p k)) in
  NoDup keys
  /\ (forall c, In c keys
                <-> exists e, In e entries /\ 0 < amount_ e
                              /\ normalize_category T e = c
                              /\ c <> "funds_transfer"%string)
  /\ ~ In "funds_transfer"%string keys.
Proof.
  cbv zeta. unfold compute_insights. cbn [totals_by_category].
  rewrite map_map. cbn [fst].
  destruct (totals_keys entries) as [N I].
  assert (C : forall e c, normalize_category T e = c ->
                (counted e = true <-> 0 < amount_ e /\ c <> "funds_transfer"%string)).
  { intros e c <-. unfold InsightSpec.counted, InsightSpec.excluded.
    rewrite andb_true_iff, negb_true_iff, positive_spec.
    unfold str_mem, EXCLUDE_CATS. cbn [existsb]. rewrite orb_false_r.
    destruct (String.eqb_spec (normalize_category T e) "funds_transfer");
      split; intros [H1 H2]; split; auto; congruence. }
  split; [exact N|]. split.
  - intros c. rewrite I. split.
    + intros (e & Hin & Hc & E). exists e. apply (C e c E) in Hc. tauto.
    + intros (e & Hin & Hp & E & Hne). exists e. repeat split; auto.
      apply (C e c E). tauto.
  - rewrite I. intros (e & _ & Hc & E). apply (C e _ E) in Hc. tauto.
Qed.

End InsightMore.

Section TopCategories.

Variable float_of_str : string -> option Q.
Variable T : Type.
Variable fromisoformat : string -> option T.
Variable utc_day : T -> string.

Local Open Scope Q_scope.

Import MoreSpec.

Local Abbreviation compute_ := (compute_insights float_of_str T fromisoformat utc_day).

Lemma insert_desc_perm (x : string * Q) (l : list (string * Q)) :
  Permutation (insert_desc x l) (x :: l).
Proof.
  induction l as [|y l IH]; simpl; [reflexivity|].
  destruct (Qle_bool (snd y) (snd x)); [reflexivity|].
  rewrite IH. apply perm_swap.
Qed.

Lemma sorted_desc_perm (l : list (string * Q)) :
  Permutation (sorted_desc l) l.
Proof.
  induction l as [|x l IH]; simpl; [reflexivity|].
  rewrite insert_desc_perm. now constructor.
Qed.

Lemma amount_ge_trans (a b c : string * Q) :
  amount_ge a b -> amount_ge b c -> amount_ge a c.
Proof. unfold amount_ge. intros H1 H2. now apply Qle_trans with (snd b). Qed.

Lemma insert_desc_sorted (x : string * Q) (l : list (string * Q)) :
  StronglySorted amount_ge l ->
  StronglySorted amount_ge (insert_desc x l).
Proof.
  induction 1 as [|y l Hs IH Hall]; simpl.
  - repeat constructor.
  - destruct (Qle_bool (snd y) (snd x)) eqn:E.
    + apply Qle_bool_iff in E. constructor.
      * now constructor.
      * constructor; [exact E|].
        eapply Forall_impl; [|exact Hall].
        intros z Hz. unfold amount_ge in *. now apply Qle_trans with (snd y).
    + apply Qle_bool_false in E. constructor; [exact IH|].
      apply (Permutation_Forall
               (Permutation_sym (insert_desc_perm x l))).
      constructor; [|exact Hall].
      unfold amount_ge. now apply Qlt_le_weak.
Qed.

Lemma sorted_desc_sorted (l : list (string * Q)) :
  StronglySorted amount_ge (sorted_desc l).
Proof.
  induction l as [|x l IH]; simpl; [constructor|].
  now apply insert_desc_sorted.
Qed.

Lemma strongly_sorted_map_round (l : list (string * Q)) :
  StronglySorted amount_ge l ->
  StronglySorted amount_ge (map (fun kv => (fst kv, round2 (snd kv))) l).
Proof.
  induction 1 as [|y l Hs IH Hall]; simpl; constructor; [exact IH|].
  apply Forall_map. eapply Forall_impl; [|exact Hall].
  intros z Hz. unfold amount_ge in *. simpl. now apply round2_mono.
Qed.

Lemma in_firstn_or_skipn (n : nat) (l : list (string * Q)) (x : string * Q) :
  In x (firstn n l) \/ In x (skipn n l) -> In x l.
Proof. intros H. rewrite <- (firstn_skipn n l). now apply in_or_app. Qed.

Lemma strongly_sorted_split (l : list (string * Q)) (n : nat) :
  StronglySorted amount_ge l ->
  StronglySorted amount_ge (firstn n l)
  /\ forall a b, In a (firstn n l) -> In b (skipn n l) -> amount_ge a b.
Proof.
  intros Hs. revert n; induction Hs as [|y l Hs IH Hall]; intros n.
  - rewrite firstn_nil, skipn_nil. split; [constructor | intros a b []].
  - destruct n as [|n]; simpl.
    + split; [constructor | intros a b []].
    + destruct (IH n) as [S1 S2]. split.
      * constructor; [exact S1|].
        rewrite Forall_forall in Hall |- *.
        intros z Hz. apply Hall. apply (in_firstn_or_skipn n). now left.
      * intros a b [<-|Ha] Hb; [|now apply S2].
        rewrite Forall_forall in Hall. apply Hall.
        apply (in_firstn_or_skipn n). now right.
Qed.

(** X16. [top_categories] holds the [min 5 n] largest of the [n]
    entries of [totals_by_category]: it is in descending order of
    amount, and with some list of remaining entries, none of them
    larger than any top entry, it is a rearrangement of
    [totals_by_category]. *)
Theorem top_categories_largest
  (entries : list (entry T)) (b : budget_row) (p : string) (k : option string) :
  let out := compute_ entries b p k in
  List.length (top_categories out)
  = Nat.min 5 (List.length (totals_by_category out))
  /\ StronglySorted amount_ge (top_categories out)
  /\ exists rest : list (string * Q),
       Permutation (top_categories out ++ rest) (totals_by_category out)
       /\ forall a c, In a (top_categories out) -> In c rest -> amount_ge a c.
Proof.
  cbv zeta. unfold compute_insights. cbn [top_categories totals_by_category].
  set (tot := totals_by_cat (run float_of_str T fromisoformat utc_day entries)).
  set (rnd := fun kv : string * Q => (fst kv, round2 (snd kv))).
  pose proof (sorted_desc_perm tot) as Hperm.
  pose proof (sorted_desc_sorted tot) as Hsorted.
  split; [|split].
  - rewrite !length_map, length_firstn.
    now rewrite (Permutation_length Hperm).
  - apply strongly_sorted_map_round.
    now apply (strongly_sorted_split (sorted_desc tot) 5).
  - exists (map rnd (skipn 5 (sorted_desc tot))). split.
    + rewrite <- map_app, firstn_skipn. now apply Permutation_map.
    + intros a c Ha Hc.
      pose proof (strongly_sorted_map_round _ Hsorted) as Hs'.
      fold rnd in Hs'.
      rewrite <- firstn_map in Ha. rewrite <- skipn_map in Hc.
      now apply (proj2 (strongly_sorted_split _ 5 Hs')).
Qed.

End TopCategories.

Section WarningsMore.

Variable float_of_str : string -> option Q.
Variable T : Type.
Variable fromisoformat : string -> option T.
Variable utc_day : T -> string.

Local Open Scope Q_scope.

Import MoreSpec.

Local Abbreviation run_ := (run float_of_str T fromisoformat utc_day).
Local Abbreviation compute_ := (compute_insights float_of_str T fromisoformat utc_day).

(** Membership in the selected subsequence of the five codes. *)
Lemma in_select_codes (f1 f2 f3 f4 f5 : bool) :
  let w := InsightSpec.select [f1; f2; f3; f4; f5] InsightSpec.warning_codes in
  (In OVER_BUDGET w <-> f1 = true)
  /\ (In RENT_HIGH w <-> f2 = true)
  /\ (In SPIKE_DETECTED w <-> f5 = true).
Proof.
  destruct f1, f2, f3, f4, f5; cbv zeta; simpl; repeat split;
    try (intros _; tauto); try discriminate;
    try (intros H; repeat (destruct H as [H|H]; try discriminate H); tauto).
Qed.

(** X17. [OVER_BUDGET] and [remaining] agree: when the warning is
    present [remaining] is not positive, and when [remaining] is
    negative the warning is present.  Without a positive budget amount
    (missing, zero or negative) [remaining] is 0 and neither
    [OVER_BUDGET] nor [RENT_HIGH] is raised. *)
Theorem over_budget_and_remaining
  (entries : list (entry T)) (b : budget_row) (p : string) (k : option string) :
  let out := compute_ entries b p k in
  (In OVER_BUDGET (warnings out) -> remaining out <= 0)
  /\ (remaining out < 0 -> In OVER_BUDGET (warnings out))
  /\ (resolve_budget float_of_str b <= 0 ->
      remaining out == 0
      /\ ~ In OVER_BUDGET (warnings out) /\ ~ In RENT_HIGH (warnings out)).
Proof.
  cbv zeta. unfold compute_insights. cbn [warnings remaining].
  set (budget := resolve_budget float_of_str b).
  set (st := run_ entries).
  rewrite warnings_of_select.
  match goal with
  | |- context [InsightSpec.select [?a; ?b; ?c; ?d; ?e] _] =>
      destruct (in_select_codes a b c d e) as (I1 & I2 & _)
  end.
  cbv zeta in I1, I2.
  assert (Z0 : round2 0 == 0) by reflexivity.
  split; [|split].
  - rewrite I1, andb_true_iff, !Qlt_bool_iff. intros [Hb Hs].
    apply Qlt_bool_iff in Hb as Hb'. rewrite Hb'.
    rewrite <- Z0. apply round2_mono. lra.
  - rewrite I1, andb_true_iff, !Qlt_bool_iff.
    destruct (Qlt_bool 0 budget) eqn:Eb.
    + apply Qlt_bool_iff in Eb. intros Hr. split; [exact Eb|].
      apply Qnot_le_lt. intros Hle.
      assert (round2 0 <= round2 (budget - spent st))
        by (apply round2_mono; lra).
      lra.
    + intros Hr. exfalso. rewrite Z0 in Hr. lra.
  - intros Hle.
    assert (Eb : Qlt_bool 0 budget = false).
    { destruct (Qlt_bool 0 budget) eqn:E; [|reflexivity].
      apply Qlt_bool_iff in E. lra. }
    rewrite I1, I2, Eb. cbn [andb]. split; [exact Z0 | split; discriminate].
Qed.


(** X19. [SPIKE_DETECTED] needs at least three day buckets: with
    transactions on fewer than three distinct days the warning is never
    raised. *)
Theorem spike_needs_three_days
  (entries : list (entry T)) (b : budget_row) (p : string) (k : option string) :
  In SPIKE_DETECTED (warnings (compute_ entries b p k)) ->
  (3 <= List.length (daily_totals (run_ entries)))%nat.
Proof.
  unfold compute_insights. cbn [warnings].
  set (st := run_ entries). rewrite warnings_of_select.
  match goal with
  | |- context [InsightSpec.select [?a; ?b; ?c; ?d; ?e] _] =>
      destruct (in_select_codes a b c d e) as (_ & _ & I5)
  end.
  cbv zeta in I5. rewrite I5. clear I5.
  pose proof (daily_positive float_of_str T fromisoformat utc_day entries) as Hpos.
  fold st in Hpos.
  intros Hsp. apply spike_cond_iff in Hsp; [|exact Hpos].
  destruct Hsp as (_ & m & [Hin Hmax] & Havg & _).
  unfold InsightSpec.avg_day, dict_values in *.
  rewrite length_map in Havg.
  destruct (daily_totals st) as [|[k1 a] [|[k2 c] [|kv3 l]]]; simpl in *;
    [contradiction | | | lia].
  - inversion Hpos as [|? ? Ha _]; subst. simpl in Ha.
    destruct Hin as [<-|[]]. exfalso.
    rewrite sum_cons, sum_nil in Havg.
    change (inject_Z 1) with 1 in Havg.
    assert (a + 0 == (a + 0) / 1) by (field). lra.
  - inversion Hpos as [|? ? Ha Hpos']; subst.
    inversion Hpos' as [|? ? Hc _]; subst. simpl in Ha, Hc.
    exfalso. rewrite !sum_cons, sum_nil in Havg.
    change (inject_Z 2) with 2 in Havg.
    assert (E : (a + (c + 0)) / 2 == (a + c) * (1 # 2)) by field.
    rewrite E in Havg.
    destruct Hin as [<-|[<-|[]]]; lra.
Qed.

End WarningsMore.

Lemma spike_needs_three_days_witness :
  (3 <= List.length
          (daily_totals
             (run Sample.float_of_str date Sample.fromisoformat Sample.utc_day
                [ Sample.entry_of (PFloat 100) (TsOther "2024-01-01") "rent";
                  Sample.entry_of (PFloat 100) (TsOther "2024-01-02") "rent";
                  Sample.entry_of (PFloat 9000) (TsOther "2024-01-03") "rent" ])))%nat.
Proof.
  apply (spike_needs_three_days Sample.float_of_str date Sample.fromisoformat
           Sample.utc_day _ Sample.no_budget "month" None).
  vm_compute. tauto.
Defined.

Section EntriesMore.

Variable float_of_str : string -> option Q.
Variable T : Type.
Variable fromisoformat : string -> option T.
Variable utc_day : T -> string.

Local Open Scope Q_scope.

Local Abbreviation step_ := (step float_of_str T fromisoformat utc_day).
Local Abbreviation run_ := (run float_of_str T fromisoformat utc_day).
Local Abbreviation amount_ := (InsightSpec.amount_of float_of_str T).
Local Abbreviation compute_ := (compute_insights float_of_str T fromisoformat utc_day).
Local Abbreviation counted := (InsightSpec.counted float_of_str T).
Local Abbreviation step_count_ := (step_count float_of_str T fromisoformat utc_day).
Local Abbreviation step_skip_ := (step_skip float_of_str T fromisoformat utc_day).

(** Agreement of two loop states on the three running sums. *)
Local Abbreviation sums_eq st st' :=
  (spent st == spent st' /\ discretionary st == discretionary st'
   /\ restaurant_food st == restaurant_food st').

Lemma step_sums_eq (st st' : acc) (e : entry T) :
  sums_eq st st' -> sums_eq (step_ st e) (step_ st' e).
Proof.
  intros (Hs & Hd & Hr). destruct (counted e) eqn:Hc.
  - destruct (step_count_ st e Hc) as (E1 & _ & _ & E4 & E5).
    destruct (step_count_ st' e Hc) as (F1 & _ & _ & F4 & F5).
    rewrite E1, E4, E5, F1, F4, F5. cbv zeta.
    destruct (InsightSpec.restaurant_entry float_of_str T e);
      destruct (str_mem (normalize_category T e) DISCRETIONARY_BASE);
      repeat split; lra.
  - rewrite !step_skip_ by assumption. auto.
Qed.

Lemma fold_sums_eq (l : list (entry T)) (st st' : acc) :
  sums_eq st st' -> sums_eq (fold_left step_ l st) (fold_left step_ l st').
Proof.
  revert st st'; induction l as [|e l IH]; intros st st' H; simpl; [exact H|].
  apply IH. now apply step_sums_eq.
Qed.

Lemma step_swap_sums_eq (st st' : acc) (a b : entry T) :
  sums_eq st st' ->
  sums_eq (step_ (step_ st a) b) (step_ (step_ st' b) a).
Proof.
  intros (Hs & Hd & Hr).
  destruct (counted a) eqn:Ha; destruct (counted b) eqn:Hb.
  - destruct (step_count_ st a Ha) as (A1 & _ & _ & A4 & A5).
    destruct (step_count_ (step_ st a) b Hb) as (B1 & _ & _ & B4 & B5).
    destruct (step_count_ st' b Hb) as (C1 & _ & _ & C4 & C5).
    destruct (step_count_ (step_ st' b) a Ha) as (D1 & _ & _ & D4 & D5).
    rewrite B1, B4, B5, A1, A4, A5, D1, D4, D5, C1, C4, C5. cbv zeta.
    destruct (InsightSpec.restaurant_entry float_of_str T a);
      destruct (str_mem (normalize_category T a) DISCRETIONARY_BASE);
      destruct (InsightSpec.restaurant_entry float_of_str T b);
      destruct (str_mem (normalize_category T b) DISCRETIONARY_BASE);
      repeat split; lra.
  - rewrite (step_skip_ (step_ st a) b Hb), (step_skip_ st' b Hb).
    apply step_sums_eq. auto.
  - rewrite (step_skip_ st a Ha), (step_skip_ (step_ st' b) a Ha).
    apply step_sums_eq. auto.
  - rewrite (step_skip_ st a Ha), (step_skip_ st b Hb),
      (step_skip_ st' b Hb), (step_skip_ st' a Ha). auto.
Qed.

Lemma perm_sums_eq (l l' : list (entry T)) :
  Permutation l l' ->
  forall st st', sums_eq st st' ->
    sums_eq (fold_left step_ l st) (fold_left step_ l' st').
Proof.
  induction 1 as [|x l l' Hp IH|x y l|l l' l'' Hp1 IH1 Hp2 IH2];
    intros st st' H; simpl.
  - exact H.
  - apply IH. now apply step_sums_eq.
  - apply fold_sums_eq. now apply step_swap_sums_eq.
  - destruct (IH1 st st' H) as (A1 & A2 & A3).
    destruct (IH2 st' st' ltac:(repeat split; reflexivity)) as (B1 & B2 & B3).
    repeat split; etransitivity; eauto.
Qed.


(** X21. Entries that [compute_insights] ignores: an entry whose amount
    is not positive, and an entry with a blank [category_normalized]
    whose raw category contains "fund" or "transfer" (and not
    "utility"), leave every field of the result as it is without the
    entry. *)
Theorem ignored_entries
  (l1 l2 : list (entry T)) (e : entry T) (b : budget_row)
  (p : string) (k : option string) :
  (amount_ e <= 0 ->
   compute_ (l1 ++ e :: l2) b p k = compute_ (l1 ++ l2) b p k)
  /\ (PyStr.strip (PyStr.or_empty (e_category_normalized e)) = ""%string ->
      let c := PyStr.lower (PyStr.strip (PyStr.or_empty (e_category e))) in
      Spec.occurs "fund" c \/ Spec.occurs "transfer" c ->
      ~ Spec.occurs "utility" c ->
      compute_ (l1 ++ e :: l2) b p k = compute_ (l1 ++ l2) b p k).
Proof.
  assert (G : counted e = false ->
              compute_ (l1 ++ e :: l2) b p k = compute_ (l1 ++ l2) b p k).
  { intros Hc. unfold compute_insights.
    rewrite !(run_app float_of_str T fromisoformat utc_day). simpl.
    now rewrite (step_skip_ _ _ Hc). }
  split.
  - intros Hle. apply G. unfold InsightSpec.counted, InsightSpec.positive.
    apply Qle_bool_iff in Hle. unfold Qlt_bool.
    fold (InsightSpec.amount_of float_of_str T e). now rewrite Hle.
  - intros Hcn c Hft Hu. apply G.
    unfold InsightSpec.counted, InsightSpec.excluded.
    assert (E : normalize_category T e = "funds_transfer"%string).
    { unfold normalize_category. rewrite Hcn. cbn [PyStr.lower PyStr.truthy].
      fold c.
      assert (Eu : PyStr.contains "utility" c = false).
      { destruct (PyStr.contains "utility" c) eqn:E; [|reflexivity].
        apply contains_occurs in E. contradiction. }
      rewrite Eu.
      assert (Ef : (PyStr.contains "fund" c || PyStr.contains "transfer" c)%bool = true).
      { apply orb_true_iff. destruct Hft as [H|H]; [left|right];
          now apply contains_occurs. }
      now rewrite Ef. }
    rewrite E. cbn. apply andb_false_r.
Qed.

End EntriesMore.


Lemma ignored_entries_witness :
  Sample.insights_of
    (Examples.before_entries
     ++ Sample.entry_of (PFloat 5000) (TsOther "2024-01-04") "Bank Transfer"
     :: Examples.after_entries) Sample.no_budget
  = Sample.insights_of (Examples.before_entries ++ Examples.after_entries)
      Sample.no_budget.
Proof.
  apply (proj2 (ignored_entries Sample.float_of_str date Sample.fromisoformat
                  Sample.utc_day Examples.before_entries Examples.after_entries
                  (Sample.entry_of (PFloat 5000) (TsOther "2024-01-04") "Bank Transfer")
                  Sample.no_budget "month" None)).
  - reflexivity.
  - right. apply contains_occurs. reflexivity.
  - intros H. apply contains_occurs in H. discriminate H.
Defined.

(* ================================================================== *)
(** * The month bounds of [db.py] and those of [analytics.py] *)
(* ================================================================== *)

Section DbBounds.

Local Open Scope Z_scope.

Import DateSpec ListSpec.

Local Abbreviation not_dash := (fun c : ascii => negb (Ascii.eqb c "-")).

Lemma split_nonempty (sep : ascii) (s : string) : PyStr.split sep s <> [].
Proof.
  destruct s as [|c r]; simpl; [discriminate|].
  destruct (Ascii.eqb c sep); [discriminate|].
  destruct (PyStr.split sep r); discriminate.
Qed.

Lemma split_cons (c : ascii) (r : string) :
  PyStr.split "-" (String c r)
  = if Ascii.eqb c "-" then EmptyString :: PyStr.split "-" r
    else match PyStr.split "-" r with
         | [] => [String c EmptyString]
         | h :: t => String c h :: t
         end.
Proof. reflexivity. Qed.

Lemma is_space_not_dash (c : ascii) :
  PyStr.is_space c = true -> Ascii.eqb c "-" = false.
Proof. destruct c as [[] [] [] [] [] [] [] []]; vm_compute; congruence. Qed.

Lemma split_lstrip (s : string) :
  PyStr.split "-" (PyStr.lstrip s) = map_head PyStr.lstrip (PyStr.split "-" s).
Proof.
  induction s as [|c r IH]; [reflexivity|].
  cbn [PyStr.lstrip]. destruct (PyStr.is_space c) eqn:Ec.
  - rewrite IH, split_cons, (is_space_not_dash c Ec).
    destruct (PyStr.split "-" r) as [|h t] eqn:E;
      [now destruct (split_nonempty "-" r)|].
    cbn [map_head PyStr.lstrip]. now rewrite Ec.
  - rewrite split_cons. destruct (Ascii.eqb c "-"); [reflexivity|].
    destruct (PyStr.split "-" r) as [|h t]; cbn [map_head PyStr.lstrip];
      now rewrite Ec.
Qed.

Lemma split_single (s h : string) :
  PyStr.split "-" s = [h] -> h = s /\ str_forall not_dash s = true.
Proof.
  revert h; induction s as [|c r IH]; intros h; simpl.
  - intros H. inversion H. auto.
  - destruct (Ascii.eqb c "-") eqn:Ec.
    + intros H. inversion H as [[H1 H2]]. now destruct (split_nonempty "-" r).
    + destruct (PyStr.split "-" r) as [|h' t] eqn:E;
        [now destruct (split_nonempty "-" r)|].
      intros H. inversion H; subst.
      destruct (IH h' eq_refl) as [-> Hf]. now rewrite Hf.
Qed.

Lemma split_no_dash (s : string) :
  str_forall not_dash s = true -> PyStr.split "-" s = [s].
Proof.
  induction s as [|c r IH]; simpl; [reflexivity|].
  intros H. apply andb_true_iff in H as [Hc Hr].
  apply negb_true_iff in Hc. now rewrite Hc, IH.
Qed.

Lemma rstrip_forall (P : ascii -> bool) (s : string) :
  str_forall P s = true -> str_forall P (PyStr.rstrip s) = true.
Proof.
  induction s as [|c r IH]; [reflexivity|].
  cbn [str_forall]. intros H. apply andb_true_iff in H as [Hc Hr].
  rewrite rstrip_cons. specialize (IH Hr).
  destruct (PyStr.rstrip r) as [|c' r'].
  - destruct (PyStr.is_space c); [reflexivity|]. simpl. now rewrite Hc.
  - cbn [str_forall] in *. now rewrite Hc, IH.
Qed.

Lemma map_last_cons (f : string -> string) (x y : string) (l : list string) :
  map_last f (x :: y :: l) = x :: map_last f (y :: l).
Proof. reflexivity. Qed.

Lemma map_last_nonempty (f : string -> string) (l : list string) :
  l <> [] -> map_last f l <> [].
Proof. destruct l as [|x [|y l]]; simpl; congruence. Qed.

Lemma split_rstrip (s : string) :
  PyStr.split "-" (PyStr.rstrip s) = map_last PyStr.rstrip (PyStr.split "-" s).
Proof.
  induction s as [|c r IH]; [reflexivity|].
  rewrite split_cons. destruct (Ascii.eqb c "-") eqn:Ec.
  - assert (Hs : PyStr.is_space c = false).
    { destruct (PyStr.is_space c) eqn:E; [|reflexivity].
      apply is_space_not_dash in E. congruence. }
    assert (E : PyStr.rstrip (String c r) = String c (PyStr.rstrip r)).
    { rewrite rstrip_cons. destruct (PyStr.rstrip r); [now rewrite Hs | reflexivity]. }
    rewrite E, split_cons, Ec, IH.
    destruct (PyStr.split "-" r) as [|h t] eqn:Er;
      [now destruct (split_nonempty "-" r)|].
    reflexivity.
  - destruct (PyStr.split "-" r) as [|h [|h2 t]] eqn:Er;
      [now destruct (split_nonempty "-" r)| |].
    + destruct (split_single r h Er) as [-> Hnd].
      cbn [map_last]. apply split_no_dash. apply rstrip_forall.
      cbn [str_forall]. now rewrite Ec, Hnd.
    + rewrite map_last_cons in *.
      destruct (PyStr.rstrip r) as [|c' r'] eqn:Erst.
      * exfalso. change (PyStr.split "-" "") with [""%string] in IH.
        injection IH as _ H2. symmetry in H2. revert H2.
        exact (map_last_nonempty PyStr.rstrip (h2 :: t) ltac:(discriminate)).
      * rewrite rstrip_cons, Erst, split_cons, Ec, IH. reflexivity.
Qed.

Lemma lstrip_idem (s : string) : PyStr.lstrip (PyStr.lstrip s) = PyStr.lstrip s.
Proof.
  destruct (lstrip_head s) as [E|(c & r & E & Hc)]; rewrite E; [reflexivity|].
  cbn [PyStr.lstrip]. now rewrite Hc.
Qed.

Lemma lstrip_rstrip (s : string) :
  PyStr.lstrip (PyStr.rstrip s) = PyStr.rstrip (PyStr.lstrip s).
Proof.
  induction s as [|c r IH]; [reflexivity|].
  cbn [PyStr.lstrip]. destruct (PyStr.is_space c) eqn:Ec.
  - rewrite <- IH, rstrip_cons.
    destruct (PyStr.rstrip r) as [|c' r'] eqn:E; [now rewrite Ec|].
    cbn [PyStr.lstrip]. now rewrite Ec.
  - destruct (rstrip_keeps_head c r Ec) as (r' & E). rewrite E.
    cbn [PyStr.lstrip]. now rewrite Ec.
Qed.

Lemma int_lstrip (s : string) : PyStr.int (PyStr.lstrip s) = PyStr.int s.
Proof. unfold PyStr.int, PyStr.strip. now rewrite lstrip_idem. Qed.

Lemma int_rstrip (s : string) : PyStr.int (PyStr.rstrip s) = PyStr.int s.
Proof.
  unfold PyStr.int, PyStr.strip. now rewrite lstrip_rstrip, rstrip_idem.
Qed.

(** The parts that [parse_yyyy_mm] reads are those of the unstripped
    string, up to white space that [int] ignores. *)
Lemma split_strip (s : string) :
  PyStr.split "-" (PyStr.strip s)
  = map_last PyStr.rstrip (map_head PyStr.lstrip (PyStr.split "-" s)).
Proof. unfold PyStr.strip. now rewrite split_rstrip, split_lstrip. Qed.

Lemma db_month_bounds_eq (s : string) :
  Db._month_bounds s = month_bounds_utc s.
Proof.
  unfold Db._month_bounds, month_bounds_utc, parse_yyyy_mm.
  rewrite split_strip.
  destruct (PyStr.split "-" s) as [|a [|b [|c l]]]; try reflexivity.
  - cbn [map_head map_last].
    rewrite int_rstrip, int_lstrip.
    destruct (PyStr.int a) as [y| |]; try reflexivity. cbn [bind].
    destruct (PyStr.int b) as [m| |]; try reflexivity. cbn [bind].
    destruct (Z.ltb_spec m 1) as [Hlo|Hlo]; cbn [orb].
    + cbn [bind]. unfold datetime_new, date_new, valid_dateb.
      destruct (Z.leb_spec 1 m); [lia|].
      now rewrite !andb_false_r.
    + destruct (Z.gtb_spec m 12) as [Hhi|Hhi]; [|reflexivity].
      cbn [bind]. unfold datetime_new, date_new, valid_dateb.
      destruct (Z.leb_spec m 12); [lia|].
      now rewrite !andb_false_r.
  - cbn [map_head]. rewrite !map_last_cons.
    destruct (map_last PyStr.rstrip (c :: l)) eqn:E; [|reflexivity].
    exfalso. revert E.
    exact (map_last_nonempty PyStr.rstrip (c :: l) ltac:(discriminate)).
Qed.


End DbBounds.

(* ================================================================== *)
(** * The compare section of [app.py] *)
(* ================================================================== *)

Section PctChange.

Local Open Scope Q_scope.

Lemma round2_idem (q : Q) : round2 (round2 q) = round2 q.
Proof.
  set (k := round_half_even (q * 100)).
  assert (E : round2 q = Qmake k 100) by reflexivity.
  rewrite E. unfold round2. f_equal.
  transitivity (round_half_even (inject_Z k));
    [|apply round_half_even_int].
  apply round_half_even_compat. unfold Qeq. simpl. ring.
Qed.

(** X23. [pct_change] is [None] exactly when the previous amount is
    not positive.  Otherwise it is a number with the sign of the
    change: 0 for equal amounts, non-negative for an increase,
    non-positive for a decrease, and never below -100 when the current
    amount is not negative. *)
Theorem pct_change_sign (cur prev : Q) :
  (prev <= 0 -> App.pct_change cur prev = None)
  /\ (0 < prev ->
      exists r : Q,
        App.pct_change cur prev = Some r
        /\ (cur == prev -> r == 0)
        /\ (prev <= cur -> 0 <= r)
        /\ (cur <= prev -> r <= 0)
        /\ (0 <= cur -> -(100) <= r)).
Proof.
  unfold App.pct_change. split.
  - intros H. apply Qle_bool_iff in H. now rewrite H.
  - intros Hp. apply Qle_bool_false in Hp as Hb. rewrite Hb.
    eexists. split; [reflexivity|].
    assert (Z0 : round2 0 == 0) by reflexivity.
    assert (Up : prev <= cur -> 0 <= round2 ((cur - prev) / prev * 100)).
    { intros H. rewrite <- Z0. apply round2_mono.
      apply Qmult_le_0_compat; [|discriminate].
      apply Qle_shift_div_l; [exact Hp | lra]. }
    assert (Down : cur <= prev -> round2 ((cur - prev) / prev * 100) <= 0).
    { intros H. rewrite <- Z0. apply round2_mono.
      assert ((cur - prev) / prev <= 0)
        by (apply Qle_shift_div_r; [exact Hp | lra]).
      lra. }
    split; [|split; [exact Up | split; [exact Down|]]].
    + intros E. apply Qle_antisym; [apply Down | apply Up]; lra.
    + intros Hc.
      assert (M : round2 (-(100)) == -(100)) by reflexivity.
      rewrite <- M. apply round2_mono.
      assert (E : (cur - prev) / prev * 100 == cur / prev * 100 - 100)
        by (field; lra).
      rewrite E.
      assert (0 <= cur / prev) by (apply Qle_shift_div_l; [exact Hp | lra]).
      lra.
Qed.

End PctChange.

Lemma pct_change_sign_witness :
  exists r : Q,
    App.pct_change 150 100 = Some r
    /\ (150 == 100 -> r == 0)%Q
    /\ (100 <= 150 -> 0 <= r)%Q
    /\ (150 <= 100 -> r <= 0)%Q
    /\ (0 <= 150 -> -(100) <= r)%Q.
Proof.
  apply (proj2 (pct_change_sign 150 100)). reflexivity.
Defined.

Example pct_change_half_more : App.pct_change 150 100 = Some (Qmake 5000 100).
Proof. reflexivity. Qed.

Section CompareSection.

Variable float_of_str : string -> option Q.
Variable T : Type.
Variable fromisoformat : string -> option T.
Variable utc_day : T -> string.
Variable fetch_month_budget : string -> string -> option budget_row.
Variable query : string -> datetime -> datetime -> list (entry T).
Variable user_id : string.

Local Open Scope Z_scope.

Import DateSpec.

Local Abbreviation add_compare_ :=
  (App._add_compare_section float_of_str T fromisoformat utc_day
     fetch_month_budget query user_id).
Local Abbreviation compute_ := (compute_insights float_of_str T fromisoformat utc_day).


(** X25. The failures of [_add_compare_section]: a month that
    [prev_month_str] rejects raises [ValueError]; and for January of
    year 1 the previous month is in year 0, so the call raises
    [ValueError] as soon as a budget row is found for it. *)
Theorem add_compare_section_failures (month : string) (ins : insights) :
  (forall e, parse_yyyy_mm month = Raise e ->
             add_compare_ month ins = Raise ValueError)
  /\ (parse_yyyy_mm month = Ok (1, 1) ->
      forall pb, fetch_month_budget user_id "0-12" = Some pb ->
                 add_compare_ month ins = Raise ValueError).
Proof.
  split.
  - intros e He. pose proof (parse_yyyy_mm_benign month) as Hb.
    rewrite He in Hb. simpl in Hb. subst e.
    unfold App._add_compare_section, prev_month_str. now rewrite He.
  - intros Hp pb Hsome.
    unfold App._add_compare_section, prev_month_str. rewrite Hp. cbn [bind].
    change (1 =? 1) with true. cbv iota. cbn [bind].
    change (PyStr.str_of_int (1 - 1) ++ "-12")%string with "0-12"%string.
    rewrite Hsome. reflexivity.
Qed.

End CompareSection.


Lemma add_compare_section_failures_witness :
  App._add_compare_section Sample.float_of_str date Sample.fromisoformat
    Sample.utc_day Sample.fetch_month_budget Sample2.query "u" "2024-13"
    (Sample.insights_of [] Sample.no_budget)
  = Raise ValueError.
Proof.
  apply (proj1 (add_compare_section_failures Sample.float_of_str date
                  Sample.fromisoformat Sample.utc_day Sample.fetch_month_budget
                  Sample2.query "u" "2024-13"
                  (Sample.insights_of [] Sample.no_budget)) ValueError).
  reflexivity.
Defined.

Example compare_with_january :
  App._add_compare_section Sample.float_of_str date Sample.fromisoformat
    Sample.utc_day Sample.fetch_month_budget Sample2.query "u" "2024-02"
    (Sample.insights_of [Sample.entry_of (PFloat 1500) TsNone "rent"] Sample.no_budget)
  = Ok (Sample.insights_of [Sample.entry_of (PFloat 1500) TsNone "rent"] Sample.no_budget,
        Some (App.mkcompare "2024-01" (Qmake 100000 100) (Some (Qmake 5000 100)))).
Proof. vm_compute. reflexivity. Qed.

(* ================================================================== *)
(** * Insight engine: how the sums relate to the category totals *)
(* ================================================================== *)

Section SumsAndCategories.

Variable float_of_str : string -> option Q.
Variable T : Type.
Variable fromisoformat : string -> option T.
Variable utc_day : T -> string.

Local Open Scope Q_scope.

Local Abbreviation step_ := (step float_of_str T fromisoformat utc_day).
Local Abbreviation run_ := (run float_of_str T fromisoformat utc_day).
Local Abbreviation amount_ := (InsightSpec.amount_of float_of_str T).
Local Abbreviation compute_ := (compute_insights float_of_str T fromisoformat utc_day).
Local Abbreviation counted := (InsightSpec.counted float_of_str T).
Local Abbreviation step_count_ := (step_count float_of_str T fromisoformat utc_day).
Local Abbreviation step_skip_ := (step_skip float_of_str T fromisoformat utc_day).
Local Abbreviation run_invariant_ := (run_invariant float_of_str T fromisoformat utc_day).

(** Lookup after an addition under the same key, and under another. *)
Lemma dict_get_add_same (k : string) (v : Q) (d : list (string * Q)) :
  dict_get k 0 (dict_add k v d) == dict_get k 0 d + v.
Proof.
  induction d as [|[k' x] d IH]; simpl.
  - rewrite String.eqb_refl. ring.
  - destruct (String.eqb k' k) eqn:E; simpl; rewrite E; [reflexivity | exact IH].
Qed.

Lemma dict_get_add_other (k k' : string) (v : Q) (d : list (string * Q)) :
  k <> k' -> dict_get k' 0 (dict_add k v d) = dict_get k' 0 d.
Proof.
  intros Hne. induction d as [|[k0 x] d IH]; simpl.
  - destruct (String.eqb_spec k k'); [contradiction | reflexivity].
  - destruct (String.eqb_spec k0 k) as [->|H0]; simpl.
    + destruct (String.eqb_spec k k'); [contradiction | reflexivity].
    + destruct (String.eqb k0 k'); [reflexivity | exact IH].
Qed.

Lemma dict_get_add (k k' : string) (v : Q) (d : list (string * Q)) :
  dict_get k' 0 (dict_add k v d)
  == dict_get k' 0 d + (if String.eqb k k' then v else 0).
Proof.
  destruct (String.eqb_spec k k') as [->|Hne].
  - apply dict_get_add_same.
  - rewrite dict_get_add_other by exact Hne. ring.
Qed.

(** The summed totals of the five discretionary base categories. *)
Local Abbreviation base_total d :=
  (dict_get "shopping" 0 d + dict_get "entertainment" 0 d
   + dict_get "charity" 0 d + dict_get "subscriptions" 0 d
   + dict_get "travel" 0 d).

Lemma base_total_add (k : string) (v : Q) (d : list (string * Q)) :
  base_total (dict_add k v d)
  == base_total d + (if str_mem k DISCRETIONARY_BASE then v else 0).
Proof.
  rewrite !dict_get_add. unfold str_mem, DISCRETIONARY_BASE. cbn [existsb].
  rewrite !(String.eqb_sym k).
  destruct (String.eqb_spec "shopping" k) as [<-|];
    [cbn; ring|].
  destruct (String.eqb_spec "entertainment" k) as [<-|];
    [cbn; ring|].
  destruct (String.eqb_spec "charity" k) as [<-|];
    [cbn; ring|].
  destruct (String.eqb_spec "subscriptions" k) as [<-|];
    [cbn; ring|].
  destruct (String.eqb_spec "travel" k) as [<-|]; cbn; ring.
Qed.

Lemma sums_and_categories (entries : list (entry T)) :
  let st := run_ entries in
  discretionary st == restaurant_food st + base_total (totals_by_cat st)
  /\ restaurant_food st <= dict_get "food" 0 (totals_by_cat st)
  /\ InsightSpec.sum_values (daily_totals st) <= spent st.
Proof.
  cbv zeta. apply run_invariant_.
  { split; [vm_compute; reflexivity|].
    split; vm_compute; discriminate. }
  intros st e (H1 & H2 & H3). destruct (counted e) eqn:Hc.
  - pose proof (counted_positive float_of_str T e Hc) as Hpos.
    destruct (step_count_ st e Hc) as (Es & Et & Ed & Er & Edi).
    rewrite Es, Et, Ed, Er, Edi. cbv zeta.
    rewrite base_total_add, dict_get_add.
    unfold InsightSpec.restaurant_entry.
    fold (InsightSpec.amount_of float_of_str T e).
    split; [|split].
    + destruct (str_mem (normalize_category T e) DISCRETIONARY_BASE);
        destruct (_ && _)%bool; lra.
    + destruct (String.eqb (normalize_category T e) "food"); cbn [andb];
        [destruct (fst _)|]; lra.
    + destruct (_parse_ts T fromisoformat (e_created_at e)).
      * rewrite sum_values_dict_add. lra.
      * lra.
  - now rewrite step_skip_.
Qed.

(** A key that is absent is looked up as the default. *)
Lemma dict_get_absent (k : string) (d : list (string * Q)) :
  ~ In k (map fst d) -> dict_get k 0 d = 0.
Proof.
  induction d as [|[k' x] d IH]; [reflexivity|].
  simpl. intros Hno. destruct (String.eqb_spec k' k) as [->|]; [tauto|].
  apply IH. tauto.
Qed.

(** X26. Restaurant food is food: the restaurant-food total never
    exceeds the total of the category ["food"], so an entry of any
    other category never counts as restaurant food, whatever its text. *)
Theorem restaurant_food_within_food
  (entries : list (entry T)) (b : budget_row) (p : string) (k : option string) :
  let out := compute_ entries b p k in
  restaurant_food_total out
  <= round2 (dict_get "food" 0 (totals_by_cat (run_ entries)))
  /\ (~ In "food"%string (map fst (totals_by_category out)) ->
      restaurant_food_total out == 0).
Proof.
  cbv zeta. destruct (sums_and_categories entries) as (_ & H & _).
  cbv zeta in H. unfold compute_insights.
  cbn [restaurant_food_total totals_by_category].
  split; [now apply round2_mono|].
  rewrite map_map. cbn [fst]. intros Hno.
  rewrite (dict_get_absent "food" _ Hno) in H.
  destruct (totals_bounds float_of_str T fromisoformat utc_day entries)
    as (H0 & _).
  assert (Z0 : round2 0 == 0) by reflexivity.
  apply Qle_antisym.
  - rewrite <- Z0. now apply round2_mono.
  - rewrite <- Z0. now apply round2_mono.
Qed.



End SumsAndCategories.

